(** * Historical-imagery capture scripts: change detection, date resolution,
      timeline scan and session report

    The repository is a family of Node.js scripts that drive a browser over
    the historical-imagery timeline of a map view.  This development embeds
    the parts of five of them that carry the algorithmic content:

    - [Investigation] : unnamed/part_001, first script, [tryUrlParameters];
    - [Revised]    : unnamed/part_001, second script ("Further Revised
                     Version"), [hasSignificantChanges]; its session and
                     the search for the history icon are in
                     [RevisedSession];
    - [Simplified] : standalone.js, third script ("Simplified Version"),
                     [compareScreenshots] and the timeline scan;
    - [Refined]    : standalone.js, fourth script ("Refined Version"),
                     the activation retry loop bounded by [MAX_RETRIES];
    - [Enhanced]   : unnamed/part_002 ("Enhanced Version"), OCR date
                     extraction, [formatDateForFilename],
                     [estimateYearFromPosition], the scan and the metadata.

    Modelling conventions.

    - JavaScript numbers are kept as exact rationals extended with the
      IEEE special values ([Num.number]); binary64 rounding of finite
      results is not modelled there.  Every finite quantity the scripts
      compute is a small integer (a buffer length, a pixel column, a year)
      or a quotient of two of them.  [Binary64] repeats the numeric
      functions over IEEE doubles, and the two are compared by evaluation
      on the pixel columns of the screen and on buffer lengths around the
      two thresholds.
    - Strings are sequences of 8-bit code units ([string]).
    - The browser, the OCR engine and the file system are an environment:
      a [Page] record gives, for every awaited call, either the value it
      resolves to or the message of the error it rejects with.
    - A script is a function in the state-and-exception monad [Eff] over a
      [World] made of the session log and the files written so far.
      Timestamps are left out of log lines; appending to the log and
      writing a file into the output directory are taken to succeed. *)

From Stdlib Require Import ZArith QArith Qround Qabs Lia Bool List Arith.
From Stdlib Require Import Ascii String Strings.Byte DecimalString.
From Stdlib Require Import SpecFloat.
From Stdlib Require Import Sorted.
From Stdlib Require DecimalPos DecimalZ.
Import ListNotations.

Close Scope Q_scope.
Open Scope list_scope.
Open Scope string_scope.

(* ================================================================== *)
(** * JavaScript numbers *)
(* ================================================================== *)

Module Num.

Inductive number : Type :=
| Fin (q : Q)
| PosInf
| NegInf
| NaN.

Definition of_Z (z : Z) : number := Fin (inject_Z z).
Definition of_nat (n : nat) : number := of_Z (Z.of_nat n).

Definition Qltb (x y : Q) : bool := negb (Qle_bool y x).

(** [a / b].  A zero divisor is the positive zero: every divisor in the
    scripts is a buffer length. *)
Definition div (a b : number) : number :=
  match a, b with
  | NaN, _ | _, NaN => NaN
  | Fin x, Fin y =>
      if Qeq_bool y 0 then
        if Qeq_bool x 0 then NaN
        else if Qltb 0 x then PosInf else NegInf
      else Fin (Qred (x / y))
  | Fin _, (PosInf | NegInf) => Fin 0
  | PosInf, Fin y => if Qle_bool 0 y then PosInf else NegInf
  | NegInf, Fin y => if Qle_bool 0 y then NegInf else PosInf
  | (PosInf | NegInf), (PosInf | NegInf) => NaN
  end.

Definition inf_of_sign (positive : bool) : number :=
  if positive then PosInf else NegInf.

(** [a * b]. *)
Definition mul (a b : number) : number :=
  match a, b with
  | NaN, _ | _, NaN => NaN
  | Fin x, Fin y => Fin (Qred (x * y))
  | Fin x, PosInf | PosInf, Fin x =>
      if Qeq_bool x 0 then NaN else inf_of_sign (Qltb 0 x)
  | Fin x, NegInf | NegInf, Fin x =>
      if Qeq_bool x 0 then NaN else inf_of_sign (Qltb x 0)
  | PosInf, PosInf | NegInf, NegInf => PosInf
  | PosInf, NegInf | NegInf, PosInf => NegInf
  end.

(** [a > b]; every comparison with NaN is false. *)
Definition gt (a b : number) : bool :=
  match a, b with
  | NaN, _ | _, NaN => false
  | Fin x, Fin y => Qltb y x
  | PosInf, (Fin _ | NegInf) => true
  | Fin _, NegInf => true
  | _, _ => false
  end.

(** [Math.abs] on the difference of two lengths, an integer. *)
Definition Math_abs (z : Z) : Z := Z.abs z.

(** [Math.round] on a finite number: the nearest integer, a tie going
    towards plus infinity. *)
Definition Math_round (q : Q) : Z := Qfloor (q + (1 # 2))%Q.

(** Number-to-string conversion of an integral value, as a template
    literal prints it (plain decimal digits, a leading minus sign). *)
Definition to_string (z : Z) : string := NilZero.string_of_int (Z.to_int z).

End Num.

(* ================================================================== *)
(** * Environment, log and the effect monad *)
(* ================================================================== *)

Module Host.

Definition Buffer : Type := list byte.

(** What an awaited call (or any statement) completes with. *)
Inductive Completion (A : Type) : Type :=
| Normal (a : A)
| Throw (message : string).
Arguments Normal {A} a.
Arguments Throw {A} message.

(** One [log(...)] call.  A message is kept as its text, except where it
    prints a number through [toFixed]: there the number itself is kept. *)
Inductive LogEntry : Type :=
| Line (message : string)
| ImageSizeDifference (percentDiff : Num.number)
    (* `Image size difference: ${percentDiff.toFixed(2)}%` *)
| FoundUniqueImage (position : nat) (percentDiff : Num.number).
    (* `Found unique image at position ${i+1} (${percentDiff.toFixed(2)}% different)` *)

(** The session log (capture_log.txt, oldest line first) and the files
    written into the output directory (oldest write first), [D] being the
    script's own type of file contents. *)
Record World (D : Type) : Type := mkWorld {
  w_log : list LogEntry;
  w_files : list (string * D)
}.
Arguments mkWorld {D} w_log w_files.
Arguments w_log {D} w.
Arguments w_files {D} w.

Definition empty_world {D : Type} : World D := mkWorld [] [].

Definition Eff (D A : Type) : Type := World D -> Completion A * World D.

Definition ret {D A} (a : A) : Eff D A := fun w => (Normal a, w).

Definition bind {D A B} (m : Eff D A) (f : A -> Eff D B) : Eff D B :=
  fun w =>
    match m w with
    | (Normal a, w') => f a w'
    | (Throw e, w') => (Throw e, w')
    end.

(** [throw new Error(message)]. *)
Definition throw {D A} (message : string) : Eff D A :=
  fun w => (Throw message, w).

(** [await] of an environment call. *)
Definition await {D A} (c : Completion A) : Eff D A := fun w => (c, w).

(** [try { body } catch (error) { handler error.message }]. *)
Definition try_catch {D A} (body : Eff D A) (handler : string -> Eff D A)
  : Eff D A :=
  fun w =>
    match body w with
    | (Normal a, w') => (Normal a, w')
    | (Throw e, w') => handler e w'
    end.

(** [try { body } finally { cleanup }]: the cleanup runs on both paths,
    and an error it raises replaces the body's completion. *)
Definition try_finally {D A} (body : Eff D A) (cleanup : Eff D unit)
  : Eff D A :=
  fun w =>
    match body w with
    | (c, w') =>
        match cleanup w' with
        | (Normal _, w'') => (c, w'')
        | (Throw e, w'') => (Throw e, w'')
        end
    end.

(** [log(message)]: append one line to the session log. *)
Definition log_entry {D} (e : LogEntry) : Eff D unit :=
  fun w => (Normal tt, mkWorld (w_log w ++ [e]) (w_files w)).

Definition log {D} (message : string) : Eff D unit := log_entry (Line message).

(** [fs.writeFile] / [fs.copyFileSync] into the output directory. *)
Definition write_file {D} (name : string) (body : D) : Eff D unit :=
  fun w => (Normal tt, mkWorld (w_log w) (w_files w ++ [(name, body)])).

(** [for (let i = start; i < start + n; i++) body i], threading the
    variables the body assigns to. *)
Fixpoint for_loop {D St} (n : nat) (i : nat) (body : nat -> St -> Eff D St)
         (s : St) : Eff D St :=
  match n with
  | O => ret s
  | S n' => bind (body i s) (for_loop n' (S i) body)
  end.

End Host.

Import Host.

Declare Scope eff_scope.
Delimit Scope eff_scope with eff.
Notation "x <- m ;; k" := (bind m (fun x => k))
  (at level 61, m at next level, right associativity) : eff_scope.
Notation "m ;;; k" := (bind m (fun _ => k))
  (at level 61, right associativity) : eff_scope.
Open Scope eff_scope.

(* ================================================================== *)
(** * Strings and regular expressions *)
(* ================================================================== *)

Module Text.

Definition code (c : ascii) : nat := nat_of_ascii c.

Definition between (lo hi c : ascii) : bool :=
  (code lo <=? code c)%nat && (code c <=? code hi)%nat.

Definition is_digit (c : ascii) : bool := between "0" "9" c.
Definition is_lower (c : ascii) : bool := between "a" "z" c.
Definition is_upper (c : ascii) : bool := between "A" "Z" c.

(** White space and line terminators among the 8-bit code units: tab,
    line feed, vertical tab, form feed, carriage return, space and the
    no-break space. *)
Definition is_space (c : ascii) : bool :=
  existsb (Nat.eqb (code c)) [9; 10; 11; 12; 13; 32; 160]%nat.

(** Case mapping; only the letters a-z and A-Z have a partner. *)
Definition to_lower_char (c : ascii) : ascii :=
  if is_upper c then ascii_of_nat (code c + 32) else c.
Definition to_upper_char (c : ascii) : ascii :=
  if is_lower c then ascii_of_nat (code c - 32) else c.

Fixpoint map_string (f : ascii -> ascii) (s : string) : string :=
  match s with
  | EmptyString => EmptyString
  | String c s' => String (f c) (map_string f s')
  end.

(** [s.toLowerCase()]. *)
Definition toLowerCase (s : string) : string := map_string to_lower_char s.

Fixpoint repeat_char (c : ascii) (n : nat) : string :=
  match n with
  | O => EmptyString
  | S n' => String c (repeat_char c n')
  end.

(** [s.padStart(targetLength, fill)] for a one-character [fill]. *)
Definition padStart (targetLength : nat) (fill : ascii) (s : string) : string :=
  repeat_char fill (targetLength - String.length s) ++ s.

Fixpoint drop_while (p : ascii -> bool) (s : string) : string :=
  match s with
  | EmptyString => EmptyString
  | String c s' => if p c then drop_while p s' else s
  end.

Fixpoint rev_string (s : string) : string :=
  match s with
  | EmptyString => EmptyString
  | String c s' => rev_string s' ++ String c EmptyString
  end.

(** [s.trim()]. *)
Definition trim (s : string) : string :=
  rev_string (drop_while is_space (rev_string (drop_while is_space s))).

(** ** Character classes *)

Inductive cclass : Type :=
| CChar (c : ascii)             (* a literal character *)
| CRange (lo hi : ascii)        (* lo-hi *)
| CDigit                        (* \d *)
| CSpace                        (* \s *)
| CUnion (a b : cclass)         (* [ab] *)
| CNot (a : cclass).            (* [^a] *)

(** Membership, [icase] being the regular expression's [i] flag: a
    character then also matches through its other-case partner. *)
Fixpoint cmatch (icase : bool) (cl : cclass) (c : ascii) : bool :=
  match cl with
  | CChar d =>
      Ascii.eqb d c
      || (icase && (Ascii.eqb d (to_lower_char c) || Ascii.eqb d (to_upper_char c)))
  | CRange lo hi =>
      between lo hi c
      || (icase && (between lo hi (to_lower_char c) || between lo hi (to_upper_char c)))
  | CDigit => is_digit c
  | CSpace => is_space c
  | CUnion a b => cmatch icase a c || cmatch icase b c
  | CNot a => negb (cmatch icase a c)
  end.

(** [s.replace(/[class]/g, by)], or with the flags [gi] when [icase] is
    set: every character of the class is replaced. *)
Fixpoint replace_class (icase : bool) (cl : cclass) (by_ : string) (s : string)
  : string :=
  match s with
  | EmptyString => EmptyString
  | String c s' =>
      (if cmatch icase cl c then by_ else String c EmptyString)
      ++ replace_class icase cl by_ s'
  end.

(** ** Regular expressions

    The fragment the scripts use: literals, classes, concatenation,
    alternation, greedy bounded or unbounded repetition of a
    one-character atom, and numbered capturing groups. *)

Inductive regex : Type :=
| Cls (cl : cclass)
| Lit (s : string)
| Cat (r1 r2 : regex)
| Alt (r1 r2 : regex)
| Rep (cl : cclass) (lo : nat) (hi : option nat)
| Grp (n : nat) (r : regex).

(** Captures, the most recent binding of a group first. *)
Definition caps : Type := list (nat * string).

Fixpoint get_cap (n : nat) (cs : caps) : option string :=
  match cs with
  | [] => None
  | (m, s) :: cs' => if Nat.eqb m n then Some s else get_cap n cs'
  end.

(** The part of [s] consumed when [rest] is what remains of it. *)
Definition consumed (s rest : string) : string :=
  substring 0 (String.length s - String.length rest) s.

Section Matcher.
Variable icase : bool.

(** Greedy [{lo,hi}] over one class: take as many characters as allowed,
    then give them back one at a time until the continuation accepts. *)
Fixpoint rep {R : Type} (cl : cclass) (lo : nat) (hi : option nat)
         (s : string) (k : string -> option R) {struct s} : option R :=
  let stop := match lo with O => k s | S _ => None end in
  match hi with
  | Some O => stop
  | _ =>
      match s with
      | String c s' =>
          if cmatch icase cl c then
            match rep cl (pred lo) (option_map pred hi) s' k with
            | Some r => Some r
            | None => stop
            end
          else stop
      | EmptyString => stop
      end
  end.

Fixpoint lit {R : Type} (l : string) (s : string) (k : string -> option R)
  : option R :=
  match l with
  | EmptyString => k s
  | String d l' =>
      match s with
      | String c s' => if cmatch icase (CChar d) c then lit l' s' k else None
      | EmptyString => None
      end
  end.

(** Backtracking matcher in continuation-passing style: [k] receives
    the rest of the input and the captures so far. *)
Fixpoint rx {R : Type} (r : regex) (s : string) (cs : caps)
         (k : string -> caps -> option R) {struct r} : option R :=
  match r with
  | Cls cl =>
      match s with
      | String c s' => if cmatch icase cl c then k s' cs else None
      | EmptyString => None
      end
  | Lit l => lit l s (fun s' => k s' cs)
  | Cat r1 r2 => rx r1 s cs (fun s' cs' => rx r2 s' cs' k)
  | Alt r1 r2 =>
      match rx r1 s cs k with
      | Some x => Some x
      | None => rx r2 s cs k
      end
  | Rep cl lo hi => rep cl lo hi s (fun s' => k s' cs)
  | Grp n r1 => rx r1 s cs (fun s' cs' => k s' ((n, consumed s s') :: cs'))
  end.

(** A match anchored at the start of [s]: the matched text and the
    captures. *)
Definition match_here (r : regex) (s : string) : option (string * caps) :=
  rx r s [] (fun s' cs => Some (consumed s s', cs)).

(** [s.match(r)] for a regular expression without the [g] flag: the
    leftmost match. *)
Fixpoint search (r : regex) (s : string) {struct s} : option (string * caps) :=
  match match_here r s with
  | Some m => Some m
  | None =>
      match s with
      | EmptyString => None
      | String _ s' => search r s'
      end
  end.

End Matcher.

(** [m[n]] on a match array.  Every group of the scripts' expressions
    takes part in every match, so the text of a missing group is never
    asked for; it is given as the empty string. *)
Definition group (n : nat) (m : string * caps) : string :=
  match n with
  | O => fst m
  | _ => match get_cap n (snd m) with Some s => s | None => EmptyString end
  end.

(** Truthiness of a string value that may be [null]. *)
Definition truthy (v : option string) : bool :=
  match v with
  | Some (String _ _) => true
  | _ => false
  end.

(** [m && m[n]] on the result of [match]: the text of group [n] when
    there is a match and that text is not empty. *)
Definition and_group (m : option (string * caps)) (n : nat) : option string :=
  match m with
  | Some m => if truthy (Some (group n m)) then Some (group n m) else None
  | None => None
  end.

(** [v || fallback] on a string value that may be [null]. *)
Definition or_else (v : option string) (fallback : string) : string :=
  match v with
  | Some (String c s) => String c s
  | _ => fallback
  end.

(** The double-quote character. *)
Definition dquote : string := String (ascii_of_nat 34) EmptyString.

End Text.

Import Text.

Declare Scope regex_scope.
Delimit Scope regex_scope with regex.
Notation "r1 +++ r2" := (Cat r1 r2) (at level 60, right associativity) : regex_scope.

(* ================================================================== *)
(** * unnamed/part_001, "Further Revised Version" *)
(* ================================================================== *)

Module Revised.

(** [hasSignificantChanges(before, after)], lines 370-376. *)
Definition hasSignificantChanges {D} (before after : Buffer) : Eff D bool :=
  let sizeDiff :=
    Num.Math_abs (Z.of_nat (List.length before) - Z.of_nat (List.length after)) in
  let percentDiff :=
    Num.mul (Num.div (Num.of_Z sizeDiff) (Num.of_nat (List.length before)))
            (Num.of_Z 100) in
  log_entry (ImageSizeDifference percentDiff) ;;;
  ret (Num.gt percentDiff (Num.of_Z 1)).

End Revised.

(* ================================================================== *)
(** * standalone.js, "Simplified Version" (lines 1174-1409) *)
(* ================================================================== *)

Module Simplified.

Definition COORDINATES : string := "5.55551247,-0.26162416".

Record Comparison : Type := mkComparison {
  percentDiff : Num.number;
  hasSignificantChange : bool
}.

(** [compareScreenshots(before, after)], lines 1212-1220. *)
Definition compareScreenshots {D} (before after : Buffer) : Eff D Comparison :=
  let sizeDiff :=
    Num.Math_abs (Z.of_nat (List.length before) - Z.of_nat (List.length after)) in
  let percentDiff :=
    Num.mul (Num.div (Num.of_Z sizeDiff) (Num.of_nat (List.length before)))
            (Num.of_Z 100) in
  log_entry (ImageSizeDifference percentDiff) ;;;
  ret (mkComparison percentDiff (Num.gt percentDiff (Num.Fin (1 # 2)))).

Record Page : Type := mkPage {
  launch : Completion unit;               (* puppeteer.launch, browser.newPage *)
  goto : Completion unit;                 (* page.goto, 01_initial_load.png *)
  zoom : Completion unit;                 (* key presses, 02_zoomed_view.png, page.evaluate *)
  historyClick : Completion (Buffer * Buffer);
  baselineShot : Completion Buffer;       (* baseline.png read back *)
  probe : nat -> Completion Buffer;       (* loop index i: the click, position_{i+1}.png
                                             read back, date_display_{i+1}.png *)
  errorShot : Completion unit;
  close : Completion unit
}.

Record CapturedImage : Type := mkImage {
  position : nat;
  pointX : Z;
  uniquePath : string;
  dateDisplayPath : string
}.

Record Card : Type := mkCard {
  card_number : nat;                      (* index + 1 *)
  card_position : nat;
  card_pointX : Z;
  card_image : string;
  card_dateDisplay : string
}.

Inductive Doc : Type :=
| Png (data : Buffer)
| ReportHtml (total : nat) (cards : list Card).

Record ScanState : Type := mkScan {
  baselineData : Buffer;
  captured : list CapturedImage            (* the array capturedImages *)
}.

Definition timelineEndX : Z := 1600.
Definition timelineY : Z := 90.
Definition numPoints : nat := 20.
Definition timelineStart : Z := 1200.
Definition intervalWidth : Q :=
  (inject_Z (timelineEndX - timelineStart) / inject_Z (Z.of_nat numPoints))%Q.

(** The body of the scan loop (lines 1310-1355). *)
Definition explore (page : Page) (i : nat) (st : ScanState) : Eff Doc ScanState :=
  let pointX :=
    Num.Math_round (inject_Z timelineStart + inject_Z (Z.of_nat i) * intervalWidth)%Q in
  log ("Exploring position " ++ Num.to_string (Z.of_nat (i + 1)) ++ "/" ++
       Num.to_string (Z.of_nat numPoints) ++ " at (" ++ Num.to_string pointX ++
       ", " ++ Num.to_string timelineY ++ ")") ;;;
  currentData <- await (probe page i) ;;
  let dateDisplayPath :=
    "date_display_" ++ Num.to_string (Z.of_nat (i + 1)) ++ ".png" in
  comparison <- compareScreenshots (baselineData st) currentData ;;
  if hasSignificantChange comparison then
    log ("Found unique image at position " ++ Num.to_string (Z.of_nat (i + 1))) ;;;
    let uniqueImagePath :=
      "unique_date_" ++ Num.to_string (Z.of_nat (List.length (captured st) + 1)) ++ ".png" in
    write_file uniqueImagePath (Png currentData) ;;;
    ret (mkScan currentData
           (captured st ++ [mkImage (i + 1) pointX uniqueImagePath dateDisplayPath]))
  else ret st.

Definition scan (page : Page) (baseline : Buffer) : Eff Doc ScanState :=
  for_loop numPoints 0 (explore page) (mkScan baseline []).

Fixpoint cards (images : list CapturedImage) (index : nat) : list Card :=
  match images with
  | [] => []
  | img :: images' =>
      mkCard (index + 1) (position img) (pointX img) (uniquePath img)
             (dateDisplayPath img)
      :: cards images' (S index)
  end.

Definition captureHistoricalImagery (page : Page) : Eff Doc unit :=
  log ("Starting historical imagery capture for coordinates: " ++ COORDINATES) ;;;
  await (launch page) ;;;
  try_finally
    (try_catch
       (log "Navigating to Google Earth Web..." ;;;
        await (goto page) ;;;
        log "Waiting for Google Earth to initialize..." ;;;
        log "Zooming in for better detail..." ;;;
        await (zoom page) ;;;
        log "Clicking on history icon..." ;;;
        clicks <- await (historyClick page) ;;
        comparison <- compareScreenshots (fst clicks) (snd clicks) ;;
        (if hasSignificantChange comparison
         then log "Historical mode activated successfully."
         else log "Warning: No visual confirmation of historical mode. Continuing anyway.") ;;;
        log "Starting timeline exploration..." ;;;
        baseline <- await (baselineShot page) ;;
        final <- scan page baseline ;;
        let images := captured final in
        log ("Found " ++ Num.to_string (Z.of_nat (List.length images)) ++
             " unique historical images.") ;;;
        write_file "report.html" (ReportHtml (List.length images) (cards images 0)) ;;;
        log "Capture complete. Report generated.")
       (fun message =>
          log ("Error: " ++ message) ;;;
          await (errorShot page)))
    (await (close page) ;;;
     log "Browser closed").

End Simplified.

(* ================================================================== *)
(** * standalone.js, "Refined Version" (lines 1410-1709) *)
(* ================================================================== *)

Module Refined.

Definition COORDINATES : string := "5.55551247,-0.26162416".
Definition MAX_RETRIES : nat := 3.
Definition ZOOM_LEVEL : Z := 250.
Definition ADDITIONAL_ZOOM_STEPS : nat := 8.

(** [ /\d{1,2}\/\d{1,2}\/\d{4}/ ], [ /[A-Z][a-z]{2}\s\d{1,2},\s\d{4}/ ] and
    [ /\d{1,2}\s[A-Z][a-z]{2}\s\d{4}/ ] *)
Definition datePatterns : list regex :=
  [ (Rep CDigit 1 (Some 2) +++ Cls (CChar "/") +++ Rep CDigit 1 (Some 2) +++
     Cls (CChar "/") +++ Rep CDigit 4 (Some 4))%regex;
    (Cls (CRange "A" "Z") +++ Rep (CRange "a" "z") 2 (Some 2) +++ Cls CSpace +++
     Rep CDigit 1 (Some 2) +++ Cls (CChar ",") +++ Cls CSpace +++
     Rep CDigit 4 (Some 4))%regex;
    (Rep CDigit 1 (Some 2) +++ Cls CSpace +++ Cls (CRange "A" "Z") +++
     Rep (CRange "a" "z") 2 (Some 2) +++ Cls CSpace +++ Rep CDigit 4 (Some 4))%regex ].

(** [for (const pattern of datePatterns) { ... return match[0] }], then
    [return text.trim()]. *)
Fixpoint firstMatch (patterns : list regex) (text : string) : string :=
  match patterns with
  | [] => trim text
  | pattern :: patterns' =>
      match search false pattern text with
      | Some m => group 0 m
      | None => firstMatch patterns' text
      end
  end.

(** [extractDateFromImage(imagePath)], lines 1455-1486: the date text,
    or [null] when the OCR worker fails. *)
Definition extractDateFromImage {D} (recognized : Completion string)
  : Eff D (option string) :=
  try_catch
    (text <- await recognized ;;
     ret (Some (firstMatch datePatterns text)))
    (fun message =>
       log ("OCR error: " ++ message) ;;;
       ret None).

Record Page : Type := mkPage {
  launch : Completion unit;               (* puppeteer.launch, newPage, setUserAgent *)
  goto : Completion unit;                 (* page.goto, 01_initial_load.png *)
  zoom : Completion unit;                 (* key presses, 02_zoomed_view.png, page.evaluate *)
  click : nat -> Completion unit;         (* retryCount n: 03_before_history_click_{n+1}.png
                                             and the click on the history icon *)
  attempt : nat -> Completion bool;       (* retryCount n: 04_after_history_click_{n+1}.png and
                                             the page.evaluate giving buttonVisible *)
  pause : Completion unit;                (* the click on the play/pause control *)
  probe : nat -> Completion (Completion string);
                                          (* loop index i: before_dot_click, the click,
                                             dot_click, date_display; then the OCR text *)
  highRes : nat -> Completion unit;       (* imagery_position_{i+1}_{date}.png *)
  finalShot : Completion unit;            (* final_state.png *)
  errorShot : Completion unit;            (* error_state.png *)
  close : Completion unit                 (* browser.close *)
}.

Record DateInfo : Type := mkInfo {
  position : nat;
  x : Z;
  imagePath : string
}.

(** One element of captured_dates.json. *)
Record Summary : Type := mkSummary {
  summary_date : string;
  summary_position : nat;
  summary_imagePath : string
}.

Inductive Doc : Type :=
| CapturedDatesJson (entries : list Summary).

(** [capturedDates.set(key, value)] on a [Map]: a present key keeps its
    place and takes the new value, a new key goes last. *)
Fixpoint map_set (key : string) (value : DateInfo)
         (m : list (string * DateInfo)) : list (string * DateInfo) :=
  match m with
  | [] => [(key, value)]
  | (k, v) :: m' =>
      if String.eqb k key then (k, value) :: m'
      else (k, v) :: map_set key value m'
  end.

(** The retry loop of lines 1551-1584; [fuel] is [MAX_RETRIES - retryCount].
    It returns [historyModeActivated]. *)
Fixpoint activate {D} (page : Page) (fuel : nat) (retryCount : nat) : Eff D bool :=
  match fuel with
  | O => ret false
  | S fuel' =>
      log ("Attempt " ++ Num.to_string (Z.of_nat (retryCount + 1)) ++
           ": Clicking on history icon at (520, 37)...") ;;;
      await (click page retryCount) ;;;
      log "Clicked history icon" ;;;
      buttonVisible <- await (attempt page retryCount) ;;
      if buttonVisible then
        log ("Historical imagery mode activated! (Found " ++ dquote ++
             "Deactivate" ++ dquote ++ " button)") ;;;
        ret true
      else
        log ("No " ++ dquote ++ "Deactivate" ++ dquote ++ " button found. Retrying...") ;;;
        activate page fuel' (retryCount + 1)
  end.

Definition timelineStartX : Z := 400.
Definition timelineEndX : Z := 1600.
Definition dotsY : Z := 95.
Definition numPoints : nat := 30.
Definition intervalWidth : Q :=
  (inject_Z (timelineEndX - timelineStartX) / inject_Z (Z.of_nat numPoints))%Q.

(** The body of the scan loop (lines 1612-1658). *)
Definition click_dot (page : Page) (i : nat) (capturedDates : list (string * DateInfo))
  : Eff Doc (list (string * DateInfo)) :=
  let dotX :=
    Num.Math_round (inject_Z timelineStartX + inject_Z (Z.of_nat i) * intervalWidth)%Q in
  log ("Clicking timeline position " ++ Num.to_string (Z.of_nat (i + 1)) ++ "/" ++
       Num.to_string (Z.of_nat numPoints) ++ " at (" ++ Num.to_string dotX ++
       ", " ++ Num.to_string dotsY ++ ")") ;;;
  recognized <- await (probe page i) ;;
  extractedDate <- extractDateFromImage recognized ;;
  log ("Position " ++ Num.to_string (Z.of_nat (i + 1)) ++ ": Detected date: " ++
       or_else extractedDate "None detected") ;;;
  match extractedDate with
  | Some (String c rest) =>
      let extractedDate := String c rest in
      let highResPath :=
        "imagery_position_" ++ Num.to_string (Z.of_nat (i + 1)) ++ "_" ++
        replace_class false (CChar "/") "-" extractedDate ++ ".png" in
      await (highRes page i) ;;;
      ret (map_set extractedDate (mkInfo (i + 1) dotX highResPath) capturedDates)
  | _ => ret capturedDates
  end.

Definition captureHistoricalImagery (page : Page) : Eff Doc unit :=
  log ("Starting historical imagery capture for coordinates: " ++ COORDINATES) ;;;
  await (launch page) ;;;
  try_finally
    (try_catch
       (log "Navigating to Google Earth Web with enhanced zoom..." ;;;
        log ("Opening URL: https://earth.google.com/web/@" ++ COORDINATES ++ "," ++
             Num.to_string ZOOM_LEVEL ++ "a,35y,0h,0t,0r") ;;;
        await (goto page) ;;;
        log "Waiting for Google Earth to initialize..." ;;;
        log ("Zooming in further (" ++ Num.to_string (Z.of_nat ADDITIONAL_ZOOM_STEPS) ++
             " steps)...") ;;;
        await (zoom page) ;;;
        historyModeActivated <- activate page MAX_RETRIES 0 ;;
        (if negb historyModeActivated
         then throw "Failed to activate historical imagery mode after multiple attempts"
         else ret tt) ;;;
        log "Checking for and pausing any auto-playback..." ;;;
        await (pause page) ;;;
        log "Starting optimized blue dot strategy - clicking across timeline to find all available dates" ;;;
        capturedDates <- for_loop numPoints 0 (click_dot page) [] ;;
        log "Historical imagery capture complete." ;;;
        log ("Successfully captured " ++
             Num.to_string (Z.of_nat (List.length capturedDates)) ++ " unique dates") ;;;
        write_file "captured_dates.json"
          (CapturedDatesJson
             (map (fun entry =>
                     mkSummary (fst entry) (position (snd entry)) (imagePath (snd entry)))
                  capturedDates)) ;;;
        await (finalShot page) ;;;
        log "Check the output directory for captured screenshots and the captured_dates.json summary.")
       (fun message =>
          log ("ERROR: " ++ message) ;;;
          try_catch
            (await (errorShot page))
            (fun screenshotError =>
               log ("Failed to take error screenshot: " ++ screenshotError))))
    (await (close page) ;;;
     log "Browser closed").

(** The script's last statement (lines 1706-1709),
    [captureHistoricalImagery().catch(error => { ...; process.exit(1); })]:
    the value is the exit code of the process. *)
Definition main (page : Page) : Eff Doc Z :=
  try_catch
    (captureHistoricalImagery page ;;; ret 0%Z)
    (fun _ => ret 1%Z).

End Refined.

(* ================================================================== *)
(** * unnamed/part_002, "Enhanced Version" *)
(* ================================================================== *)

Module Enhanced.

(** ** Configuration (lines 16-22) *)

Definition COORDINATES : string := "5.55551247,-0.26162416".
Definition LOCATION_NAME : string := "Accra, Ghana".
Definition START_YEAR : Z := 2019.
Definition ZOOM_LEVEL : Z := 250.
Definition ADDITIONAL_ZOOM_STEPS : nat := 8.

(** ** OCR date extraction (lines 44-85) *)

Record OcrResult : Type := mkOcr {
  date : option string;
  raw : option string;
  error : option string
}.

(** /older[\s~]+(\d{1,2}\/\d{1,2}\/\d{4})/ *)
Definition olderPattern : regex :=
  (Lit "older" +++ Rep (CUnion CSpace (CChar "~")) 1 None +++
   Grp 1 (Rep CDigit 1 (Some 2) +++ Cls (CChar "/") +++
          Rep CDigit 1 (Some 2) +++ Cls (CChar "/") +++
          Rep CDigit 4 (Some 4)))%regex.

(** /(\d{1,2}\/\d{1,2}\/\d{4})/ *)
Definition datePattern : regex :=
  Grp 1 (Rep CDigit 1 (Some 2) +++ Cls (CChar "/") +++
         Rep CDigit 1 (Some 2) +++ Cls (CChar "/") +++
         Rep CDigit 4 (Some 4))%regex.

(** /(Jan|Feb|Mar|Apr|May|Jun|Jul|Aug|Sep|Oct|Nov|Dec)[\s,]+\d{1,2}[\s,]+\d{4}/i *)
Definition monthPattern : regex :=
  (Grp 1 (Alt (Lit "Jan") (Alt (Lit "Feb") (Alt (Lit "Mar") (Alt (Lit "Apr")
         (Alt (Lit "May") (Alt (Lit "Jun") (Alt (Lit "Jul") (Alt (Lit "Aug")
         (Alt (Lit "Sep") (Alt (Lit "Oct") (Alt (Lit "Nov") (Lit "Dec")))))))))))) +++
   Rep (CUnion CSpace (CChar ",")) 1 None +++ Rep CDigit 1 (Some 2) +++
   Rep (CUnion CSpace (CChar ",")) 1 None +++ Rep CDigit 4 (Some 4))%regex.

(** [recognized] is what the OCR worker yields for the date crop: the
    recognised text, or the error one of its calls rejects with. *)
Definition extractDateFromImage {D} (recognized : Completion string)
  : Eff D OcrResult :=
  try_catch
    (text <- await recognized ;;
     let olderMatch := search false olderPattern text in
     let dateMatch := search false datePattern text in
     let monthMatch := search true monthPattern text in
     match and_group olderMatch 1 with
     | Some d => ret (mkOcr (Some d) (Some (trim text)) None)
     | None =>
         match and_group dateMatch 1 with
         | Some d => ret (mkOcr (Some d) (Some (trim text)) None)
         | None =>
             match and_group monthMatch 0 with
             | Some d => ret (mkOcr (Some d) (Some (trim text)) None)
             | None => ret (mkOcr None (Some (trim text)) None)
             end
         end
     end)
    (fun message =>
       log ("OCR error: " ++ message) ;;;
       ret (mkOcr None None (Some message))).

(** ** Canonical date (lines 90-128) *)

(** /(\d{1,2})\/(\d{1,2})\/(\d{4})/ *)
Definition regexSlash : regex :=
  (Grp 1 (Rep CDigit 1 (Some 2)) +++ Cls (CChar "/") +++
   Grp 2 (Rep CDigit 1 (Some 2)) +++ Cls (CChar "/") +++
   Grp 3 (Rep CDigit 4 (Some 4)))%regex.

Definition monthNames : list (string * string) :=
  [("jan", "01"); ("feb", "02"); ("mar", "03"); ("apr", "04");
   ("may", "05"); ("jun", "06"); ("jul", "07"); ("aug", "08");
   ("sep", "09"); ("oct", "10"); ("nov", "11"); ("dec", "12")].

(** [monthNames[key]] inside a template literal: a missing key prints as
    "undefined". *)
Fixpoint lookup (key : string) (table : list (string * string)) : string :=
  match table with
  | [] => "undefined"
  | (k, v) :: table' => if String.eqb k key then v else lookup key table'
  end.

(** /([a-z]{3})[a-z]*\s+(\d{1,2})[,\s]+(\d{4})/i *)
Definition regexMonth : regex :=
  (Grp 1 (Rep (CRange "a" "z") 3 (Some 3)) +++ Rep (CRange "a" "z") 0 None +++
   Rep CSpace 1 None +++ Grp 2 (Rep CDigit 1 (Some 2)) +++
   Rep (CUnion (CChar ",") CSpace) 1 None +++ Grp 3 (Rep CDigit 4 (Some 4)))%regex.

(** [ /[\/\s,:]/g ] and [ /[^a-zA-Z0-9-_]/g ] *)
Definition separators : cclass :=
  CUnion (CChar "/") (CUnion CSpace (CUnion (CChar ",") (CChar ":"))).
Definition not_filename_char : cclass :=
  CNot (CUnion (CRange "a" "z") (CUnion (CRange "A" "Z") (CUnion (CRange "0" "9")
       (CUnion (CChar "-") (CChar "_"))))).

(** [r.test(dateString)] holds exactly when [dateString.match(r)] is a
    match (neither expression has the [g] flag), so each pair of the two
    is one [search].  No statement of the source's [try] block can throw
    on a string, so its [catch] branch (which returns 'date_error') is
    never entered. *)
Definition formatDateForFilename (dateString : option string) : string :=
  match dateString with
  | None | Some EmptyString => "unknown_date"
  | Some dateString =>
      match search false regexSlash dateString with
      | Some matches =>
          let month := padStart 2 "0" (group 1 matches) in
          let day := padStart 2 "0" (group 2 matches) in
          let year := group 3 matches in
          year ++ "-" ++ month ++ "-" ++ day
      | None =>
          match search true regexMonth dateString with
          | Some matches =>
              let month := lookup (toLowerCase (group 1 matches)) monthNames in
              let day := padStart 2 "0" (group 2 matches) in
              let year := group 3 matches in
              year ++ "-" ++ month ++ "-" ++ day
          | None =>
              replace_class false not_filename_char ""
                (replace_class false separators "-" dateString)
          end
      end
  end.

(** ** Change detection (lines 133-141) *)

Record Comparison : Type := mkComparison {
  percentDiff : Num.number;
  hasSignificantChange : bool
}.

Definition compareScreenshots {D} (before after : Buffer) : Eff D Comparison :=
  let sizeDiff :=
    Num.Math_abs (Z.of_nat (List.length before) - Z.of_nat (List.length after)) in
  let percentDiff :=
    Num.mul (Num.div (Num.of_Z sizeDiff) (Num.of_nat (List.length before)))
            (Num.of_Z 100) in
  log_entry (ImageSizeDifference percentDiff) ;;;
  ret (mkComparison percentDiff (Num.gt percentDiff (Num.Fin (1 # 2)))).

(** ** Positional year estimate (lines 147-162) *)

Definition estimateYearFromPosition (x : Q) : Z :=
  let timelineStartX := 400%Z in
  let timelineEndX := 1600%Z in
  let startYear := 2002%Z in
  let endYear := 2024%Z in
  let yearSpan := (endYear - startYear)%Z in
  let pixelSpan := (timelineEndX - timelineStartX)%Z in
  let pixelsPerYear := (inject_Z pixelSpan / inject_Z yearSpan)%Q in
  let yearOffset := Num.Math_round ((x - inject_Z timelineStartX) / pixelsPerYear)%Q in
  let estimatedYear := (startYear + yearOffset)%Z in
  estimatedYear.

(** ** The capture session (lines 167-645) *)

(** What one pass of the scan loop obtains from the browser: the
    full-page screenshot read back from position_N.png, and what the OCR
    worker makes of the date crop date_display_N.png. *)
Record Probe : Type := mkProbe {
  currentData : Buffer;
  recognized : Completion string
}.

(** The environment of one run.  Each field stands for the awaited calls
    named beside it and tells whether they resolve or reject. *)
Record Page : Type := mkPage {
  CURRENT_YEAR : Z;                       (* new Date().getFullYear() *)
  launch : Completion unit;               (* puppeteer.launch, browser.newPage *)
  goto : Completion unit;                 (* page.goto, 01_initial_load.png *)
  zoom : Completion unit;                 (* key presses, 02_zoomed_view.png, page.evaluate *)
  historyClick : Completion (Buffer * Buffer);
                                          (* 03_before_history_click.png, the click,
                                             04_after_history_click.png, both read back *)
  baselineShot : Completion Buffer;       (* baseline.png read back *)
  probe : nat -> Completion Probe;        (* loop index i: the click, position_{i+1}.png
                                             read back, date_display_{i+1}.png *)
  errorShot : Completion unit;            (* error_state.png *)
  close : Completion unit                 (* browser.close *)
}.

Record CapturedImage : Type := mkImage {
  position : nat;
  pointX : Z;
  estimatedYear : Z;
  detectedDateText : option string;
  formattedDate : string;
  uniquePath : string;
  dateDisplayPath : string;
  image_percentDiff : Num.number
}.

(** metadata.json; the fields that read the clock (startTime, endTime,
    duration) and outputDirectory are left out. *)
Record Metadata : Type := mkMetadata {
  coordinates : string;
  locationName : string;
  capturedImages : nat;
  targetYearRange : string;
  actualYearRange : string
}.

(** The data the report template interpolates. *)
Record Marker : Type := mkMarker {
  marker_card : nat;
  marker_left : Q;                        (* percent along the strip *)
  marker_year : Z
}.

Record Card : Type := mkCard {
  card_index : nat;
  card_image : string;
  card_date : string;
  card_position : nat;
  card_pointX : Z;
  card_estimatedYear : Z;
  card_detectedDate : string;
  card_dateDisplay : string
}.

Record Report : Type := mkReport {
  report_actualYearRange : string;
  report_total : nat;
  report_timeline : list Marker;
  report_cards : list Card
}.

Inductive Doc : Type :=
| Png (data : Buffer)
| MetadataJson (m : Metadata)
| ReportHtml (r : Report).

(** The variables the scan loop assigns to. *)
Record ScanState : Type := mkScan {
  baselineData : Buffer;
  captured : list CapturedImage            (* the array capturedImages *)
}.

Definition timelineStartX : Z := 400.
Definition timelineEndX : Z := 1600.
Definition timelineY : Z := 90.
Definition numPoints : nat := 30.
Definition timelineStart : Z := 1100.
Definition intervalWidth : Q :=
  (inject_Z (timelineEndX - timelineStart) / inject_Z (Z.of_nat numPoints))%Q.

(** [`${a} to ${b}`] over the first and the last element of the array. *)
Definition yearRange (images : list CapturedImage) : string :=
  match images with
  | [] => "No images captured"
  | first :: _ =>
      formattedDate first ++ " to " ++ formattedDate (last images first)
  end.

Fixpoint mapi {A B} (f : A -> nat -> B) (l : list A) (index : nat) : list B :=
  match l with
  | [] => []
  | a :: l' => f a index :: mapi f l' (S index)
  end.

(** The body of the scan loop (lines 253-308). *)
Definition explore (page : Page) (i : nat) (st : ScanState) : Eff Doc ScanState :=
  let pointX :=
    Num.Math_round (inject_Z timelineStart + inject_Z (Z.of_nat i) * intervalWidth)%Q in
  let estimatedYear := estimateYearFromPosition (inject_Z pointX) in
  log ("Exploring position " ++ Num.to_string (Z.of_nat (i + 1)) ++ "/" ++
       Num.to_string (Z.of_nat numPoints) ++ " at (" ++ Num.to_string pointX ++
       ", " ++ Num.to_string timelineY ++ ") - Estimated year: ~" ++
       Num.to_string estimatedYear) ;;;
  p <- await (probe page i) ;;
  let dateDisplayPath :=
    "date_display_" ++ Num.to_string (Z.of_nat (i + 1)) ++ ".png" in
  ocrResult <- extractDateFromImage (recognized p) ;;
  let formattedDate :=
    if truthy (date ocrResult) then formatDateForFilename (date ocrResult)
    else "est_" ++ Num.to_string estimatedYear in
  log ("Position " ++ Num.to_string (Z.of_nat (i + 1)) ++
       ": Detected date text: " ++ dquote ++ or_else (raw ocrResult) "None" ++
       dquote ++ ", Formatted: " ++ formattedDate) ;;;
  comparison <- compareScreenshots (baselineData st) (currentData p) ;;
  if hasSignificantChange comparison then
    log_entry (FoundUniqueImage (i + 1) (percentDiff comparison)) ;;;
    let uniqueImagePath :=
      toLowerCase
        (replace_class true (CNot (CUnion (CRange "a" "z") (CRange "0" "9"))) "_"
           LOCATION_NAME)
      ++ "_" ++ formattedDate ++ ".png" in
    write_file uniqueImagePath (Png (currentData p)) ;;;
    ret (mkScan (currentData p)
           (captured st ++
            [mkImage (i + 1) pointX estimatedYear (raw ocrResult) formattedDate
                     uniqueImagePath dateDisplayPath (percentDiff comparison)]))
  else ret st.

(** The timeline scan: [for (let i = 0; i < numPoints; i++) { ... }]. *)
Definition scan (page : Page) (baseline : Buffer) : Eff Doc ScanState :=
  for_loop numPoints 0 (explore page) (mkScan baseline []).

Definition buildMetadata (page : Page) (images : list CapturedImage) : Metadata :=
  mkMetadata COORDINATES LOCATION_NAME (List.length images)
    (Num.to_string START_YEAR ++ " to " ++ Num.to_string (CURRENT_YEAR page))
    (yearRange images).

Definition buildReport (images : list CapturedImage) : Report :=
  mkReport (yearRange images) (List.length images)
    (mapi (fun img index =>
             mkMarker index
               ((inject_Z (pointX img - timelineStart)
                 / inject_Z (timelineEndX - timelineStart)) * 100)%Q
               (estimatedYear img))
          images 0)
    (mapi (fun img index =>
             mkCard index (uniquePath img) (formattedDate img) (position img)
                    (pointX img) (estimatedYear img)
                    (or_else (detectedDateText img) "Unknown")
                    (dateDisplayPath img))
          images 0).

Definition captureHistoricalImagery (page : Page) : Eff Doc unit :=
  log ("Starting historical imagery capture for coordinates: " ++ COORDINATES) ;;;
  await (launch page) ;;;
  try_finally
    (try_catch
       (log "Navigating to Google Earth Web..." ;;;
        await (goto page) ;;;
        log "Waiting for Google Earth to initialize..." ;;;
        log "Zooming in for better detail..." ;;;
        await (zoom page) ;;;
        log "Clicking on history icon..." ;;;
        clicks <- await (historyClick page) ;;
        comparison <- compareScreenshots (fst clicks) (snd clicks) ;;
        (if hasSignificantChange comparison
         then log "Historical mode activated successfully."
         else log "Warning: No visual confirmation of historical mode. Continuing anyway.") ;;;
        log "Starting timeline exploration..." ;;;
        baseline <- await (baselineShot page) ;;
        final <- scan page baseline ;;
        let images := captured final in
        write_file "metadata.json" (MetadataJson (buildMetadata page images)) ;;;
        write_file "enhanced_report.html" (ReportHtml (buildReport images)) ;;;
        log ("Found " ++ Num.to_string (Z.of_nat (List.length images)) ++
             " unique historical images.") ;;;
        log "Capture complete. Enhanced report generated.")
       (fun message =>
          log ("Error: " ++ message) ;;;
          await (errorShot page)))
    (await (close page) ;;;
     log "Browser closed").

End Enhanced.

(* ================================================================== *)
(** * The numeric functions over IEEE doubles *)
(* ================================================================== *)

Module Binary64.

Definition prec : Z := 53.
Definition emax : Z := 1024.

(** An integer as a double (exact below 2^53). *)
Definition of_Z (z : Z) : spec_float := binary_normalize prec emax z 0 false.

Definition div : spec_float -> spec_float -> spec_float := SFdiv prec emax.
Definition mul : spec_float -> spec_float -> spec_float := SFmul prec emax.
Definition gt (a b : spec_float) : bool := SFltb b a.

(** The literal [0.5]. *)
Definition half : spec_float := div (of_Z 1) (of_Z 2).

(** [Math.round] on a double: exact, a tie going up. *)
Definition Math_round (x : spec_float) : Z :=
  match x with
  | S754_finite s m e =>
      let M := if s then Z.neg m else Z.pos m in
      if (0 <=? e)%Z then (M * 2 ^ e)%Z
      else ((2 * M + 2 ^ (- e)) / 2 ^ (1 - e))%Z
  | _ => 0%Z
  end.

(** [(sizeDiff / before.length) * 100]. *)
Definition percentDiff (before_length after_length : Z) : spec_float :=
  let sizeDiff := Z.abs (before_length - after_length) in
  mul (div (of_Z sizeDiff) (of_Z before_length)) (of_Z 100).

(** [percentDiff > 0.5] and [percentDiff > 1]. *)
Definition hasSignificantChange (before_length after_length : Z) : bool :=
  gt (percentDiff before_length after_length) half.

Definition hasSignificantChanges (before_length after_length : Z) : bool :=
  gt (percentDiff before_length after_length) (of_Z 1).

Definition estimateYearFromPosition (x : Z) : Z :=
  let timelineStartX := 400%Z in
  let timelineEndX := 1600%Z in
  let startYear := 2002%Z in
  let endYear := 2024%Z in
  let yearSpan := (endYear - startYear)%Z in
  let pixelSpan := (timelineEndX - timelineStartX)%Z in
  let pixelsPerYear := div (of_Z pixelSpan) (of_Z yearSpan) in
  let yearOffset := Math_round (div (of_Z (x - timelineStartX)) pixelsPerYear) in
  let estimatedYear := (startYear + yearOffset)%Z in
  estimatedYear.

(** A double and an extended rational of the same kind: both not a
    number, the same infinity, or both finite. *)
Definition same_kind (x : spec_float) (y : Num.number) : bool :=
  match x, y with
  | S754_nan, Num.NaN => true
  | S754_infinity false, Num.PosInf => true
  | S754_infinity true, Num.NegInf => true
  | S754_zero _, Num.Fin _ => true
  | S754_finite _ _ _, Num.Fin _ => true
  | _, _ => false
  end.

(** The integers [lo], [lo + 1], ..., [lo + n - 1]. *)
Definition range (lo : Z) (n : nat) : list Z :=
  map (fun k => (lo + Z.of_nat k)%Z) (seq 0 n).

(** Candidate lengths on both sides of a baseline length, around the
    distances at which the percentage crosses 0.5 and 1.  Division and
    multiplication of doubles are monotone, so for a given baseline the
    decision can only change once as the distance grows. *)
Definition near_thresholds (before_length : Z) : list Z :=
  let around (k : Z) := [ (k - 1)%Z; k; (k + 1)%Z ] in
  let distances :=
    (around (before_length / 200)%Z ++ around (before_length / 100)%Z)%list in
  filter (fun a => (0 <=? a)%Z)
         (map (fun d => (before_length - d)%Z) distances
          ++ map (fun d => (before_length + d)%Z) distances)%list.

(** Baseline lengths: every small one, and some of the size of a PNG
    screenshot of a 1920x1080 viewport. *)
Definition sample_lengths : list Z :=
  (range 1 600 ++
   [ 65536; 199999; 200000; 200001; 1000000; 1234567; 2097152; 3145728;
     4999999; 5000000; 10485760 ]%Z)%list.

End Binary64.

(* ================================================================== *)
(** * The rolling baseline, as the specification words it *)
(* ================================================================== *)

Module Rolling.

Section Rolling.
(** The change detector's decision on (baseline, candidate). *)
Variable significant : Buffer -> Buffer -> bool.

(** The baseline after a sequence of frames: it starts as [baseline]
    and is replaced by a frame exactly when that frame is flagged
    against it. *)
Fixpoint baseline_after (frames : list Buffer) (baseline : Buffer) : Buffer :=
  match frames with
  | [] => baseline
  | frame :: frames' =>
      baseline_after frames' (if significant baseline frame then frame else baseline)
  end.

(** The indices, counted from [i], of the frames flagged unique, each
    frame being compared with the baseline current when it is taken. *)
Fixpoint unique_indices (frames : list Buffer) (i : nat) (baseline : Buffer)
  : list nat :=
  match frames with
  | [] => []
  | frame :: frames' =>
      if significant baseline frame
      then i :: unique_indices frames' (S i) frame
      else unique_indices frames' (S i) baseline
  end.
End Rolling.

End Rolling.

(* ================================================================== *)
(** * The change detector, as the specification words it *)
(* ================================================================== *)

Module ChangeSpec.

(** [|len(baseline) - len(candidate)| / len(baseline) * 100]. *)
Definition percent (baseline candidate : Buffer) : Q :=
  (inject_Z (Z.abs (Z.of_nat (List.length baseline)
                    - Z.of_nat (List.length candidate)))
   / inject_Z (Z.of_nat (List.length baseline)) * 100)%Q.

(** The percentage the detectors compute, as a function of the two
    lengths. *)
Definition percent_of_lengths (before_length after_length : Z) : Num.number :=
  Num.mul (Num.div (Num.of_Z (Num.Math_abs (before_length - after_length)))
                   (Num.of_Z before_length))
          (Num.of_Z 100).

(** The world after one "Image size difference" line. *)
Definition logged {D} (percentDiff : Num.number) (w : World D) : World D :=
  mkWorld (w_log w ++ [ImageSizeDifference percentDiff]) (w_files w).

(** [isSignificantChange(baseline, candidate)]: the decision
    [compareScreenshots] returns (threshold 0.5). *)
Definition isSignificantChange (baseline candidate : Buffer) : bool :=
  match fst (Enhanced.compareScreenshots baseline candidate (@empty_world unit)) with
  | Normal c => Enhanced.hasSignificantChange c
  | Throw _ => false
  end.

(** The decision [hasSignificantChanges] returns (threshold 1). *)
Definition isSignificantChange_revised (baseline candidate : Buffer) : bool :=
  match fst (Revised.hasSignificantChanges baseline candidate (@empty_world unit)) with
  | Normal c => c
  | Throw _ => false
  end.

End ChangeSpec.

(* ================================================================== *)
(** * The Enhanced session, sample by sample *)
(* ================================================================== *)

Module EnhancedSpec.
Import Enhanced.

(** The pixel column and the estimated year of loop index [i]. *)
Definition pointX_at (i : nat) : Z :=
  Num.Math_round (inject_Z timelineStart + inject_Z (Z.of_nat i) * intervalWidth)%Q.

Definition year_at (i : nat) : Z := estimateYearFromPosition (inject_Z (pointX_at i)).

(** What [extractDateFromImage] returns. *)
Definition ocr_of (recognized : Completion string) : OcrResult :=
  match fst (extractDateFromImage recognized (@empty_world Doc)) with
  | Normal r => r
  | Throw _ => mkOcr None None None
  end.

(** The canonical label of the sample taken at loop index [i]: the
    variable formattedDate of the loop body. *)
Definition canonical (recognized : Completion string) (i : nat) : string :=
  match date (ocr_of recognized) with
  | Some (String c d) => formatDateForFilename (Some (String c d))
  | _ => "est_" ++ Num.to_string (year_at i)
  end.

(** The frame and the canonical label the page yields at loop index [i]. *)
Definition frame (page : Page) (i : nat) : Buffer :=
  match probe page i with Normal p => currentData p | Throw _ => [] end.

Definition label (page : Page) (i : nat) : string :=
  match probe page i with Normal p => canonical (recognized p) i | Throw _ => "" end.

Definition frames (page : Page) (n : nat) : list Buffer := map (frame page) (seq 0 n).

(** The percentage [compareScreenshots] computes. *)
Definition percentDiff_of (before after : Buffer) : Num.number :=
  match fst (compareScreenshots before after (@empty_world unit)) with
  | Normal c => percentDiff c
  | Throw _ => Num.NaN
  end.

(** The line the loop body logs first. *)
Definition exploring_line (i : nat) : string :=
  "Exploring position " ++ Num.to_string (Z.of_nat (i + 1)) ++ "/" ++
  Num.to_string (Z.of_nat numPoints) ++ " at (" ++ Num.to_string (pointX_at i) ++
  ", " ++ Num.to_string timelineY ++ ") - Estimated year: ~" ++
  Num.to_string (year_at i).

(** The world when the scan loop is entered. *)
Definition prelude (clicks : Buffer * Buffer) (w : World Doc) : World Doc :=
  mkWorld
    (w_log w ++
     [ Line ("Starting historical imagery capture for coordinates: " ++ COORDINATES);
       Line "Navigating to Google Earth Web...";
       Line "Waiting for Google Earth to initialize...";
       Line "Zooming in for better detail...";
       Line "Clicking on history icon...";
       ImageSizeDifference (percentDiff_of (fst clicks) (snd clicks));
       Line (if ChangeSpec.isSignificantChange (fst clicks) (snd clicks)
             then "Historical mode activated successfully."
             else "Warning: No visual confirmation of historical mode. Continuing anyway.");
       Line "Starting timeline exploration..." ])
    (w_files w).

(** What the session does once the scan loop has completed with [final]. *)
Definition report_stage (page : Page) (final : ScanState) : Eff Doc unit :=
  let images := captured final in
  write_file "metadata.json" (MetadataJson (buildMetadata page images)) ;;;
  write_file "enhanced_report.html" (ReportHtml (buildReport images)) ;;;
  log ("Found " ++ Num.to_string (Z.of_nat (List.length images)) ++
       " unique historical images.") ;;;
  log "Capture complete. Enhanced report generated.".

(** The [catch] and [finally] blocks of the session. *)
Definition handler (page : Page) (message : string) : Eff Doc unit :=
  log ("Error: " ++ message) ;;; await (errorShot page).

Definition cleanup (page : Page) : Eff Doc unit :=
  await (close page) ;;; log "Browser closed".

Definition frame_of_size (n : nat) : Buffer := repeat x00 n.

(** A run in which every call resolves, the OCR worker recognises
    nothing, and the frame changes size at loop indices 0, 3, 12 and 26. *)
Definition example_page : Page :=
  {| CURRENT_YEAR := 2025;
     launch := Normal tt; goto := Normal tt; zoom := Normal tt;
     historyClick := Normal (frame_of_size 100, frame_of_size 120);
     baselineShot := Normal (frame_of_size 100);
     probe := fun i =>
       Normal (mkProbe
                 (frame_of_size (if i <? 3 then 110 else if i <? 12 then 130
                                 else if i <? 26 then 150 else 170)%nat)
                 (Normal ""));
     errorShot := Normal tt; close := Normal tt |}.

(** The same run, except that the browser rejects at loop index 1. *)
Definition failing_page : Page :=
  {| CURRENT_YEAR := 2025;
     launch := Normal tt; goto := Normal tt; zoom := Normal tt;
     historyClick := Normal (frame_of_size 100, frame_of_size 120);
     baselineShot := Normal (frame_of_size 100);
     probe := fun i =>
       if (i =? 1)%nat then Throw "Navigation timeout of 30000 ms exceeded"
       else probe example_page i;
     errorShot := Normal tt; close := Normal tt |}.

(** A run in which the page dies at loop index 1: the probe and the
    error screenshot of the handler both reject. *)
Definition dead_page : Page :=
  {| CURRENT_YEAR := 2025;
     launch := Normal tt; goto := Normal tt; zoom := Normal tt;
     historyClick := Normal (frame_of_size 100, frame_of_size 120);
     baselineShot := Normal (frame_of_size 100);
     probe := fun i =>
       if (i =? 1)%nat then Throw "Target closed" else probe example_page i;
     errorShot := Throw "Target closed"; close := Normal tt |}.

(** metadata.json and the report among the files written. *)
Fixpoint metadata_of (files : list (string * Doc)) : option Metadata :=
  match files with
  | [] => None
  | (_, MetadataJson m) :: _ => Some m
  | _ :: files' => metadata_of files'
  end.

Fixpoint report_of (files : list (string * Doc)) : option Report :=
  match files with
  | [] => None
  | (_, ReportHtml r) :: _ => Some r
  | _ :: files' => report_of files'
  end.

End EnhancedSpec.

Module SimplifiedSpec.
Import Simplified.

Definition frame (page : Page) (i : nat) : Buffer :=
  match probe page i with Normal b => b | Throw _ => [] end.
Definition frames (page : Page) (n : nat) : list Buffer := map (frame page) (seq 0 n).

(** The percentage [compareScreenshots] computes. *)
Definition percentDiff_of (before after : Buffer) : Num.number :=
  match fst (compareScreenshots before after (@empty_world unit)) with
  | Normal c => percentDiff c
  | Throw _ => Num.NaN
  end.

(** The world when the scan loop is entered. *)
Definition prelude (clicks : Buffer * Buffer) (w : World Doc) : World Doc :=
  mkWorld
    (w_log w ++
     [ Line ("Starting historical imagery capture for coordinates: " ++ COORDINATES);
       Line "Navigating to Google Earth Web...";
       Line "Waiting for Google Earth to initialize...";
       Line "Zooming in for better detail...";
       Line "Clicking on history icon...";
       ImageSizeDifference (percentDiff_of (fst clicks) (snd clicks));
       Line (if ChangeSpec.isSignificantChange (fst clicks) (snd clicks)
             then "Historical mode activated successfully."
             else "Warning: No visual confirmation of historical mode. Continuing anyway.");
       Line "Starting timeline exploration..." ])
    (w_files w).

(** What the session does once the scan loop has completed with [final]. *)
Definition report_stage (final : ScanState) : Eff Doc unit :=
  let images := captured final in
  log ("Found " ++ Num.to_string (Z.of_nat (List.length images)) ++
       " unique historical images.") ;;;
  write_file "report.html" (ReportHtml (List.length images) (cards images 0)) ;;;
  log "Capture complete. Report generated.".

(** The [catch] and [finally] blocks of the session. *)
Definition handler (page : Page) (message : string) : Eff Doc unit :=
  log ("Error: " ++ message) ;;; await (errorShot page).

Definition cleanup (page : Page) : Eff Doc unit :=
  await (close page) ;;; log "Browser closed".

End SimplifiedSpec.

Module RefinedSpec.
Import Refined.

Definition activation_message : string :=
  "Failed to activate historical imagery mode after multiple attempts".

(** The lines one failed attempt leaves in the log. *)
Definition failed_attempt_lines (retryCount : nat) : list LogEntry :=
  [ Line ("Attempt " ++ Num.to_string (Z.of_nat (retryCount + 1)) ++
          ": Clicking on history icon at (520, 37)...");
    Line "Clicked history icon";
    Line ("No " ++ dquote ++ "Deactivate" ++ dquote ++ " button found. Retrying...") ].

(** The log of a session whose three attempts all fail, up to and
    including the line the handler writes. *)
Definition activation_failure_log : list LogEntry :=
  ([ Line ("Starting historical imagery capture for coordinates: " ++ COORDINATES);
     Line "Navigating to Google Earth Web with enhanced zoom...";
     Line ("Opening URL: https://earth.google.com/web/@" ++ COORDINATES ++ "," ++
           Num.to_string ZOOM_LEVEL ++ "a,35y,0h,0t,0r");
     Line "Waiting for Google Earth to initialize...";
     Line ("Zooming in further (" ++ Num.to_string (Z.of_nat ADDITIONAL_ZOOM_STEPS) ++
           " steps)...") ]
   ++ failed_attempt_lines 0 ++ failed_attempt_lines 1 ++ failed_attempt_lines 2
   ++ [ Line ("ERROR: " ++ activation_message) ])%list.

(** What the handler adds when the error screenshot itself fails. *)
Definition error_shot_lines (page : Page) : list LogEntry :=
  match errorShot page with
  | Normal _ => []
  | Throw screenshotError =>
      [Line ("Failed to take error screenshot: " ++ screenshotError)]
  end.

(** A run in which the "Deactivate" button never shows. *)
Definition never_activates : Page :=
  {| launch := Normal tt; goto := Normal tt; zoom := Normal tt;
     click := fun _ => Normal tt; attempt := fun _ => Normal false;
     pause := Normal tt;
     probe := fun _ => Normal (Normal "3/20/2016");
     highRes := fun _ => Normal tt;
     finalShot := Normal tt; errorShot := Normal tt; close := Normal tt |}.

End RefinedSpec.

(** A copied unique frame, as opposed to the metadata or the report. *)
Definition is_png (f : string * Enhanced.Doc) : Prop :=
  match snd f with Enhanced.Png _ => True | _ => False end.

(** What holds of the scan state and the world after [j] passes of the
    Enhanced loop started from the baseline [b0] in the world [w0]. *)
Definition scan_inv (page : Enhanced.Page) (b0 : Buffer) (w0 : World Enhanced.Doc)
           (j : nat) (st : Enhanced.ScanState) (w : World Enhanced.Doc) : Prop :=
  let uniq := Rolling.unique_indices ChangeSpec.isSignificantChange
                (EnhancedSpec.frames page j) 0 b0 in
  Enhanced.baselineData st
  = Rolling.baseline_after ChangeSpec.isSignificantChange (EnhancedSpec.frames page j) b0
  /\ map Enhanced.position (Enhanced.captured st) = map S uniq
  /\ map Enhanced.formattedDate (Enhanced.captured st) = map (EnhancedSpec.label page) uniq
  /\ map Enhanced.estimatedYear (Enhanced.captured st) = map EnhancedSpec.year_at uniq
  /\ exists files, w_files w = (w_files w0 ++ files)%list /\ Forall is_png files.

(* ================================================================== *)
(** * Checks on texts and on regular expressions *)
(* ================================================================== *)

Module TextSpec.

(** A text made of digits only. *)
Fixpoint all_digits (s : string) : bool :=
  match s with
  | EmptyString => true
  | String c s' => is_digit c && all_digits s'
  end.

Definition all_ascii : list ascii := map ascii_of_nat (seq 0 256).
Definition ten_digits : list ascii := map ascii_of_nat (seq 48 10).
(** [f] holds of every character. *)
Definition forall_ascii (f : ascii -> bool) : bool := forallb f all_ascii.

(** Some, every, the first character of a text satisfies a predicate. *)
Fixpoint exists_in (P : ascii -> bool) (s : string) : bool :=
  match s with
  | EmptyString => false
  | String c s' => P c || exists_in P s'
  end.

Fixpoint forall_in (P : ascii -> bool) (s : string) : bool :=
  match s with
  | EmptyString => true
  | String c s' => P c && forall_in P s'
  end.

Definition starts (Q : ascii -> bool) (s : string) : bool :=
  match s with
  | EmptyString => false
  | String c _ => Q c
  end.

Section Checks.
Variable icase : bool.

(** Every character of the class satisfies [P]. *)
Definition class_within (P : ascii -> bool) (cl : cclass) : bool :=
  forall_ascii (fun c => implb (cmatch icase cl c) (P c)).

(** Every match of [r] contains a character satisfying [P]. *)
Fixpoint must_contain (P : ascii -> bool) (r : regex) : bool :=
  match r with
  | Cls cl => class_within P cl
  | Lit l =>
      (fix go (l : string) : bool :=
         match l with
         | EmptyString => false
         | String d l' => class_within P (CChar d) || go l'
         end) l
  | Cat r1 r2 => must_contain P r1 || must_contain P r2
  | Alt r1 r2 => must_contain P r1 && must_contain P r2
  | Rep cl lo _ => (1 <=? lo)%nat && class_within P cl
  | Grp _ r1 => must_contain P r1
  end.

(** Every match of [r] is non-empty and starts with a character
    satisfying [Q]. *)
Fixpoint starts_with (Q : ascii -> bool) (r : regex) : bool :=
  match r with
  | Cls cl => class_within Q cl
  | Lit l =>
      match l with
      | EmptyString => false
      | String d _ => class_within Q (CChar d)
      end
  | Cat r1 _ => starts_with Q r1
  | Alt r1 r2 => starts_with Q r1 && starts_with Q r2
  | Rep cl lo _ => (1 <=? lo)%nat && class_within Q cl
  | Grp _ r1 => starts_with Q r1
  end.

(** The text of every group [n] of [r] for which [G n] gives a
    predicate starts with a character satisfying it. *)
Fixpoint groups_start (G : nat -> option (ascii -> bool)) (r : regex) : bool :=
  match r with
  | Cls _ | Lit _ | Rep _ _ _ => true
  | Cat r1 r2 | Alt r1 r2 => groups_start G r1 && groups_start G r2
  | Grp n r1 =>
      match G n with Some Q => starts_with Q r1 | None => true end
      && groups_start G r1
  end.
End Checks.

(** Not the letter "e", with which every "est_..." label begins. *)
Definition not_e (c : ascii) : bool := negb (Ascii.eqb c "e").

(** A digit or the initial of a month abbreviation, in either case. *)
Definition date_start (c : ascii) : bool :=
  is_digit c || exists_in (Ascii.eqb c) "JFMASONDjfmasond".

(** The groups whose text is known to start with a digit: group 1 of
    the OCR patterns, group 3 (the year) of the formatting patterns. *)
Definition digit_group (n : nat) (m : nat) : option (ascii -> bool) :=
  if Nat.eqb m n then Some is_digit else None.

Definition caps_start (G : nat -> option (ascii -> bool)) (cs : caps) : Prop :=
  forall n t Q, In (n, t) cs -> G n = Some Q -> starts Q t = true.
End TextSpec.

(* ================================================================== *)
(** * What a regular expression matches *)
(* ================================================================== *)

Module RegexSpec.

Section Declarative.
Variable icase : bool.

(** [t] is the literal [l], character by character. *)
Fixpoint lit_matches (l t : string) : Prop :=
  match l, t with
  | EmptyString, EmptyString => True
  | String d l', String c t' => cmatch icase (CChar d) c = true /\ lit_matches l' t'
  | _, _ => False
  end.

(** [n] repetitions are allowed by the bounds [{lo,hi}]. *)
Definition count_within (lo : nat) (hi : option nat) (n : nat) : Prop :=
  (lo <= n)%nat /\ match hi with Some h => (n <= h)%nat | None => True end.

(** [matches r t cs cs']: the text [t] is matched by [r], the captures
    going from [cs] to [cs']. *)
Inductive matches : regex -> string -> caps -> caps -> Prop :=
| matches_cls (cl : cclass) (c : ascii) (cs : caps) :
    cmatch icase cl c = true -> matches (Cls cl) (String c EmptyString) cs cs
| matches_lit (l t : string) (cs : caps) :
    lit_matches l t -> matches (Lit l) t cs cs
| matches_cat (r1 r2 : regex) (t1 t2 : string) (cs cs1 cs2 : caps) :
    matches r1 t1 cs cs1 -> matches r2 t2 cs1 cs2 ->
    matches (Cat r1 r2) (t1 ++ t2) cs cs2
| matches_alt_l (r1 r2 : regex) (t : string) (cs cs' : caps) :
    matches r1 t cs cs' -> matches (Alt r1 r2) t cs cs'
| matches_alt_r (r1 r2 : regex) (t : string) (cs cs' : caps) :
    matches r2 t cs cs' -> matches (Alt r1 r2) t cs cs'
| matches_rep (cl : cclass) (lo : nat) (hi : option nat) (t : string) (cs : caps) :
    TextSpec.forall_in (cmatch icase cl) t = true ->
    count_within lo hi (String.length t) ->
    matches (Rep cl lo hi) t cs cs
| matches_grp (n : nat) (r : regex) (t : string) (cs cs' : caps) :
    matches r t cs cs' -> matches (Grp n r) t cs ((n, t) :: cs').

End Declarative.

(** [t] occurs in [s]. *)
Definition occurs_in (t s : string) : Prop :=
  exists before after, s = before ++ t ++ after.

(** A character that may stand in a file name: a letter, a digit, a
    hyphen or an underscore. *)
Definition filename_char (c : ascii) : bool :=
  is_lower c || is_upper c || is_digit c || Ascii.eqb c "-" || Ascii.eqb c "_".

Definition is_letter (c : ascii) : bool := is_lower c || is_upper c.

(** A text of the form digits/digits/four digits. *)
Definition slash_date (t : string) : Prop :=
  exists m d y,
    t = m ++ "/" ++ d ++ "/" ++ y
    /\ TextSpec.all_digits m = true /\ (1 <= String.length m <= 2)%nat
    /\ TextSpec.all_digits d = true /\ (1 <= String.length d <= 2)%nat
    /\ TextSpec.all_digits y = true /\ String.length y = 4%nat.

(** White space or a comma: the class [[\s,]]. *)
Definition is_sep (c : ascii) : bool := is_space c || Ascii.eqb c ",".

(** A text of the form month abbreviation, separators, one or two
    digits, separators, four digits; the abbreviation is a key of the
    month table in any letter case. *)
Definition month_date (t : string) : Prop :=
  exists mon mm sep1 d sep2 y,
    t = mon ++ sep1 ++ d ++ sep2 ++ y
    /\ In (toLowerCase mon, mm) Enhanced.monthNames
    /\ TextSpec.forall_in is_sep sep1 = true /\ (1 <= String.length sep1)%nat
    /\ TextSpec.all_digits d = true /\ (1 <= String.length d <= 2)%nat
    /\ TextSpec.forall_in is_sep sep2 = true /\ (1 <= String.length sep2)%nat
    /\ TextSpec.all_digits y = true /\ String.length y = 4%nat.

(** A text of the form YYYY-MM-DD, digits throughout. *)
Definition iso_date (t : string) : Prop :=
  exists y m d,
    t = y ++ "-" ++ m ++ "-" ++ d
    /\ TextSpec.all_digits y = true /\ String.length y = 4%nat
    /\ TextSpec.all_digits m = true /\ String.length m = 2%nat
    /\ TextSpec.all_digits d = true /\ String.length d = 2%nat.

(** What the two [replace] calls at the end of [formatDateForFilename]
    make of one character. *)
Definition cleanup_char (c : ascii) : string :=
  if cmatch false Enhanced.separators c then "-"
  else if filename_char c then String c EmptyString
  else EmptyString.

Fixpoint cleanup (s : string) : string :=
  match s with
  | EmptyString => EmptyString
  | String c s' => cleanup_char c ++ cleanup s'
  end.

End RegexSpec.

(* ================================================================== *)
(** * The Enhanced scan, pass by pass *)
(* ================================================================== *)

Module EnhancedScan.

(** What the OCR step of a pass logs. *)
Definition ocr_lines (recognized : Completion string) : list LogEntry :=
  match recognized with
  | Normal _ => []
  | Throw message => [Line ("OCR error: " ++ message)]
  end.

(** The "Position N: Detected date text" line of loop index [i]. *)
Definition position_line (i : nat) (recognized : Completion string) : string :=
  "Position " ++ Num.to_string (Z.of_nat (i + 1)) ++
  ": Detected date text: " ++ dquote ++
  or_else (Enhanced.raw (EnhancedSpec.ocr_of recognized)) "None" ++
  dquote ++ ", Formatted: " ++ EnhancedSpec.canonical recognized i.

(** The name under which a unique frame with the given label is copied. *)
Definition unique_name (label : string) : string :=
  "accra__ghana_" ++ label ++ ".png".

Definition date_display (i : nat) : string :=
  "date_display_" ++ Num.to_string (Z.of_nat (i + 1)) ++ ".png".

(** The record pushed for loop index [i] when its frame is flagged
    against [baseline]. *)
Definition sample (i : nat) (p : Enhanced.Probe) (baseline : Buffer)
  : Enhanced.CapturedImage :=
  Enhanced.mkImage (i + 1) (EnhancedSpec.pointX_at i) (EnhancedSpec.year_at i)
    (Enhanced.raw (EnhancedSpec.ocr_of (Enhanced.recognized p)))
    (EnhancedSpec.canonical (Enhanced.recognized p) i)
    (unique_name (EnhancedSpec.canonical (Enhanced.recognized p) i))
    (date_display i)
    (EnhancedSpec.percentDiff_of baseline (Enhanced.currentData p)).

(** The baseline when pass [i] starts. *)
Definition baseline_before (page : Enhanced.Page) (b0 : Buffer) (i : nat) : Buffer :=
  Rolling.baseline_after ChangeSpec.isSignificantChange (EnhancedSpec.frames page i) b0.

(** The indices flagged unique among the first [n]. *)
Definition unique_upto (page : Enhanced.Page) (b0 : Buffer) (n : nat) : list nat :=
  Rolling.unique_indices ChangeSpec.isSignificantChange (EnhancedSpec.frames page n) 0 b0.

Definition sample_at (page : Enhanced.Page) (b0 : Buffer) (i : nat)
  : Enhanced.CapturedImage :=
  match Enhanced.probe page i with
  | Normal p => sample i p (baseline_before page b0 i)
  | Throw _ => sample i (Enhanced.mkProbe [] (Normal "")) (baseline_before page b0 i)
  end.

(** The copy made for loop index [i] when its frame is flagged. *)
Definition copy_at (page : Enhanced.Page) (b0 : Buffer) (i : nat)
  : string * Enhanced.Doc :=
  (Enhanced.uniquePath (sample_at page b0 i), Enhanced.Png (EnhancedSpec.frame page i)).

(** The lines pass [i] logs. *)
Definition pass_lines (page : Enhanced.Page) (b0 : Buffer) (i : nat) : list LogEntry :=
  match Enhanced.probe page i with
  | Normal p =>
      let baseline := baseline_before page b0 i in
      let pd := EnhancedSpec.percentDiff_of baseline (Enhanced.currentData p) in
      ([Line (EnhancedSpec.exploring_line i)] ++ ocr_lines (Enhanced.recognized p) ++
       [Line (position_line i (Enhanced.recognized p)); ImageSizeDifference pd] ++
       (if ChangeSpec.isSignificantChange baseline (Enhanced.currentData p)
        then [FoundUniqueImage (i + 1) pd] else []))%list
  | Throw _ => [Line (EnhancedSpec.exploring_line i)]
  end.

(** The position of a marker on the report's timeline strip, in percent. *)
Definition marker_percent (x : Z) : Q :=
  ((inject_Z (x - Enhanced.timelineStart)
    / inject_Z (Enhanced.timelineEndX - Enhanced.timelineStart)) * 100)%Q.

End EnhancedScan.

(* ================================================================== *)
(** * The Refined scan, dot by dot *)
(* ================================================================== *)

Module RefinedScan.

(** What [extractDateFromImage] returns. *)
Definition extracted (recognized : Completion string) : option string :=
  match recognized with
  | Normal text => Some (Refined.firstMatch Refined.datePatterns text)
  | Throw _ => None
  end.

(** What the OCR step logs. *)
Definition ocr_lines (recognized : Completion string) : list LogEntry :=
  match recognized with
  | Normal _ => []
  | Throw message => [Line ("OCR error: " ++ message)]
  end.

(** The column of loop index [i]. *)
Definition dotX_at (i : nat) : Z :=
  Num.Math_round (inject_Z Refined.timelineStartX
                  + inject_Z (Z.of_nat i) * Refined.intervalWidth)%Q.

Definition highResPath (i : nat) (extractedDate : string) : string :=
  "imagery_position_" ++ Num.to_string (Z.of_nat (i + 1)) ++ "_" ++
  replace_class false (CChar "/") "-" extractedDate ++ ".png".

(** The value recorded under a date detected at loop index [i]. *)
Definition info_at (i : nat) (extractedDate : string) : Refined.DateInfo :=
  Refined.mkInfo (i + 1) (dotX_at i) (highResPath i extractedDate).

(** The date detected at loop index [i]: the OCR result when it is a
    non-empty text. *)
Definition detected (page : Refined.Page) (i : nat) : option string :=
  match Refined.probe page i with
  | Normal recognized =>
      match extracted recognized with
      | Some (String c rest) => Some (String c rest)
      | _ => None
      end
  | Throw _ => None
  end.

(** The lines one successful attempt leaves in the log. *)
Definition successful_attempt_lines (retryCount : nat) : list LogEntry :=
  [ Line ("Attempt " ++ Num.to_string (Z.of_nat (retryCount + 1)) ++
          ": Clicking on history icon at (520, 37)...");
    Line "Clicked history icon";
    Line ("Historical imagery mode activated! (Found " ++ dquote ++ "Deactivate" ++
          dquote ++ " button)") ].

End RefinedScan.

(* ================================================================== *)
(** * The Simplified scan, pass by pass *)
(* ================================================================== *)

Module SimplifiedScan.

(** The column of loop index [i]. *)
Definition pointX_at (i : nat) : Z :=
  Num.Math_round (inject_Z Simplified.timelineStart
                  + inject_Z (Z.of_nat i) * Simplified.intervalWidth)%Q.

(** The name of the [k]-th unique frame, [k] counted from 0. *)
Definition unique_name (k : nat) : string :=
  "unique_date_" ++ Num.to_string (Z.of_nat (k + 1)) ++ ".png".

Definition date_display (i : nat) : string :=
  "date_display_" ++ Num.to_string (Z.of_nat (i + 1)) ++ ".png".

(** The record pushed for loop index [i] as the [k]-th unique frame. *)
Definition sample (k i : nat) : Simplified.CapturedImage :=
  Simplified.mkImage (i + 1) (pointX_at i) (unique_name k) (date_display i).

(** The records and the copies of a list of flagged indices, the first
    of them being the [k]-th unique frame. *)
Fixpoint samples (k : nat) (indices : list nat) : list Simplified.CapturedImage :=
  match indices with
  | [] => []
  | i :: indices' => sample k i :: samples (S k) indices'
  end.

Fixpoint copies (page : Simplified.Page) (k : nat) (indices : list nat)
  : list (string * Simplified.Doc) :=
  match indices with
  | [] => []
  | i :: indices' =>
      (unique_name k, Simplified.Png (SimplifiedSpec.frame page i))
      :: copies page (S k) indices'
  end.

Definition unique_upto (page : Simplified.Page) (b0 : Buffer) (n : nat) : list nat :=
  Rolling.unique_indices ChangeSpec.isSignificantChange
    (SimplifiedSpec.frames page n) 0 b0.

Definition baseline_before (page : Simplified.Page) (b0 : Buffer) (i : nat) : Buffer :=
  Rolling.baseline_after ChangeSpec.isSignificantChange
    (SimplifiedSpec.frames page i) b0.

End SimplifiedScan.

(* ================================================================== *)
(** * unnamed/part_001, the investigation script: [tryUrlParameters] *)
(* ================================================================== *)

Module Investigation.

Definition COORDINATES : string := "5.55551247,-0.26162416".

(** The environment of one run of [tryUrlParameters]. *)
Record Page : Type := mkPage {
  launch : Completion unit;               (* puppeteer.launch, browser.newPage *)
  visit : nat -> Completion unit;         (* loop index i: page.goto, url_pattern_{i+1}.png,
                                             the five-second timer *)
  close : Completion unit                 (* browser.close *)
}.




End Investigation.



(* ================================================================== *)
(** * unnamed/part_001, "Further Revised Version": the session *)
(* ================================================================== *)

Module RevisedSession.

Definition COORDINATES : string := "5.55551247,-0.26162416".

(** [window.innerWidth] and [window.innerHeight]. *)
Record Dimensions : Type := mkDimensions {
  width : Z;
  height : Z
}.

(** The environment of one run.  Steps 5 (lines 523-587), which prints
    fractional pixel columns, is not embedded: [sliders] stands for it
    and may be any computation on the log. *)
Record Page : Type := mkPage {
  launch : Completion unit;               (* puppeteer.launch, browser.newPage *)
  goto : Completion unit;                 (* page.goto, 01_initial_load.png *)
  loaded : Completion Dimensions;         (* the timer, 02_loaded_state.png, page.evaluate *)
  toolbar : Completion unit;              (* 03_toolbar.png *)
  historyBefore : Completion Buffer;      (* 04_before_history_click.png read back *)
  historyClick : Completion unit;         (* the click at (520, 37) *)
  historyAfter : Completion Buffer;       (* the timer, 05_after_history_click.png read back *)
  bottomArea : Completion unit;           (* 06_..., the move, 07_..., the click, 08_... *)
  keyPress : string -> nat -> Completion unit;
                                          (* 09_before_{name}_press_{i+1}.png, the key,
                                             10_after_..., 11_date_corner_... *)
  sliders : Dimensions -> Eff unit unit;  (* lines 523-587 *)
  iconTry : Z -> Completion (Buffer * Buffer);
                                          (* 17_before_pos_click_{x}.png read back, the
                                             click at (x, 37), 18_after_pos_click_{x}.png
                                             read back *)
  finalShot : Completion unit;            (* 19_final_state.png *)
  errorShot : Completion unit;            (* error_state.png *)
  close : Completion unit                 (* browser.close *)
}.

(** [for (let x = from; x <= to; x += step) push(x)]; [fuel] bounds the
    number of passes. *)
Fixpoint stepped (fuel : nat) (x to step : Z) : list Z :=
  match fuel with
  | O => []
  | S fuel' => if (x <=? to)%Z then x :: stepped fuel' (x + step) to step else []
  end.

(** The array possibleIconPositions (lines 596-599): its x coordinates,
    every y being 37. *)
Definition possibleIconPositions : list Z := stepped 201 400 600 60.

(** [for (const position of possibleIconPositions) { if
    (historyButtonActivated) break; ... }] (lines 603-627); the value is
    historyButtonActivated at the end. *)
Fixpoint find_icon (page : Page) (positions : list Z) : Eff unit bool :=
  match positions with
  | [] => ret false
  | x :: positions' =>
      log ("Trying icon position at (" ++ Num.to_string x ++ ", "
           ++ Num.to_string 37 ++ ")") ;;;
      shots <- await (iconTry page x) ;;
      changed <- Revised.hasSignificantChanges (fst shots) (snd shots) ;;
      if changed then
        log ("Detected significant changes after clicking position ("
             ++ Num.to_string x ++ ", " ++ Num.to_string 37
             ++ "). History mode may be activated.") ;;;
        ret true
      else find_icon page positions'
  end.

(** One element of keySequence (lines 496-520). *)
Definition press_keys (page : Page) (name : string) (count : nat) : Eff unit unit :=
  log ("Pressing " ++ name ++ " key " ++ Num.to_string (Z.of_nat count) ++ " times...") ;;;
  for_loop count 0 (fun i (_ : unit) => await (keyPress page name i)) tt.

(** Steps 3 to 5, the branch taken when the first click changes the
    screen (lines 463-587). *)
Definition explore_timeline (page : Page) (dimensions : Dimensions) : Eff unit unit :=
  log "Detected significant changes after clicking adjusted history icon position. History mode may be activated." ;;;
  log "Looking for timeline or date picker controls..." ;;;
  let bottomAreaX := (width dimensions / 2)%Z in
  let bottomAreaY := (height dimensions - 100)%Z in
  log ("Checking bottom area for timeline controls at (" ++ Num.to_string bottomAreaX
       ++ ", " ++ Num.to_string bottomAreaY ++ ")...") ;;;
  await (bottomArea page) ;;;
  log "Attempting to navigate the timeline..." ;;;
  press_keys page "left_arrow" 3 ;;;
  press_keys page "right_arrow" 3 ;;;
  log "Looking for timeline slider elements..." ;;;
  sliders page dimensions.

(** [captureHistoricalImagery()], lines 381-654. *)
Definition captureHistoricalImagery (page : Page) : Eff unit unit :=
  log ("Starting historical imagery capture for coordinates: " ++ COORDINATES) ;;;
  await (launch page) ;;;
  try_finally
    (try_catch
       (log "Navigating to Google Earth Web..." ;;;
        await (goto page) ;;;
        log "Waiting for Google Earth to initialize..." ;;;
        dimensions <- await (loaded page) ;;
        log "Performing systematic scan of the toolbar..." ;;;
        await (toolbar page) ;;;
        log "Clicking on adjusted history icon position at (520, 37)..." ;;;
        beforeHistoryData <- await (historyBefore page) ;;
        await (historyClick page) ;;;
        log "Clicked at adjusted position (520, 37)" ;;;
        afterHistoryData <- await (historyAfter page) ;;
        changed <- Revised.hasSignificantChanges beforeHistoryData afterHistoryData ;;
        (if changed then explore_timeline page dimensions
         else
           log "No significant changes detected after clicking the adjusted history icon position" ;;;
           log "Trying a systematic approach to find the history icon..." ;;;
           find_icon page possibleIconPositions ;;;
           ret tt) ;;;
        await (finalShot page) ;;;
        log "Exploration complete. Check the output directory for captured screenshots.")
       (fun message =>
          log ("Error during capture: " ++ message) ;;;
          await (errorShot page)))
    (await (close page) ;;;
     log "Browser closed").

End RevisedSession.

Module RevisedSpec.
Import RevisedSession.

(** Whether the click at column [x] changes the screen by more than
    one percent. *)
Definition activates (page : Page) (x : Z) : bool :=
  match iconTry page x with
  | Normal shots => ChangeSpec.isSignificantChange_revised (fst shots) (snd shots)
  | Throw _ => false
  end.

(** The percentage logged for the click at column [x]. *)
Definition icon_percent (page : Page) (x : Z) : Num.number :=
  match iconTry page x with
  | Normal shots =>
      ChangeSpec.percent_of_lengths (Z.of_nat (List.length (fst shots)))
                                    (Z.of_nat (List.length (snd shots)))
  | Throw _ => Num.NaN
  end.

(** The lines logged for a column whose click does not change the
    screen, and for one whose click does. *)
Definition miss_lines (page : Page) (x : Z) : list LogEntry :=
  [ Line ("Trying icon position at (" ++ Num.to_string x ++ ", "
          ++ Num.to_string 37 ++ ")");
    ImageSizeDifference (icon_percent page x) ].

Definition hit_lines (page : Page) (x : Z) : list LogEntry :=
  (miss_lines page x
   ++ [ Line ("Detected significant changes after clicking position ("
              ++ Num.to_string x ++ ", " ++ Num.to_string 37
              ++ "). History mode may be activated.") ])%list.

(** A run in which only the click at column 460 changes the screen. *)
Definition icon_at_460 : Page :=
  {| launch := Normal tt; goto := Normal tt;
     loaded := Normal (mkDimensions 1920 1080);
     toolbar := Normal tt;
     historyBefore := Normal (repeat x00 1000);
     historyClick := Normal tt;
     historyAfter := Normal (repeat x00 1000);
     bottomArea := Normal tt;
     keyPress := fun _ _ => Normal tt;
     sliders := fun _ => ret tt;
     iconTry := fun x =>
       Normal (repeat x00 1000, repeat x00 (if (x =? 460)%Z then 1200 else 1000));
     finalShot := Normal tt; errorShot := Normal tt; close := Normal tt |}.


End RevisedSpec.

(* ================================================================== *)
(** * Further example runs *)
(* ================================================================== *)

Module Runs.

(** The run [example_page] with the OCR worker failing at every
    position. *)
Definition ocr_down : Enhanced.Page :=
  {| Enhanced.CURRENT_YEAR := 2025;
     Enhanced.launch := Normal tt; Enhanced.goto := Normal tt; Enhanced.zoom := Normal tt;
     Enhanced.historyClick :=
       Normal (EnhancedSpec.frame_of_size 100, EnhancedSpec.frame_of_size 120);
     Enhanced.baselineShot := Normal (EnhancedSpec.frame_of_size 100);
     Enhanced.probe := fun i =>
       Normal (Enhanced.mkProbe
                 (EnhancedSpec.frame_of_size (if i <? 3 then 110 else 130)%nat)
                 (Throw "Failed to load language eng"));
     Enhanced.errorShot := Normal tt; Enhanced.close := Normal tt |}.

(** A run of the Refined script in which the "Deactivate" button shows
    at the second attempt. *)
Definition activates_at_second : Refined.Page :=
  {| Refined.launch := Normal tt; Refined.goto := Normal tt; Refined.zoom := Normal tt;
     Refined.click := fun _ => Normal tt;
     Refined.attempt := fun n => Normal (n =? 1)%nat;
     Refined.pause := Normal tt;
     Refined.probe := fun i =>
       Normal (Normal (if (i <? 10)%nat then "3/20/2016" else "Jan 19, 2024"));
     Refined.highRes := fun _ => Normal tt;
     Refined.finalShot := Normal tt; Refined.errorShot := Normal tt;
     Refined.close := Normal tt |}.

(** A run of the Simplified script in which the frame changes size at
    loop indices 0 and 7. *)
Definition simplified_example : Simplified.Page :=
  {| Simplified.launch := Normal tt; Simplified.goto := Normal tt;
     Simplified.zoom := Normal tt;
     Simplified.historyClick :=
       Normal (EnhancedSpec.frame_of_size 100, EnhancedSpec.frame_of_size 120);
     Simplified.baselineShot := Normal (EnhancedSpec.frame_of_size 100);
     Simplified.probe := fun i =>
       Normal (EnhancedSpec.frame_of_size (if i <? 7 then 110 else 130)%nat);
     Simplified.errorShot := Normal tt; Simplified.close := Normal tt |}.

End Runs.


(* ================================================================== *)
(** * Properties *)
(* ================================================================== *)

Import Enhanced EnhancedSpec RefinedSpec TextSpec.

(** ** Numbers *)

Lemma Qltb_lt (x y : Q) : Num.Qltb x y = true <-> (x < y)%Q.
Proof.
  unfold Num.Qltb. rewrite negb_true_iff.
  split; intro H.
  - apply Qnot_le_lt. intro Hle. apply Qle_bool_iff in Hle. congruence.
  - destruct (Qle_bool y x) eqn:E; [|reflexivity].
    apply Qle_bool_iff in E. exfalso. exact (Qlt_not_le _ _ H E).
Qed.

Lemma Qeq_bool_inject_pos (n : Z) : (0 < n)%Z -> Qeq_bool (inject_Z n) 0 = false.
Proof.
  intro Hn. destruct (Qeq_bool (inject_Z n) 0) eqn:E; [|reflexivity].
  apply Qeq_bool_eq in E. unfold Qeq in E. simpl in E. lia.
Qed.

Lemma nonempty_length (b : Buffer) : b <> [] -> (0 < Z.of_nat (List.length b))%Z.
Proof. destruct b; [congruence | simpl; lia]. Qed.

Lemma Math_round_mono (x y : Q) :
  (x <= y)%Q -> (Num.Math_round x <= Num.Math_round y)%Z.
Proof.
  intro H. unfold Num.Math_round. apply Qfloor_resp_le.
  apply Qplus_le_compat; [exact H | apply Qle_refl].
Qed.

(** [Math.round] gives the nearest integer, a tie going up. *)
Lemma Math_round_nearest (q : Q) :
  (inject_Z (Num.Math_round q) <= q + (1 # 2))%Q
  /\ (q + (1 # 2) < inject_Z (Num.Math_round q) + 1)%Q.
Proof.
  unfold Num.Math_round. split.
  - apply Qfloor_le.
  - pose proof (Qlt_floor (q + (1 # 2))) as H.
    rewrite inject_Z_plus in H. exact H.
Qed.

(** Rounding a quotient of integers, in integer arithmetic. *)
Lemma round_ratio (a : Z) (p q : positive) :
  Num.Math_round (inject_Z a / (inject_Z (Z.pos p) / inject_Z (Z.pos q)))%Q
  = ((2 * a * Z.pos q + Z.pos p) / (2 * Z.pos p))%Z.
Proof.
  unfold Num.Math_round.
  rewrite (Qfloor_comp _ ((2 * a * Z.pos q + Z.pos p) # (2 * p))).
  - reflexivity.
  - rewrite (Qmake_Qdiv (2 * a * Z.pos q + Z.pos p) (2 * p)).
    change (Z.pos (2 * p)) with (2 * Z.pos p)%Z.
    rewrite inject_Z_plus, !inject_Z_mult.
    assert (Hp : ~ (inject_Z (Z.pos p) == 0)%Q) by (unfold Qeq; cbn; lia).
    assert (Hq : ~ (inject_Z (Z.pos q) == 0)%Q) by (unfold Qeq; cbn; lia).
    change (1 # 2)%Q with (1 / inject_Z 2)%Q.
    field. repeat split; assumption.
Qed.

(** ** Exact arithmetic against IEEE doubles *)

(** The detectors depend on the two lengths only. *)
Lemma decision_of_lengths (before after : Buffer) :
  let b := Z.of_nat (List.length before) in
  let a := Z.of_nat (List.length after) in
  EnhancedSpec.percentDiff_of before after = ChangeSpec.percent_of_lengths b a
  /\ ChangeSpec.isSignificantChange before after
     = Num.gt (ChangeSpec.percent_of_lengths b a) (Num.Fin (1 # 2))
  /\ ChangeSpec.isSignificantChange_revised before after
     = Num.gt (ChangeSpec.percent_of_lengths b a) (Num.of_Z 1).
Proof. repeat split; reflexivity. Qed.

Lemma range_In (lo x : Z) (n : nat) :
  (lo <= x < lo + Z.of_nat n)%Z -> In x (Binary64.range lo n).
Proof.
  intro H. unfold Binary64.range. apply in_map_iff.
  exists (Z.to_nat (x - lo)). split; [lia|].
  apply in_seq. lia.
Qed.

(** On every integer pixel column from -200 to 2200 the year estimate
    computed over doubles is the one computed over the rationals. *)
Lemma binary64_year_estimate :
  forallb (fun x => (Binary64.estimateYearFromPosition x
                     =? estimateYearFromPosition (inject_Z x))%Z)
          (Binary64.range (-200) 2401) = true.
Proof. vm_compute. reflexivity. Qed.

(** On the sampled baseline lengths, and candidate lengths around the
    two thresholds, both decisions computed over doubles are the ones
    computed over the rationals. *)
Lemma binary64_change_decision :
  forallb
    (fun b =>
       forallb
         (fun a =>
            Bool.eqb (Binary64.hasSignificantChange b a)
                     (Num.gt (ChangeSpec.percent_of_lengths b a) (Num.Fin (1 # 2)))
            && Bool.eqb (Binary64.hasSignificantChanges b a)
                        (Num.gt (ChangeSpec.percent_of_lengths b a) (Num.of_Z 1)))
         (Binary64.near_thresholds b))
    Binary64.sample_lengths = true.
Proof. vm_compute. reflexivity. Qed.

(** With an empty baseline the percentage over doubles is not a number
    or the positive infinity exactly when it is so over the rationals,
    and both decisions are true exactly when the candidate is not
    empty. *)
Lemma binary64_empty_baseline :
  forallb (fun a => Binary64.same_kind (Binary64.percentDiff 0 a)
                                       (ChangeSpec.percent_of_lengths 0 a)
                    && Bool.eqb (Binary64.hasSignificantChange 0 a) (0 <? a)%Z
                    && Bool.eqb (Binary64.hasSignificantChanges 0 a) (0 <? a)%Z)
          (Binary64.range 0 501) = true
  /\ Binary64.percentDiff 0 0 = S754_nan
  /\ Binary64.percentDiff 0 1 = S754_infinity false
  /\ Binary64.gt S754_nan Binary64.half = false
  /\ Binary64.gt (S754_infinity false) Binary64.half = true.
Proof. vm_compute. repeat split; reflexivity. Qed.

(** ** Change detection *)

Lemma percent_value (before after : Buffer) :
  before <> [] ->
  exists pd : Q,
    Num.mul (Num.div (Num.of_Z (Num.Math_abs (Z.of_nat (List.length before)
                                              - Z.of_nat (List.length after))))
                     (Num.of_nat (List.length before)))
            (Num.of_Z 100) = Num.Fin pd
    /\ (pd == ChangeSpec.percent before after)%Q.
Proof.
  intro Hne. pose proof (nonempty_length before Hne) as Hlen.
  unfold Num.of_nat, Num.of_Z, Num.div.
  rewrite (Qeq_bool_inject_pos _ Hlen). cbn [Num.mul].
  eexists. split; [reflexivity|].
  unfold ChangeSpec.percent, Num.Math_abs.
  rewrite Qred_correct. rewrite Qred_correct. reflexivity.
Qed.

Lemma percent_gt_iff (d n num den : Z) :
  (0 < n)%Z -> (0 < den)%Z ->
  ((inject_Z num / inject_Z den) < inject_Z d / inject_Z n * 100)%Q
  <-> (num * n < 100 * d * den)%Z.
Proof.
  intros Hn Hden.
  destruct n as [|n|n]; try lia. destruct den as [|den|den]; try lia.
  unfold Qlt, Qdiv, Qmult, Qinv, inject_Z. cbn [Qnum Qden].
  rewrite ?Z.mul_1_r, ?Z.mul_1_l, ?Pos.mul_1_r, ?Pos.mul_1_l.
  split; intro H; nia.
Qed.

(** The 0.5 percent test, in integer arithmetic. *)
Lemma half_lt_percent (before after : Buffer) :
  before <> [] ->
  ((1 # 2) < ChangeSpec.percent before after)%Q
  <-> (Z.of_nat (List.length before)
       < 200 * Z.abs (Z.of_nat (List.length before) - Z.of_nat (List.length after)))%Z.
Proof.
  intro Hne. pose proof (nonempty_length before Hne) as Hlen.
  unfold ChangeSpec.percent.
  assert (E : ((1 # 2) == inject_Z 1 / inject_Z 2)%Q) by reflexivity.
  rewrite E. rewrite percent_gt_iff by lia. lia.
Qed.

(** The 1 percent test, in integer arithmetic. *)
Lemma one_lt_percent (before after : Buffer) :
  before <> [] ->
  (1 < ChangeSpec.percent before after)%Q
  <-> (Z.of_nat (List.length before)
       < 100 * Z.abs (Z.of_nat (List.length before) - Z.of_nat (List.length after)))%Z.
Proof.
  intro Hne. pose proof (nonempty_length before Hne) as Hlen.
  unfold ChangeSpec.percent.
  assert (E : (1 == inject_Z 1 / inject_Z 1)%Q) by reflexivity.
  rewrite E. rewrite percent_gt_iff by lia. lia.
Qed.

(** What both detectors do on a non-empty baseline. *)
Lemma detectors_on_nonempty {D : Type} (before after : Buffer) (w : World D) :
  before <> [] ->
  exists pd : Q,
    (pd == ChangeSpec.percent before after)%Q /\
    Enhanced.compareScreenshots before after w
    = (Normal (Enhanced.mkComparison (Num.Fin pd) (Num.Qltb (1 # 2) pd)),
       ChangeSpec.logged (Num.Fin pd) w) /\
    Simplified.compareScreenshots before after w
    = (Normal (Simplified.mkComparison (Num.Fin pd) (Num.Qltb (1 # 2) pd)),
       ChangeSpec.logged (Num.Fin pd) w) /\
    Revised.hasSignificantChanges before after w
    = (Normal (Num.Qltb 1 pd), ChangeSpec.logged (Num.Fin pd) w).
Proof.
  intro Hne.
  destruct (percent_value before after Hne) as [pd [Hpd Heq]].
  exists pd. split; [exact Heq|].
  unfold Enhanced.compareScreenshots, Simplified.compareScreenshots,
    Revised.hasSignificantChanges.
  rewrite Hpd. cbn. repeat split.
Qed.

(** C1, as stated, fails: the detector is not free of side effects.  On
    two one-byte buffers [compareScreenshots] leaves a world that differs
    from the one it started in (one more log line). *)
Lemma compareScreenshots_not_pure :
  ~ (snd (Enhanced.compareScreenshots [x00] [x00] (@empty_world unit))
     = @empty_world unit).
Proof. vm_compute. discriminate. Qed.

(** C1 (amended).  For a non-empty baseline, the decision of the change
    detector is a function of the two buffer lengths: it is true exactly
    when |len(baseline) - len(candidate)| / len(baseline) * 100 exceeds the
    threshold, 0.5 for [compareScreenshots] and 1 for
    [hasSignificantChanges]; and the only effect of the call is one
    "Image size difference" line appended to the session log. *)
Theorem change_detector_decision {D : Type} (before after : Buffer) (w : World D) :
  before <> [] ->
  exists (pd : Q) (flag flag1 : bool),
    (pd == ChangeSpec.percent before after)%Q /\
    Enhanced.compareScreenshots before after w
    = (Normal (Enhanced.mkComparison (Num.Fin pd) flag),
       ChangeSpec.logged (Num.Fin pd) w) /\
    (flag = true <-> ((1 # 2) < ChangeSpec.percent before after)%Q) /\
    Revised.hasSignificantChanges before after w
    = (Normal flag1, ChangeSpec.logged (Num.Fin pd) w) /\
    (flag1 = true <-> (1 < ChangeSpec.percent before after)%Q).
Proof.
  intro Hne.
  destruct (detectors_on_nonempty before after w Hne) as [pd [Heq [E1 [_ E2]]]].
  exists pd, (Num.Qltb (1 # 2) pd), (Num.Qltb 1 pd).
  repeat split; try assumption.
  - rewrite Qltb_lt. now rewrite Heq.
  - rewrite Qltb_lt. now rewrite <- Heq.
  - rewrite Qltb_lt. now rewrite Heq.
  - rewrite Qltb_lt. now rewrite <- Heq.
Qed.

Lemma change_detector_decision_witness :
  exists (pd : Q) (flag flag1 : bool),
    (pd == ChangeSpec.percent [x00; x00] [x00])%Q /\
    Enhanced.compareScreenshots [x00; x00] [x00] (@empty_world unit)
    = (Normal (Enhanced.mkComparison (Num.Fin pd) flag),
       ChangeSpec.logged (Num.Fin pd) empty_world) /\
    (flag = true <-> ((1 # 2) < ChangeSpec.percent [x00; x00] [x00])%Q) /\
    Revised.hasSignificantChanges [x00; x00] [x00] (@empty_world unit)
    = (Normal flag1, ChangeSpec.logged (Num.Fin pd) empty_world) /\
    (flag1 = true <-> (1 < ChangeSpec.percent [x00; x00] [x00])%Q).
Proof.
  apply (change_detector_decision [x00; x00] [x00] empty_world).
  discriminate.
Defined.

Lemma isSignificantChange_iff (a b : Buffer) :
  a <> [] ->
  ChangeSpec.isSignificantChange a b = true
  <-> (Z.of_nat (List.length a)
       < 200 * Z.abs (Z.of_nat (List.length a) - Z.of_nat (List.length b)))%Z.
Proof.
  intro Ha. unfold ChangeSpec.isSignificantChange.
  destruct (detectors_on_nonempty (D:=unit) a b empty_world Ha) as [pd [Heq [E _]]].
  rewrite E. cbn. rewrite Qltb_lt, Heq. now apply half_lt_percent.
Qed.

Lemma isSignificantChange_revised_iff (a b : Buffer) :
  a <> [] ->
  ChangeSpec.isSignificantChange_revised a b = true
  <-> (Z.of_nat (List.length a)
       < 100 * Z.abs (Z.of_nat (List.length a) - Z.of_nat (List.length b)))%Z.
Proof.
  intro Ha. unfold ChangeSpec.isSignificantChange_revised.
  destruct (detectors_on_nonempty (D:=unit) a b empty_world Ha) as [pd [Heq [_ [_ E]]]].
  rewrite E. cbn. rewrite Qltb_lt, Heq. now apply one_lt_percent.
Qed.

Lemma bool_eq_of_iff (x y : bool) (P : Prop) :
  (x = true <-> P) -> (y = true <-> P) -> x = y.
Proof.
  intros Hx Hy. destruct x, y; try reflexivity.
  - symmetry. apply Hy, Hx. reflexivity.
  - apply Hx, Hy. reflexivity.
Qed.

(** C6, as stated, fails: with a 199-byte and a 200-byte buffer the
    decision is true one way round (1/199 is above 0.5 percent) and false
    the other (1/200 is exactly 0.5 percent). *)
Lemma change_decision_not_symmetric :
  ~ (ChangeSpec.isSignificantChange (repeat x00 199) (repeat x00 200)
     = ChangeSpec.isSignificantChange (repeat x00 200) (repeat x00 199)).
Proof. vm_compute. discriminate. Qed.

(** C6 (amended).  For non-empty buffers a and b the decision is
    symmetric when the two have the same length; and when a is not longer
    than b, a change reported with b as the baseline is also reported with
    a as the baseline.  (The size difference is divided by the length of
    the baseline, so the converse can fail.) *)
Theorem change_decision_shorter_baseline (a b : Buffer) :
  a <> [] -> b <> [] ->
  (List.length a = List.length b ->
     ChangeSpec.isSignificantChange a b = ChangeSpec.isSignificantChange b a
     /\ ChangeSpec.isSignificantChange_revised a b
        = ChangeSpec.isSignificantChange_revised b a)
  /\ ((List.length a <= List.length b)%nat ->
      (ChangeSpec.isSignificantChange b a = true ->
       ChangeSpec.isSignificantChange a b = true)
      /\ (ChangeSpec.isSignificantChange_revised b a = true ->
          ChangeSpec.isSignificantChange_revised a b = true)).
Proof.
  intros Ha Hb. split.
  - intro E. split.
    + eapply bool_eq_of_iff.
      * apply (isSignificantChange_iff a b Ha).
      * rewrite (isSignificantChange_iff b a Hb). rewrite E. lia.
    + eapply bool_eq_of_iff.
      * apply (isSignificantChange_revised_iff a b Ha).
      * rewrite (isSignificantChange_revised_iff b a Hb). rewrite E. lia.
  - intro Hle. split; intro H.
    + apply isSignificantChange_iff; [assumption|].
      apply isSignificantChange_iff in H; [|assumption]. lia.
    + apply isSignificantChange_revised_iff; [assumption|].
      apply isSignificantChange_revised_iff in H; [|assumption]. lia.
Qed.

Lemma change_decision_shorter_baseline_witness :
  (List.length (repeat x00 199) = List.length (repeat x00 200) ->
     ChangeSpec.isSignificantChange (repeat x00 199) (repeat x00 200)
     = ChangeSpec.isSignificantChange (repeat x00 200) (repeat x00 199)
     /\ ChangeSpec.isSignificantChange_revised (repeat x00 199) (repeat x00 200)
        = ChangeSpec.isSignificantChange_revised (repeat x00 200) (repeat x00 199))
  /\ ((List.length (repeat x00 199) <= List.length (repeat x00 200))%nat ->
      (ChangeSpec.isSignificantChange (repeat x00 200) (repeat x00 199) = true ->
       ChangeSpec.isSignificantChange (repeat x00 199) (repeat x00 200) = true)
      /\ (ChangeSpec.isSignificantChange_revised (repeat x00 200) (repeat x00 199) = true ->
          ChangeSpec.isSignificantChange_revised (repeat x00 199) (repeat x00 200) = true)).
Proof.
  apply (change_decision_shorter_baseline (repeat x00 199) (repeat x00 200));
    discriminate.
Defined.

Lemma percent_empty_baseline (n : nat) :
  Num.mul (Num.div (Num.of_Z (Num.Math_abs (Z.of_nat 0 - Z.of_nat (S n))))
                   (Num.of_nat 0))
          (Num.of_Z 100) = Num.PosInf.
Proof.
  unfold Num.of_nat, Num.of_Z, Num.Math_abs.
  change (Z.of_nat (S n)) with (Z.pos (Pos.of_succ_nat n)).
  reflexivity.
Qed.

(** C10.  The change detector never throws.  With an empty baseline the
    division is by zero: against an empty candidate the percentage is NaN
    and the decision false; against a non-empty candidate the percentage
    is Infinity and the decision true. *)
Theorem empty_baseline_never_throws {D : Type} :
  (forall (before after : Buffer) (w : World D),
      exists c w', Enhanced.compareScreenshots before after w = (Normal c, w'))
  /\ (forall (before after : Buffer) (w : World D),
      exists c w', Revised.hasSignificantChanges before after w = (Normal c, w'))
  /\ (forall w : World D,
      Enhanced.compareScreenshots [] [] w
      = (Normal (Enhanced.mkComparison Num.NaN false), ChangeSpec.logged Num.NaN w)
      /\ Revised.hasSignificantChanges [] [] w
         = (Normal false, ChangeSpec.logged Num.NaN w))
  /\ (forall (b : byte) (rest : Buffer) (w : World D),
      Enhanced.compareScreenshots [] (b :: rest) w
      = (Normal (Enhanced.mkComparison Num.PosInf true), ChangeSpec.logged Num.PosInf w)
      /\ Revised.hasSignificantChanges [] (b :: rest) w
         = (Normal true, ChangeSpec.logged Num.PosInf w)).
Proof.
  split; [|split; [|split]].
  - intros. unfold Enhanced.compareScreenshots, bind, log_entry, ret. eauto.
  - intros. unfold Revised.hasSignificantChanges, bind, log_entry, ret. eauto.
  - intro w. split; reflexivity.
  - intros b rest w.
    unfold Enhanced.compareScreenshots, Revised.hasSignificantChanges.
    cbn [List.length]. rewrite percent_empty_baseline.
    split; reflexivity.
Qed.

(** ** Positional year estimate *)

(** On an integer pixel column, in integer arithmetic. *)
Lemma estimate_year_integer (px : Z) :
  Enhanced.estimateYearFromPosition (inject_Z px)
  = (2002 + (22 * (px - 400) + 600) / 1200)%Z.
Proof.
  unfold Enhanced.estimateYearFromPosition. f_equal.
  change (inject_Z (1600 - 400)) with (inject_Z (Z.pos 1200)).
  change (inject_Z (2024 - 2002)) with (inject_Z (Z.pos 22)).
  assert (E : (inject_Z px - inject_Z 400 == inject_Z (px - 400))%Q).
  { unfold Qminus. rewrite <- inject_Z_opp, <- inject_Z_plus. reflexivity. }
  unfold Num.Math_round at 1.
  rewrite (Qfloor_comp _ (inject_Z (px - 400)
                          / (inject_Z (Z.pos 1200) / inject_Z (Z.pos 22)) + (1 # 2))%Q).
  - fold (Num.Math_round
            (inject_Z (px - 400) / (inject_Z (Z.pos 1200) / inject_Z (Z.pos 22)))%Q).
    rewrite round_ratio.
    replace (2 * (px - 400) * 22 + 1200)%Z with ((22 * (px - 400) + 600) * 2)%Z by ring.
    change (2 * 1200)%Z with (1200 * 2)%Z.
    apply Z.div_mul_cancel_r; lia.
  - rewrite E. reflexivity.
Qed.

(** C2.  With the calibration (400, 1600, 2002, 2024) the estimate is
    2002 + round((pixelX - 400) / ((1600 - 400) / (2024 - 2002))) for every
    pixelX, round being the nearest integer, a tie going up; it is 2002 at
    400 and 2024 at 1600; and it is monotonic non-decreasing in pixelX.
    On the integer pixel columns from -200 to 2200 the value computed over
    IEEE doubles is the same. *)
Theorem estimate_year_interpolation :
  (forall x : Q,
      Enhanced.estimateYearFromPosition x
      = (2002 + Num.Math_round ((x - 400) / ((1600 - 400) / (2024 - 2002)))%Q)%Z)
  /\ (forall x : Q,
      let offset := ((x - 400) / ((1600 - 400) / (2024 - 2002)))%Q in
      let years := (Enhanced.estimateYearFromPosition x - 2002)%Z in
      (inject_Z years <= offset + (1 # 2))%Q
      /\ (offset + (1 # 2) < inject_Z years + 1)%Q)
  /\ Enhanced.estimateYearFromPosition 400 = 2002%Z
  /\ Enhanced.estimateYearFromPosition 1600 = 2024%Z
  /\ (forall x y : Q, (x <= y)%Q ->
        (Enhanced.estimateYearFromPosition x <= Enhanced.estimateYearFromPosition y)%Z)
  /\ (forall px : Z, (-200 <= px <= 2200)%Z ->
        Binary64.estimateYearFromPosition px
        = Enhanced.estimateYearFromPosition (inject_Z px)).
Proof.
  split; [|split; [|split; [|split; [|split]]]].
  - intro x. reflexivity.
  - intros x offset years.
    assert (E : years = Num.Math_round offset).
    { unfold years, Enhanced.estimateYearFromPosition. fold offset.
      change (Num.Math_round ((x - inject_Z 400)
                              / (inject_Z (1600 - 400) / inject_Z (2024 - 2002)))%Q)
        with (Num.Math_round offset).
      lia. }
    rewrite E. apply Math_round_nearest.
  - reflexivity.
  - reflexivity.
  - intros x y H. unfold Enhanced.estimateYearFromPosition.
    apply Z.add_le_mono_l. apply Math_round_mono.
    apply Qmult_le_compat_r.
    + unfold Qminus. apply Qplus_le_compat; [exact H | apply Qle_refl].
    + discriminate.
  - intros px Hpx. apply Z.eqb_eq.
    pose proof binary64_year_estimate as H.
    rewrite forallb_forall in H. apply H.
    apply range_In. cbn. lia.
Qed.

Lemma estimate_year_interpolation_witness :
  (Enhanced.estimateYearFromPosition 700 <= Enhanced.estimateYearFromPosition 1300)%Z.
Proof.
  apply (proj1 (proj2 (proj2 (proj2 (proj2 estimate_year_interpolation)))) 700%Q 1300%Q).
  discriminate.
Defined.

(** ** Loops and sessions *)

Lemma for_loop_inv {D St : Type} (P : nat -> St -> World D -> Prop)
      (body : nat -> St -> Eff D St) (n i : nat) (s : St) (w : World D) :
  P i s w ->
  (forall j s w, (i <= j < i + n)%nat -> P j s w ->
                 exists s' w', body j s w = (Normal s', w') /\ P (S j) s' w') ->
  exists s' w', for_loop n i body s w = (Normal s', w') /\ P (i + n)%nat s' w'.
Proof.
  revert i s w. induction n as [|n IH]; intros i s w HP Hstep.
  - exists s, w. rewrite Nat.add_0_r. split; [reflexivity | exact HP].
  - destruct (Hstep i s w) as [s1 [w1 [E1 HP1]]]; [lia | exact HP |].
    destruct (IH (S i) s1 w1 HP1) as [s2 [w2 [E2 HP2]]].
    { intros j s' w' Hj. apply Hstep. lia. }
    exists s2, w2. split.
    + cbn [for_loop]. unfold bind. rewrite E1. exact E2.
    + replace (i + S n)%nat with (S i + n)%nat by lia. exact HP2.
Qed.

Lemma for_loop_app {D St : Type} (body : nat -> St -> Eff D St) (n m i : nat)
      (s : St) (w : World D) :
  for_loop (n + m) i body s w
  = match for_loop n i body s w with
    | (Normal s', w') => for_loop m (i + n) body s' w'
    | (Throw e, w') => (Throw e, w')
    end.
Proof.
  revert i s w. induction n as [|n IH]; intros i s w.
  - cbn. rewrite Nat.add_0_r. reflexivity.
  - cbn [Nat.add for_loop]. unfold bind.
    destruct (body i s w) as [[s1|e] w1].
    + rewrite IH. replace (S i + n)%nat with (i + S n)%nat by lia. reflexivity.
    + reflexivity.
Qed.

Lemma extract_total {D} (recognized : Completion string) (w : World D) :
  exists w', extractDateFromImage recognized w = (Normal (ocr_of recognized), w')
             /\ w_files w' = w_files w
             /\ exists l, w_log w' = (w_log w ++ l)%list.
Proof.
  unfold ocr_of, extractDateFromImage, try_catch, bind, await.
  destruct recognized as [text|message].
  - destruct (and_group (search false olderPattern text) 1);
      [|destruct (and_group (search false datePattern text) 1);
        [|destruct (and_group (search true monthPattern text) 0)]];
      cbn; (eexists; split; [reflexivity|split; [reflexivity|exists []; now rewrite app_nil_r]]).
  - cbn. eexists. split; [reflexivity|]. split; [reflexivity|]. eexists. reflexivity.
Qed.

Lemma compare_total {D} (before after : Buffer) (w : World D) :
  exists pd,
    compareScreenshots before after w
    = (Normal (mkComparison pd (ChangeSpec.isSignificantChange before after)),
       ChangeSpec.logged pd w).
Proof. eexists. reflexivity. Qed.

Lemma truthy_canonical (recognized : Completion string) (i : nat) :
  (if truthy (date (ocr_of recognized))
   then formatDateForFilename (date (ocr_of recognized))
   else "est_" ++ Num.to_string (year_at i))
  = canonical recognized i.
Proof.
  unfold canonical. destruct (date (ocr_of recognized)) as [[|c d]|]; reflexivity.
Qed.

Lemma explore_step (page : Page) (i : nat) (st : ScanState) (w : World Doc) (p : Probe) :
  probe page i = Normal p ->
  exists img w' files,
    explore page i st w
    = (Normal (if ChangeSpec.isSignificantChange (baselineData st) (currentData p)
               then mkScan (currentData p) (captured st ++ [img])
               else st), w')
    /\ position img = (i + 1)%nat
    /\ pointX img = pointX_at i
    /\ estimatedYear img = year_at i
    /\ formattedDate img = canonical (recognized p) i
    /\ w_files w' = (w_files w ++ files)%list
    /\ Forall is_png files.
Proof.
  intro Hp. unfold explore.
  fold (pointX_at i). fold (year_at i).
  unfold bind at 1. unfold log at 1. unfold log_entry at 1.
  unfold bind at 1. rewrite Hp. unfold await at 1.
  unfold bind at 1.
  match goal with |- context [extractDateFromImage ?r ?w0] =>
    destruct (extract_total r w0) as [w1 [E1 [F1 _]]]; rewrite E1 end.
  rewrite truthy_canonical.
  unfold bind at 1. unfold log at 1. unfold log_entry at 1.
  unfold bind at 1.
  match goal with |- context [compareScreenshots ?a ?b ?w0] =>
    destruct (compare_total a b w0) as [pd E2]; rewrite E2 end.
  cbn [hasSignificantChange percentDiff].
  eexists (mkImage (i + 1) (pointX_at i) (year_at i) _
                   (canonical (recognized p) i) _ _ _).
  cbn [position pointX estimatedYear formattedDate].
  destruct (ChangeSpec.isSignificantChange (baselineData st) (currentData p)).
  - eexists. eexists [_]. split; [reflexivity|].
    do 4 (split; [reflexivity|]).
    unfold ChangeSpec.logged. cbn [w_files]. rewrite F1.
    split; [reflexivity|].
    constructor; [exact I | constructor].
  - eexists. exists []. split; [reflexivity|].
    do 4 (split; [reflexivity|]).
    unfold ChangeSpec.logged. cbn [w_files]. rewrite F1.
    split; [now rewrite app_nil_r | constructor].
Qed.

Section RollingFacts.
Variable sig : Buffer -> Buffer -> bool.

Lemma baseline_after_snoc (fs : list Buffer) (f b : Buffer) :
  Rolling.baseline_after sig (fs ++ [f]) b
  = if sig (Rolling.baseline_after sig fs b) f then f
    else Rolling.baseline_after sig fs b.
Proof.
  revert b. induction fs as [|g fs IH]; intro b; cbn.
  - reflexivity.
  - apply IH.
Qed.

Lemma unique_indices_snoc (fs : list Buffer) (f b : Buffer) (i : nat) :
  Rolling.unique_indices sig (fs ++ [f]) i b
  = (Rolling.unique_indices sig fs i b
     ++ if sig (Rolling.baseline_after sig fs b) f then [i + List.length fs] else [])%list%nat.
Proof.
  revert b i. induction fs as [|g fs IH]; intros b i; cbn.
  - rewrite Nat.add_0_r. destruct (sig b f); reflexivity.
  - destruct (sig b g); rewrite IH; cbn [Nat.add];
      rewrite <- plus_n_Sm; reflexivity.
Qed.

Lemma unique_indices_bound (fs : list Buffer) (b : Buffer) (i j : nat) :
  In j (Rolling.unique_indices sig fs i b) -> (i <= j < i + List.length fs)%nat.
Proof.
  revert b i. induction fs as [|g fs IH]; intros b i H; cbn in *.
  - contradiction.
  - destruct (sig b g).
    + destruct H as [H|H]; [lia|]. apply IH in H. lia.
    + apply IH in H. lia.
Qed.

(** The baseline is the most recently flagged frame, or the initial
    baseline when no frame has been flagged yet. *)
Lemma baseline_after_last (fs : list Buffer) (b : Buffer) :
  Rolling.baseline_after sig fs b
  = match rev (Rolling.unique_indices sig fs 0 b) with
    | [] => b
    | j :: _ => nth j fs []
    end.
Proof.
  induction fs as [|f fs IH] using rev_ind.
  - reflexivity.
  - rewrite baseline_after_snoc, unique_indices_snoc. cbn [Nat.add].
    destruct (sig (Rolling.baseline_after sig fs b) f).
    + rewrite rev_app_distr. cbn. rewrite app_nth2 by lia.
      now rewrite Nat.sub_diag.
    + rewrite app_nil_r. rewrite IH.
      destruct (rev (Rolling.unique_indices sig fs 0 b)) as [|j l] eqn:E.
      * reflexivity.
      * assert (Hin : In j (Rolling.unique_indices sig fs 0 b)).
        { apply in_rev. rewrite E. now left. }
        apply unique_indices_bound in Hin.
        rewrite app_nth1 by lia. reflexivity.
Qed.
End RollingFacts.

Lemma frames_length (page : Page) (n : nat) : List.length (frames page n) = n.
Proof. unfold frames. now rewrite length_map, length_seq. Qed.

Lemma frames_S (page : Page) (n : nat) :
  frames page (S n) = (frames page n ++ [frame page n])%list.
Proof. unfold frames. rewrite seq_S, map_app. reflexivity. Qed.

Lemma frames_nth (page : Page) (n j : nat) :
  (j < n)%nat -> nth j (frames page n) [] = frame page j.
Proof.
  intro H. unfold frames.
  rewrite (nth_indep _ [] (frame page 0)) by (now rewrite length_map, length_seq).
  rewrite map_nth. now rewrite seq_nth.
Qed.

Lemma scan_prefix (page : Page) (b0 : Buffer) (n : nat) (w : World Doc) :
  (forall i, (i < n)%nat -> exists p, probe page i = Normal p) ->
  exists st w',
    for_loop n 0 (explore page) (mkScan b0 []) w = (Normal st, w')
    /\ scan_inv page b0 w n st w'.
Proof.
  intro Hok.
  apply (for_loop_inv (scan_inv page b0 w)).
  - unfold scan_inv. cbn. repeat split. exists []. split; [now rewrite app_nil_r | constructor].
  - intros j st w1 Hj [Hb [Hpos [Hlab [Hyr [files [Hf Hpng]]]]]].
    destruct (Hok j) as [p Hp]; [lia|].
    destruct (explore_step page j st w1 p Hp)
      as [img [w2 [files2 [E [Pi [Px [Py [Pl [Hf2 Hpng2]]]]]]]]].
    eexists. exists w2. split; [exact E|].
    unfold scan_inv. rewrite frames_S.
    rewrite baseline_after_snoc, unique_indices_snoc.
    rewrite frames_length. rewrite <- Hb.
    assert (Hfr : frame page j = currentData p) by (unfold frame; now rewrite Hp).
    rewrite Hfr.
    assert (Hfiles : exists files0, w_files w2 = (w_files w ++ files0)%list
                                    /\ Forall is_png files0).
    { exists (files ++ files2)%list. rewrite Hf2, Hf, app_assoc. split; [reflexivity|].
      apply Forall_app. now split. }
    destruct (ChangeSpec.isSignificantChange (baselineData st) (currentData p)).
    + cbn [baselineData captured Nat.add]. rewrite !map_app. cbn [map].
      assert (Hlj : label page j = canonical (recognized p) j)
        by (unfold label; now rewrite Hp).
      rewrite Hpos, Hlab, Hyr, Pi, Pl, Py, Hlj.
      replace (j + 1)%nat with (S j) by lia.
      repeat split; assumption.
    + rewrite !app_nil_r. repeat split; assumption.
Qed.

Lemma world_eta {D} (w : World D) : mkWorld (w_log w) (w_files w) = w.
Proof. destruct w; reflexivity. Qed.

Lemma bind_normal {D A B} (m : Eff D A) (k : A -> Eff D B) (w w' : World D) (a : A) :
  m w = (Normal a, w') -> bind m k w = k a w'.
Proof. intro E. unfold bind. now rewrite E. Qed.

Lemma bind_throw {D A B} (m : Eff D A) (k : A -> Eff D B) (w w' : World D) (e : string) :
  m w = (Throw e, w') -> bind m k w = (Throw e, w').
Proof. intro E. unfold bind. now rewrite E. Qed.

Lemma log_run {D} (message : string) (w : World D) :
  log message w = (Normal tt, mkWorld (w_log w ++ [Line message]) (w_files w)).
Proof. reflexivity. Qed.

Lemma compare_run {D} (before after : Buffer) (w : World D) :
  compareScreenshots before after w
  = (Normal (mkComparison (percentDiff_of before after)
                          (ChangeSpec.isSignificantChange before after)),
     ChangeSpec.logged (percentDiff_of before after) w).
Proof. reflexivity. Qed.

Ltac run_step :=
  first
    [ erewrite bind_normal by (apply log_run)
    | erewrite bind_normal by (apply compare_run)
    | erewrite bind_normal by (unfold await; apply f_equal2; [eassumption | reflexivity]) ].

Lemma capture_reaches_scan (page : Page) (w : World Doc) (clicks : Buffer * Buffer)
      (b0 : Buffer) :
  launch page = Normal tt -> goto page = Normal tt -> zoom page = Normal tt ->
  historyClick page = Normal clicks -> baselineShot page = Normal b0 ->
  captureHistoricalImagery page w
  = try_finally
      (try_catch (final <- scan page b0 ;; report_stage page final) (handler page))
      (cleanup page)
      (prelude clicks w).
Proof.
  intros Hl Hg Hz Hh Hb.
  unfold captureHistoricalImagery.
  do 2 run_step.
  unfold try_finally, try_catch.
  match goal with
  | |- (let (_, _) := (let (_, _) := ?b1 ?w1 in _) in _)
       = (let (_, _) := (let (_, _) := ?b2 ?w2 in _) in _) =>
      assert (E : b1 w1 = b2 w2)
  end.
  { repeat run_step.
    cbn [hasSignificantChange]. unfold prelude.
    destruct (ChangeSpec.isSignificantChange (fst clicks) (snd clicks));
      repeat run_step; unfold prelude, ChangeSpec.logged; cbn [w_log w_files];
      repeat rewrite <- app_assoc; reflexivity. }
  rewrite E. reflexivity.
Qed.

Lemma explore_throw (page : Page) (i : nat) (st : ScanState) (w : World Doc) (e : string) :
  probe page i = Throw e ->
  explore page i st w
  = (Throw e, mkWorld (w_log w ++ [Line (exploring_line i)]) (w_files w)).
Proof.
  intro Hp. unfold explore.
  erewrite bind_normal by (apply log_run).
  erewrite bind_throw; [reflexivity|].
  unfold await. rewrite Hp. reflexivity.
Qed.

Lemma scan_throw (page : Page) (b0 : Buffer) (i : nat) (e : string) (w : World Doc) :
  (i < numPoints)%nat ->
  (forall j, (j < i)%nat -> exists p, probe page j = Normal p) ->
  probe page i = Throw e ->
  exists st wi,
    for_loop i 0 (explore page) (mkScan b0 []) w = (Normal st, wi)
    /\ scan_inv page b0 w i st wi
    /\ scan page b0 w
       = (Throw e, mkWorld (w_log wi ++ [Line (exploring_line i)]) (w_files wi)).
Proof.
  intros Hi Hok Hp.
  destruct (scan_prefix page b0 i w Hok) as [st [wi [E Hinv]]].
  exists st, wi. split; [exact E|]. split; [exact Hinv|].
  unfold scan.
  replace numPoints with (i + S (numPoints - S i))%nat by lia.
  rewrite for_loop_app, E. cbn [for_loop Nat.add].
  erewrite bind_throw; [reflexivity|].
  now apply explore_throw.
Qed.

(** C7, as stated, fails: in the run [failing_page] the browser rejects
    at position 2, and position 3 is never explored, nor is the frame
    that would have been unique at position 4 ever copied. *)
Lemma scan_stops_at_failed_probe :
  ~ (In (Line (exploring_line 2))
        (w_log (snd (captureHistoricalImagery failing_page empty_world)))
     \/ In "accra__ghana_est_2016.png"
           (map fst (w_files (snd (captureHistoricalImagery failing_page empty_world))))).
Proof.
  vm_compute. intros [H|H];
    repeat (destruct H as [H|H]; [discriminate H|]); exact H.
Qed.

(** C7 (amended).  When the probe at loop index i throws, after the
    earlier probes succeeded, the scan stops there: the world is the one
    the first i passes left, plus the "Exploring position" line of pass i
    and the handler's "Error: <message>" line; no later position is
    sampled and nothing but the unique frames copied so far is in the
    output directory (no metadata, no report).  The handler then takes
    the error screenshot and the browser is closed.  The call returns
    normally when both resolve, "Browser closed" being the last line; it
    rejects with the error of the screenshot when that one rejects, and
    with the error of [browser.close] when that one rejects, in which
    case "Browser closed" is not logged. *)
Theorem probe_failure_aborts_scan (page : Page) (w : World Doc)
        (clicks : Buffer * Buffer) (b0 : Buffer) (i : nat) (e : string) :
  launch page = Normal tt -> goto page = Normal tt -> zoom page = Normal tt ->
  historyClick page = Normal clicks -> baselineShot page = Normal b0 ->
  (i < numPoints)%nat ->
  (forall j, (j < i)%nat -> exists p, probe page j = Normal p) ->
  probe page i = Throw e ->
  exists st wi files,
    for_loop i 0 (explore page) (mkScan b0 []) (prelude clicks w) = (Normal st, wi)
    /\ w_files wi = (w_files w ++ files)%list
    /\ Forall is_png files
    /\ captureHistoricalImagery page w
       = (match close page with
          | Throw closeError => Throw closeError
          | Normal _ =>
              match errorShot page with
              | Throw shotError => Throw shotError
              | Normal _ => Normal tt
              end
          end,
          mkWorld (w_log wi ++ [Line (exploring_line i); Line ("Error: " ++ e)]
                   ++ match close page with
                      | Normal _ => [Line "Browser closed"]
                      | Throw _ => []
                      end)
                  (w_files wi))
    /\ (errorShot page = Normal tt -> close page = Normal tt ->
        captureHistoricalImagery page w
        = (Normal tt,
           mkWorld (w_log wi ++ [Line (exploring_line i); Line ("Error: " ++ e);
                                 Line "Browser closed"])
                   (w_files wi))).
Proof.
  intros Hl Hg Hz Hh Hb Hi Hok Hp.
  destruct (scan_throw page b0 i e (prelude clicks w) Hi Hok Hp)
    as [st [wi [E [Hinv Hscan]]]].
  destruct Hinv as [_ [_ [_ [_ [files [Hf Hpng]]]]]].
  exists st, wi, files. split; [exact E|]. split; [exact Hf|]. split; [exact Hpng|].
  assert (Hrun : captureHistoricalImagery page w
                 = (match close page with
                    | Throw closeError => Throw closeError
                    | Normal _ =>
                        match errorShot page with
                        | Throw shotError => Throw shotError
                        | Normal _ => Normal tt
                        end
                    end,
                    mkWorld (w_log wi ++ [Line (exploring_line i); Line ("Error: " ++ e)]
                             ++ match close page with
                                | Normal _ => [Line "Browser closed"]
                                | Throw _ => []
                                end)
                            (w_files wi))).
  { rewrite (capture_reaches_scan page w clicks b0 Hl Hg Hz Hh Hb).
    unfold try_finally, try_catch.
    erewrite bind_throw by (exact Hscan).
    unfold handler, cleanup.
    erewrite bind_normal by (apply log_run).
    unfold await at 1. unfold bind, await, log, log_entry. cbn [w_log w_files].
    destruct (close page) as [[]|closeError], (errorShot page) as [[]|shotError];
      cbn [w_log w_files]; repeat rewrite <- app_assoc; cbn [app];
      try rewrite app_nil_r; reflexivity. }
  split; [exact Hrun|].
  intros He Hc. rewrite Hrun, He, Hc. reflexivity.
Qed.

Lemma probe_failure_aborts_scan_witness :
  exists st wi files,
    for_loop 1 0 (explore failing_page) (mkScan (frame_of_size 100) [])
             (prelude (frame_of_size 100, frame_of_size 120) empty_world)
    = (Normal st, wi)
    /\ w_files wi = (w_files (@empty_world Doc) ++ files)%list
    /\ Forall is_png files
    /\ captureHistoricalImagery failing_page empty_world
       = (match close failing_page with
          | Throw closeError => Throw closeError
          | Normal _ =>
              match errorShot failing_page with
              | Throw shotError => Throw shotError
              | Normal _ => Normal tt
              end
          end,
          mkWorld (w_log wi ++ [Line (exploring_line 1);
                                Line ("Error: " ++ "Navigation timeout of 30000 ms exceeded")]
                   ++ match close failing_page with
                      | Normal _ => [Line "Browser closed"]
                      | Throw _ => []
                      end)
                  (w_files wi))
    /\ (errorShot failing_page = Normal tt -> close failing_page = Normal tt ->
        captureHistoricalImagery failing_page empty_world
        = (Normal tt,
           mkWorld (w_log wi ++ [Line (exploring_line 1);
                                 Line ("Error: " ++ "Navigation timeout of 30000 ms exceeded");
                                 Line "Browser closed"])
                   (w_files wi))).
Proof.
  apply (probe_failure_aborts_scan failing_page empty_world
           (frame_of_size 100, frame_of_size 120) (frame_of_size 100) 1
           "Navigation timeout of 30000 ms exceeded");
    try reflexivity.
  - unfold numPoints. lia.
  - intros j Hj. assert (j = 0)%nat by lia. subst j. eexists. reflexivity.
Defined.

(** In the run [dead_page] the error screenshot of the handler rejects as
    well: the browser is closed and the call rejects with that error. *)
Lemma probe_failure_on_dead_page :
  fst (captureHistoricalImagery dead_page empty_world) = Throw "Target closed"
  /\ last (w_log (snd (captureHistoricalImagery dead_page empty_world))) (Line "")
     = Line "Browser closed".
Proof. split; vm_compute; reflexivity. Qed.

Lemma scan_completes (page : Page) (b0 : Buffer) (w : World Doc) :
  (forall i, (i < numPoints)%nat -> exists p, probe page i = Normal p) ->
  exists st w',
    scan page b0 w = (Normal st, w') /\ scan_inv page b0 w numPoints st w'.
Proof. intro Hok. exact (scan_prefix page b0 numPoints w Hok). Qed.

Lemma mapi_map {A B C} (f : A -> nat -> B) (g : B -> C) (h : A -> C) (l : list A) (k : nat) :
  (forall a n, g (f a n) = h a) -> map g (mapi f l k) = map h l.
Proof.
  intro H. revert k. induction l as [|a l IH]; intro k; cbn.
  - reflexivity.
  - now rewrite H, IH.
Qed.

Lemma mapi_index {A B} (f : A -> nat -> B) (g : B -> nat) (l : list A) (k : nat) :
  (forall a n, g (f a n) = n) -> map g (mapi f l k) = seq k (List.length l).
Proof.
  intro H. revert k. induction l as [|a l IH]; intro k; cbn.
  - reflexivity.
  - now rewrite H, IH.
Qed.

Lemma last_map {A B} (f : A -> B) (l : list A) (d : A) :
  last (map f l) (f d) = f (last l d).
Proof.
  induction l as [|a l IH]; [reflexivity|].
  cbn [map]. destruct l as [|b l]; [reflexivity|].
  change (last (f a :: map f (b :: l)) (f d)) with (last (map f (b :: l)) (f d)).
  rewrite IH. reflexivity.
Qed.

Lemma last_cons_default {A} (a d : A) (l : list A) :
  last (a :: l) d = last l a.
Proof.
  revert a d. induction l as [|b l IH]; intros a d; [reflexivity|].
  change (last (a :: b :: l) d) with (last (b :: l) d).
  rewrite (IH b d). symmetry. apply IH.
Qed.

Lemma yearRange_labels (images : list CapturedImage) (lab : nat -> string)
      (first : nat) (rest : list nat) :
  map formattedDate images = map lab (first :: rest) ->
  yearRange images = lab first ++ " to " ++ lab (last rest first).
Proof.
  intro H. destruct images as [|img images]; [discriminate|].
  cbn [yearRange]. cbn [map] in H. injection H as H1 H2.
  rewrite H1. do 2 f_equal.
  rewrite last_cons_default.
  assert (E : last (map formattedDate images) (formattedDate img)
              = last (map lab rest) (lab first)) by (now rewrite H1, H2).
  rewrite !last_map in E. exact E.
Qed.

(** C8.  In a session that completes, the actualYearRange of the metadata
    is the canonical label of the first unique sample, " to ", and the
    canonical label of the last unique sample, first and last in scan
    order; the report lists the unique samples in that order.  In the run
    [example_page], whose unique samples have the estimated years 2015,
    2016, 2019 and 2023 and no OCR date, the range is
    "est_2015 to est_2023" and the report has those four cards in scan
    order. *)
Theorem session_date_range :
  (forall (page : Page) (w : World Doc) (clicks : Buffer * Buffer) (b0 : Buffer),
      launch page = Normal tt -> goto page = Normal tt -> zoom page = Normal tt ->
      historyClick page = Normal clicks -> baselineShot page = Normal b0 ->
      (forall i, (i < numPoints)%nat -> exists p, probe page i = Normal p) ->
      close page = Normal tt ->
      let uniq := Rolling.unique_indices ChangeSpec.isSignificantChange
                    (frames page numPoints) 0 b0 in
      exists images w' pngs,
        captureHistoricalImagery page w = (Normal tt, w')
        /\ w_files w'
           = (w_files w ++ pngs
              ++ [("metadata.json", MetadataJson (buildMetadata page images));
                  ("enhanced_report.html", ReportHtml (buildReport images))])%list
        /\ Forall is_png pngs
        /\ map position images = map S uniq
        /\ map formattedDate images = map (label page) uniq
        /\ map card_date (report_cards (buildReport images)) = map (label page) uniq
        /\ map card_index (report_cards (buildReport images)) = seq 0 (List.length uniq)
        /\ (forall first rest, uniq = first :: rest ->
              actualYearRange (buildMetadata page images)
              = label page first ++ " to " ++ label page (last rest first)))
  /\ (let w' := snd (captureHistoricalImagery example_page empty_world) in
      fst (captureHistoricalImagery example_page empty_world) = Normal tt
      /\ option_map actualYearRange (metadata_of (w_files w'))
         = Some "est_2015 to est_2023"
      /\ option_map (fun r => map card_estimatedYear (report_cards r))
                    (report_of (w_files w'))
         = Some [2015; 2016; 2019; 2023]%Z
      /\ option_map (fun r => map card_date (report_cards r)) (report_of (w_files w'))
         = Some ["est_2015"; "est_2016"; "est_2019"; "est_2023"]
      /\ option_map (fun r => map card_position (report_cards r)) (report_of (w_files w'))
         = Some [1; 4; 13; 27]%nat).
Proof.
  split.
  - intros page w clicks b0 Hl Hg Hz Hh Hb Hok Hc uniq.
    destruct (scan_completes page b0 (prelude clicks w) Hok) as [st [w2 [E Hinv]]].
    destruct Hinv as [_ [Hpos [Hlab [_ [pngs [Hf Hpng]]]]]].
    fold uniq in Hpos, Hlab.
    eexists (captured st), _, pngs.
    split; [|split; [|split; [exact Hpng | split; [exact Hpos | split; [exact Hlab|]]]]].
    + rewrite (capture_reaches_scan page w clicks b0 Hl Hg Hz Hh Hb).
      unfold try_finally, try_catch.
      erewrite bind_normal by (exact E).
      unfold report_stage, cleanup, write_file.
      unfold bind at 1. unfold bind at 1. unfold bind at 1.
      rewrite !log_run.
      erewrite bind_normal by (unfold await; rewrite Hc; reflexivity).
      rewrite log_run. reflexivity.
    + cbn [w_files]. rewrite Hf. cbn [w_files prelude].
      rewrite <- !app_assoc. reflexivity.
    + split; [|split].
      * unfold buildReport. cbn [report_cards].
        rewrite (mapi_map _ card_date formattedDate) by reflexivity. exact Hlab.
      * unfold buildReport. cbn [report_cards].
        rewrite mapi_index by reflexivity.
        f_equal. rewrite <- (length_map formattedDate), Hlab. apply length_map.
      * intros first rest Hu. unfold buildMetadata. cbn [actualYearRange].
        apply yearRange_labels. now rewrite <- Hu.
  - vm_compute. repeat split.
Qed.

Lemma session_date_range_witness :
  let uniq := Rolling.unique_indices ChangeSpec.isSignificantChange
                (frames example_page numPoints) 0 (frame_of_size 100) in
  exists images w' pngs,
    captureHistoricalImagery example_page empty_world = (Normal tt, w')
    /\ w_files w'
       = (w_files (@empty_world Doc) ++ pngs
          ++ [("metadata.json", MetadataJson (buildMetadata example_page images));
              ("enhanced_report.html", ReportHtml (buildReport images))])%list
    /\ Forall is_png pngs
    /\ map position images = map S uniq
    /\ map formattedDate images = map (label example_page) uniq
    /\ map card_date (report_cards (buildReport images)) = map (label example_page) uniq
    /\ map card_index (report_cards (buildReport images)) = seq 0 (List.length uniq)
    /\ (forall first rest, uniq = first :: rest ->
          actualYearRange (buildMetadata example_page images)
          = label example_page first ++ " to " ++ label example_page (last rest first)).
Proof.
  apply (proj1 session_date_range example_page empty_world
           (frame_of_size 100, frame_of_size 120) (frame_of_size 100));
    try reflexivity.
  intros i Hi. eexists. reflexivity.
Defined.

Lemma simplified_compare_run {D} (before after : Buffer) (w : World D) :
  exists pd,
    Simplified.compareScreenshots before after w
    = (Normal (Simplified.mkComparison pd (ChangeSpec.isSignificantChange before after)),
       ChangeSpec.logged pd w).
Proof. eexists. reflexivity. Qed.

Lemma simplified_explore_step (page : Simplified.Page) (i : nat)
      (st : Simplified.ScanState) (w : World Simplified.Doc) (b : Buffer) :
  Simplified.probe page i = Normal b ->
  exists img w',
    Simplified.explore page i st w
    = (Normal (if ChangeSpec.isSignificantChange (Simplified.baselineData st) b
               then Simplified.mkScan b (Simplified.captured st ++ [img])
               else st), w')
    /\ Simplified.position img = (i + 1)%nat.
Proof.
  intro Hp. unfold Simplified.explore.
  erewrite bind_normal by (apply log_run).
  erewrite bind_normal by (unfold await; rewrite Hp; reflexivity).
  match goal with |- context [Simplified.compareScreenshots ?a ?c] =>
    match goal with |- context [bind (Simplified.compareScreenshots a c) _ ?w0] =>
      destruct (simplified_compare_run a c w0) as [pd E] end end.
  erewrite bind_normal by (exact E).
  cbn [Simplified.hasSignificantChange].
  eexists (Simplified.mkImage _ _ _ _).
  destruct (ChangeSpec.isSignificantChange (Simplified.baselineData st) b).
  - eexists. split; [reflexivity|]. reflexivity.
  - eexists. split; reflexivity.
Qed.

Lemma simplified_scan_prefix (page : Simplified.Page) (b0 : Buffer) (n : nat)
      (w : World Simplified.Doc) :
  (forall i, (i < n)%nat -> exists b, Simplified.probe page i = Normal b) ->
  exists st w',
    for_loop n 0 (Simplified.explore page) (Simplified.mkScan b0 []) w = (Normal st, w')
    /\ Simplified.baselineData st
       = Rolling.baseline_after ChangeSpec.isSignificantChange
           (SimplifiedSpec.frames page n) b0
    /\ map Simplified.position (Simplified.captured st)
       = map S (Rolling.unique_indices ChangeSpec.isSignificantChange
                  (SimplifiedSpec.frames page n) 0 b0).
Proof.
  intro Hok.
  apply (for_loop_inv
           (fun j st (_ : World Simplified.Doc) =>
              Simplified.baselineData st
              = Rolling.baseline_after ChangeSpec.isSignificantChange
                  (SimplifiedSpec.frames page j) b0
              /\ map Simplified.position (Simplified.captured st)
                 = map S (Rolling.unique_indices ChangeSpec.isSignificantChange
                            (SimplifiedSpec.frames page j) 0 b0))).
  - split; reflexivity.
  - intros j st w1 Hj [Hb Hpos].
    destruct (Hok j) as [b Hp]; [lia|].
    destruct (simplified_explore_step page j st w1 b Hp) as [img [w2 [E Pi]]].
    eexists. exists w2. split; [exact E|].
    unfold SimplifiedSpec.frames. rewrite seq_S, map_app. cbn [map Nat.add].
    fold (SimplifiedSpec.frames page j).
    rewrite baseline_after_snoc, unique_indices_snoc.
    assert (Hlen : List.length (SimplifiedSpec.frames page j) = j)
      by (unfold SimplifiedSpec.frames; now rewrite length_map, length_seq).
    rewrite Hlen, <- Hb.
    assert (Hfr : SimplifiedSpec.frame page j = b)
      by (unfold SimplifiedSpec.frame; now rewrite Hp).
    rewrite Hfr.
    destruct (ChangeSpec.isSignificantChange (Simplified.baselineData st) b).
    + cbn [Simplified.baselineData Simplified.captured Nat.add].
      rewrite !map_app. cbn [map]. rewrite Hpos, Pi.
      replace (j + 1)%nat with (S j) by lia. split; reflexivity.
    + rewrite !app_nil_r. split; [reflexivity | assumption].
Qed.

Lemma simplified_capture_reaches_scan (page : Simplified.Page)
      (w : World Simplified.Doc) (clicks : Buffer * Buffer) (b0 : Buffer) :
  Simplified.launch page = Normal tt -> Simplified.goto page = Normal tt ->
  Simplified.zoom page = Normal tt ->
  Simplified.historyClick page = Normal clicks ->
  Simplified.baselineShot page = Normal b0 ->
  Simplified.captureHistoricalImagery page w
  = try_finally
      (try_catch
         (final <- Simplified.scan page b0 ;; SimplifiedSpec.report_stage final)
         (SimplifiedSpec.handler page))
      (SimplifiedSpec.cleanup page)
      (SimplifiedSpec.prelude clicks w).
Proof.
  intros Hl Hg Hz Hh Hb.
  unfold Simplified.captureHistoricalImagery.
  do 2 run_step.
  unfold try_finally, try_catch.
  match goal with
  | |- (let (_, _) := (let (_, _) := ?b1 ?w1 in _) in _)
       = (let (_, _) := (let (_, _) := ?b2 ?w2 in _) in _) =>
      assert (E : b1 w1 = b2 w2)
  end.
  { repeat run_step.
    erewrite bind_normal
      by (exact (eq_refl : Simplified.compareScreenshots (fst clicks) (snd clicks) _
                           = (Normal (Simplified.mkComparison
                                        (SimplifiedSpec.percentDiff_of (fst clicks) (snd clicks))
                                        (ChangeSpec.isSignificantChange (fst clicks) (snd clicks))),
                              ChangeSpec.logged
                                (SimplifiedSpec.percentDiff_of (fst clicks) (snd clicks)) _))).
    cbn [Simplified.hasSignificantChange]. unfold SimplifiedSpec.prelude.
    destruct (ChangeSpec.isSignificantChange (fst clicks) (snd clicks));
      repeat run_step; unfold SimplifiedSpec.prelude, ChangeSpec.logged;
      cbn [w_log w_files]; repeat rewrite <- app_assoc; reflexivity. }
  rewrite E. reflexivity.
Qed.

Lemma last_unique_frame (sig : Buffer -> Buffer -> bool) (fs : list Buffer) (b0 : Buffer)
      (positions : list nat) :
  positions = map S (Rolling.unique_indices sig fs 0 b0) ->
  Rolling.baseline_after sig fs b0
  = match rev positions with
    | [] => b0
    | pos :: _ => nth (pos - 1) fs []
    end.
Proof.
  intro H. rewrite baseline_after_last. subst positions.
  rewrite <- map_rev.
  destruct (rev (Rolling.unique_indices sig fs 0 b0)) as [|j l]; [reflexivity|].
  cbn [map]. now rewrite Nat.sub_succ, Nat.sub_0_r.
Qed.

(** C3.  In the Enhanced and in the Simplified scan alike, after any
    number n of passes the rolling baseline is what the specification
    says: it starts as the screenshot the scan is given (n = 0), each pass
    replaces it by the new frame exactly when the change detector flags
    that frame against it ([Rolling.baseline_after]), the frames flagged
    are the captured ones, and the baseline is the frame of the most
    recently captured image, or the initial screenshot when none has been
    captured.  In both sessions the screenshot the scan is given is the
    full-page one taken, once the history icon has been clicked, before
    the first pass of the loop. *)
Theorem rolling_baseline :
  (forall (page : Enhanced.Page) (b0 : Buffer) (n : nat) (w : World Enhanced.Doc),
      (forall i, (i < n)%nat -> exists p, Enhanced.probe page i = Normal p) ->
      exists st w',
        for_loop n 0 (Enhanced.explore page) (Enhanced.mkScan b0 []) w = (Normal st, w')
        /\ Enhanced.baselineData st
           = Rolling.baseline_after ChangeSpec.isSignificantChange
               (EnhancedSpec.frames page n) b0
        /\ map Enhanced.position (Enhanced.captured st)
           = map S (Rolling.unique_indices ChangeSpec.isSignificantChange
                      (EnhancedSpec.frames page n) 0 b0)
        /\ Enhanced.baselineData st
           = match rev (map Enhanced.position (Enhanced.captured st)) with
             | [] => b0
             | pos :: _ => nth (pos - 1) (EnhancedSpec.frames page n) []
             end)
  /\ (forall (page : Simplified.Page) (b0 : Buffer) (n : nat) (w : World Simplified.Doc),
      (forall i, (i < n)%nat -> exists b, Simplified.probe page i = Normal b) ->
      exists st w',
        for_loop n 0 (Simplified.explore page) (Simplified.mkScan b0 []) w = (Normal st, w')
        /\ Simplified.baselineData st
           = Rolling.baseline_after ChangeSpec.isSignificantChange
               (SimplifiedSpec.frames page n) b0
        /\ map Simplified.position (Simplified.captured st)
           = map S (Rolling.unique_indices ChangeSpec.isSignificantChange
                      (SimplifiedSpec.frames page n) 0 b0)
        /\ Simplified.baselineData st
           = match rev (map Simplified.position (Simplified.captured st)) with
             | [] => b0
             | pos :: _ => nth (pos - 1) (SimplifiedSpec.frames page n) []
             end)
  /\ (forall (page : Enhanced.Page) (w : World Enhanced.Doc)
             (clicks : Buffer * Buffer) (b0 : Buffer),
      Enhanced.launch page = Normal tt -> Enhanced.goto page = Normal tt ->
      Enhanced.zoom page = Normal tt ->
      Enhanced.historyClick page = Normal clicks ->
      Enhanced.baselineShot page = Normal b0 ->
      Enhanced.captureHistoricalImagery page w
      = try_finally
          (try_catch
             (final <- for_loop Enhanced.numPoints 0 (Enhanced.explore page)
                         (Enhanced.mkScan b0 []) ;;
              EnhancedSpec.report_stage page final)
             (EnhancedSpec.handler page))
          (EnhancedSpec.cleanup page)
          (EnhancedSpec.prelude clicks w))
  /\ (forall (page : Simplified.Page) (w : World Simplified.Doc)
             (clicks : Buffer * Buffer) (b0 : Buffer),
      Simplified.launch page = Normal tt -> Simplified.goto page = Normal tt ->
      Simplified.zoom page = Normal tt ->
      Simplified.historyClick page = Normal clicks ->
      Simplified.baselineShot page = Normal b0 ->
      Simplified.captureHistoricalImagery page w
      = try_finally
          (try_catch
             (final <- for_loop Simplified.numPoints 0 (Simplified.explore page)
                         (Simplified.mkScan b0 []) ;;
              SimplifiedSpec.report_stage final)
             (SimplifiedSpec.handler page))
          (SimplifiedSpec.cleanup page)
          (SimplifiedSpec.prelude clicks w)).
Proof.
  split; [|split; [|split]].
  - intros page b0 n w Hok.
    destruct (scan_prefix page b0 n w Hok) as [st [w' [E [Hb [Hpos _]]]]].
    exists st, w'. repeat split; try assumption.
    rewrite Hb. now apply last_unique_frame.
  - intros page b0 n w Hok.
    destruct (simplified_scan_prefix page b0 n w Hok) as [st [w' [E [Hb Hpos]]]].
    exists st, w'. repeat split; try assumption.
    rewrite Hb. now apply last_unique_frame.
  - exact capture_reaches_scan.
  - exact simplified_capture_reaches_scan.
Qed.

Lemma rolling_baseline_witness :
  exists st w',
    for_loop 30 0 (explore example_page) (mkScan (frame_of_size 100) []) empty_world
    = (Normal st, w')
    /\ baselineData st
       = Rolling.baseline_after ChangeSpec.isSignificantChange
           (frames example_page 30) (frame_of_size 100)
    /\ map position (captured st)
       = map S (Rolling.unique_indices ChangeSpec.isSignificantChange
                  (frames example_page 30) 0 (frame_of_size 100))
    /\ baselineData st
       = match rev (map position (captured st)) with
         | [] => frame_of_size 100
         | pos :: _ => nth (pos - 1) (frames example_page 30) []
         end.
Proof.
  apply (proj1 rolling_baseline example_page (frame_of_size 100) 30%nat empty_world).
  intros i Hi. eexists. reflexivity.
Defined.

Lemma activate_fails {D} (page : Refined.Page) (fuel retryCount : nat) (w : World D) :
  (forall n, (retryCount <= n < retryCount + fuel)%nat ->
             Refined.click page n = Normal tt /\ Refined.attempt page n = Normal false) ->
  Refined.activate page fuel retryCount w
  = (Normal false,
     mkWorld (w_log w ++ flat_map failed_attempt_lines (seq retryCount fuel)) (w_files w)).
Proof.
  revert retryCount w. induction fuel as [|fuel IH]; intros retryCount w H.
  - cbn. rewrite app_nil_r. now rewrite world_eta.
  - destruct (H retryCount) as [Hc Ha]; [lia|].
    cbn [Refined.activate].
    erewrite bind_normal by (apply log_run).
    erewrite bind_normal by (unfold await; rewrite Hc; reflexivity).
    erewrite bind_normal by (apply log_run).
    erewrite bind_normal by (unfold await; rewrite Ha; reflexivity).
    cbv beta iota.
    erewrite bind_normal by (apply log_run).
    replace (retryCount + 1)%nat with (S retryCount) by lia.
    rewrite IH by (intros n Hn; apply H; lia).
    cbn [w_log w_files seq flat_map].
    unfold failed_attempt_lines at 2.
    replace (retryCount + 1)%nat with (S retryCount) by lia.
    repeat rewrite <- app_assoc. reflexivity.
Qed.

(** C9, as stated, fails: in the run [never_activates] the three
    attempts all fail, yet the call does not complete with an error: the
    session's own handler has caught it. *)
Lemma activation_never_reaches_caller :
  ~ (exists message,
        fst (Refined.captureHistoricalImagery never_activates empty_world)
        = Throw message).
Proof. vm_compute. intros [message H]. discriminate. Qed.

(** C9 (amended).  When the toggle does not engage in any of the
    MAX_RETRIES = 3 attempts, the session aborts before any timeline
    scanning: the error "Failed to activate historical imagery mode after
    multiple attempts" is thrown and caught by the session's own handler,
    which logs it as "ERROR: <message>" and tries an error screenshot;
    the log holds the three attempts and no timeline position, and no
    file is written.  The browser is then closed.  When [browser.close]
    resolves the call completes normally: the handler of the script's
    last statement is not entered and the process ends with exit code 0.
    When [browser.close] rejects, the call rejects with that error,
    "Browser closed" is not logged and the exit code is 1. *)
Theorem activation_failure_aborts_session (page : Refined.Page) (w : World Refined.Doc) :
  Refined.launch page = Normal tt -> Refined.goto page = Normal tt ->
  Refined.zoom page = Normal tt ->
  (forall n, (n < Refined.MAX_RETRIES)%nat ->
             Refined.click page n = Normal tt /\ Refined.attempt page n = Normal false) ->
  Refined.captureHistoricalImagery page w
  = (match Refined.close page with
     | Normal _ => Normal tt
     | Throw closeError => Throw closeError
     end,
     mkWorld (w_log w ++ activation_failure_log ++ error_shot_lines page
              ++ match Refined.close page with
                 | Normal _ => [Line "Browser closed"]
                 | Throw _ => []
                 end)
             (w_files w))
  /\ fst (Refined.main page w)
     = Normal (match Refined.close page with Normal _ => 0 | Throw _ => 1 end)%Z
  /\ (Refined.close page = Normal tt ->
      Refined.captureHistoricalImagery page w
      = (Normal tt,
         mkWorld (w_log w ++ activation_failure_log ++ error_shot_lines page
                  ++ [Line "Browser closed"])
                 (w_files w))
      /\ fst (Refined.main page w) = Normal 0%Z).
Proof.
  intros Hl Hg Hz Hatt.
  match goal with |- ?A /\ _ => assert (Hrun : A) end.
  { unfold Refined.captureHistoricalImagery.
    erewrite bind_normal by (apply log_run).
    erewrite bind_normal by (unfold await; rewrite Hl; reflexivity).
    unfold try_finally, try_catch.
    do 2 erewrite bind_normal by (apply log_run).
    erewrite bind_normal by (unfold await; rewrite Hg; reflexivity).
    do 2 erewrite bind_normal by (apply log_run).
    erewrite bind_normal by (unfold await; rewrite Hz; reflexivity).
    erewrite bind_normal
      by (apply activate_fails; intros n Hn; apply Hatt; lia).
    cbn [negb].
    erewrite bind_throw by reflexivity.
    erewrite bind_normal by (apply log_run).
    unfold error_shot_lines, await at 1.
    unfold bind, await, log, log_entry. cbn [w_log w_files].
    unfold activation_failure_log, Refined.MAX_RETRIES. cbn [seq flat_map].
    destruct (Refined.errorShot page) as [[]|screenshotError],
             (Refined.close page) as [[]|closeError];
      cbn [w_log w_files]; repeat rewrite <- app_assoc; cbn [app];
      try rewrite app_nil_r; reflexivity. }
  assert (Hmain : fst (Refined.main page w)
                  = Normal (match Refined.close page with
                            | Normal _ => 0 | Throw _ => 1 end)%Z).
  { unfold Refined.main, try_catch, bind. rewrite Hrun.
    destruct (Refined.close page) as [[]|closeError]; reflexivity. }
  split; [exact Hrun|]. split; [exact Hmain|].
  intro Hc. rewrite Hrun, Hmain, Hc. split; reflexivity.
Qed.

Lemma activation_failure_aborts_session_witness :
  Refined.captureHistoricalImagery never_activates empty_world
  = (Normal tt,
     mkWorld (w_log (@empty_world Refined.Doc) ++ activation_failure_log
              ++ error_shot_lines never_activates ++ [Line "Browser closed"])
             (w_files (@empty_world Refined.Doc)))
  /\ fst (Refined.main never_activates empty_world) = Normal 0%Z.
Proof.
  apply (activation_failure_aborts_session never_activates empty_world);
    try reflexivity.
  intros n Hn. split; reflexivity.
Defined.

(** ** Dates *)

Lemma forall_ascii_spec (f : ascii -> bool) :
  forall_ascii f = true -> forall c, f c = true.
Proof.
  unfold forall_ascii, all_ascii. intros H c.
  rewrite forallb_forall in H. apply H.
  rewrite <- (ascii_nat_embedding c). apply in_map. apply in_seq.
  pose proof (nat_ascii_bounded c). lia.
Qed.

Lemma class_within_spec (icase : bool) (P : ascii -> bool) (cl : cclass) (c : ascii) :
  class_within icase P cl = true -> cmatch icase cl c = true -> P c = true.
Proof.
  unfold class_within. intros H Hc.
  pose proof (forall_ascii_spec _ H c) as E. cbn in E. now rewrite Hc in E.
Qed.

Lemma length_append (a b : string) :
  String.length (a ++ b) = (String.length a + String.length b)%nat.
Proof. induction a as [|c a IH]; cbn; [reflexivity | now rewrite IH]. Qed.

Lemma substring_prefix (t s' : string) : substring 0 (String.length t) (t ++ s') = t.
Proof.
  induction t as [|c t IH]; cbn.
  - destruct s'; reflexivity.
  - f_equal. apply IH.
Qed.

Lemma consumed_app (t s' : string) : consumed (t ++ s') s' = t.
Proof.
  unfold consumed. rewrite length_append.
  replace (String.length t + String.length s' - String.length s')%nat
    with (String.length t) by lia.
  apply substring_prefix.
Qed.

Lemma append_assoc (a b c : string) : (a ++ b) ++ c = a ++ (b ++ c).
Proof. induction a as [|x a IH]; cbn; [reflexivity | now rewrite IH]. Qed.

Lemma exists_in_app (P : ascii -> bool) (a b : string) :
  exists_in P (a ++ b) = exists_in P a || exists_in P b.
Proof.
  induction a as [|x a IH]; cbn; [reflexivity|]. rewrite IH. now rewrite orb_assoc.
Qed.

Lemma starts_app (Q : ascii -> bool) (a b : string) :
  starts Q a = true -> starts Q (a ++ b) = true.
Proof. destruct a; cbn; [discriminate | trivial]. Qed.

Section Soundness.
Variable icase : bool.
Variable P : ascii -> bool.

Lemma rep_sound {R} (cl : cclass) (s : string) :
  forall (lo : nat) (hi : option nat) (k : string -> option R) (x : R),
    rep icase cl lo hi s k = Some x ->
    exists t s', s = t ++ s' /\ k s' = Some x
                 /\ (forall Q, ((1 <=? lo)%nat && class_within icase Q cl) = true ->
                               starts Q t = true /\ exists_in Q t = true).
Proof.
  induction s as [|c s IH]; intros lo hi k x H.
  - exists "", "". cbn [rep] in H.
    assert (Hstop : match lo with O => k "" | S _ => None end = Some x).
    { destruct hi as [[|h]|]; exact H. }
    destruct lo; [|discriminate].
    split; [reflexivity|]. split; [exact Hstop|].
    intros Q HQ. discriminate.
  - cbn [rep] in H.
    set (stop := match lo with O => k (String c s) | S _ => None end) in *.
    assert (Hstop : stop = Some x ->
              exists t s', String c s = t ++ s' /\ k s' = Some x
                 /\ (forall Q, ((1 <=? lo)%nat && class_within icase Q cl) = true ->
                               starts Q t = true /\ exists_in Q t = true)).
    { unfold stop. intro E. destruct lo; [|discriminate].
      exists "", (String c s). split; [reflexivity|]. split; [exact E|].
      intros Q HQ. discriminate. }
    assert (Hgo : match (if cmatch icase cl c
                         then match rep icase cl (pred lo) (option_map pred hi) s k with
                              | Some r => Some r
                              | None => stop
                              end
                         else stop) with Some r => Some r | None => None end = Some x
                  -> exists t s', String c s = t ++ s' /\ k s' = Some x
                 /\ (forall Q, ((1 <=? lo)%nat && class_within icase Q cl) = true ->
                               starts Q t = true /\ exists_in Q t = true)).
    { destruct (cmatch icase cl c) eqn:Ec.
      - destruct (rep icase cl (pred lo) (option_map pred hi) s k) eqn:Er.
        + intro E. injection E as ->.
          destruct (IH _ _ _ _ Er) as [t [s' [Hs [Hk _]]]].
          exists (String c t), s'. split; [cbn; now rewrite Hs|]. split; [exact Hk|].
          intros Q HQ. apply andb_true_iff in HQ. destruct HQ as [_ HQ].
          pose proof (class_within_spec icase Q cl c HQ Ec) as Hc.
          cbn. rewrite Hc. split; reflexivity.
        + destruct stop; [|discriminate]. intro E. apply Hstop. exact E.
      - destruct stop; [|discriminate]. intro E. apply Hstop. exact E. }
    destruct hi as [[|h]|].
    + apply Hstop. exact H.
    + apply Hgo. destruct (cmatch icase cl c);
        [destruct (rep icase cl (pred lo) (option_map pred (Some (S h))) s k)|];
        try exact H; destruct stop; exact H.
    + apply Hgo. destruct (cmatch icase cl c);
        [destruct (rep icase cl (pred lo) (option_map pred None) s k)|];
        try exact H; destruct stop; exact H.
Qed.

Lemma lit_sound {R} (l : string) :
  forall (s : string) (k : string -> option R) (x : R),
    lit icase l s k = Some x ->
    exists t s', s = t ++ s' /\ k s' = Some x
                 /\ (forall Q, must_contain icase Q (Lit l) = true -> exists_in Q t = true)
                 /\ (forall Q, starts_with icase Q (Lit l) = true -> starts Q t = true).
Proof.
  induction l as [|d l IH]; intros s k x H.
  - exists "", s. cbn in H. repeat split; try assumption; intros Q HQ; discriminate.
  - cbn [lit] in H. destruct s as [|c s]; [discriminate|].
    destruct (cmatch icase (CChar d) c) eqn:Ec; [|discriminate].
    destruct (IH _ _ _ H) as [t [s' [Hs [Hk [Hm _]]]]].
    exists (String c t), s'. split; [cbn; now rewrite Hs|]. split; [exact Hk|]. split.
    + intros Q HQ. cbn in HQ. apply orb_true_iff in HQ. cbn.
      destruct HQ as [HQ|HQ].
      * now rewrite (class_within_spec icase Q (CChar d) c HQ Ec).
      * rewrite (Hm Q HQ). apply orb_true_r.
    + intros Q HQ. cbn in HQ. cbn.
      exact (class_within_spec icase Q (CChar d) c HQ Ec).
Qed.

Variable G : nat -> option (ascii -> bool).

Lemma caps_start_nil : caps_start G [].
Proof. intros n t Q []. Qed.

Lemma rx_sound {R} (r : regex) :
  forall (s : string) (cs : caps) (k : string -> caps -> option R) (x : R),
    groups_start icase G r = true -> caps_start G cs ->
    rx icase r s cs k = Some x ->
    exists t s' cs',
      s = t ++ s' /\ caps_start G cs' /\ k s' cs' = Some x
      /\ (forall Q, must_contain icase Q r = true -> exists_in Q t = true)
      /\ (forall Q, starts_with icase Q r = true -> starts Q t = true).
Proof.
  induction r as [cl|l|r1 IH1 r2 IH2|r1 IH1 r2 IH2|cl lo hi|n r1 IH1];
    intros s cs k x Hg Hcs H.
  - cbn [rx] in H. destruct s as [|c s]; [discriminate|].
    destruct (cmatch icase cl c) eqn:Ec; [|discriminate].
    exists (String c ""), s, cs. repeat split; try assumption.
    + intros Q HQ. cbn in *. now rewrite (class_within_spec icase Q cl c HQ Ec).
    + intros Q HQ. cbn in *. exact (class_within_spec icase Q cl c HQ Ec).
  - cbn [rx] in H. destruct (lit_sound l s _ x H) as [t [s' [Hs [Hk [Hm Hst]]]]].
    exists t, s', cs. repeat split; assumption.
  - cbn [rx] in H. cbn [groups_start] in Hg. apply andb_true_iff in Hg.
    destruct Hg as [Hg1 Hg2].
    destruct (IH1 _ _ _ _ Hg1 Hcs H) as [t1 [s1 [cs1 [Hs1 [Hc1 [Hk1 [Hm1 Hst1]]]]]]].
    destruct (IH2 _ _ _ _ Hg2 Hc1 Hk1) as [t2 [s2 [cs2 [Hs2 [Hc2 [Hk2 [Hm2 _]]]]]]].
    exists (t1 ++ t2), s2, cs2. split; [now rewrite append_assoc, <- Hs2|].
    split; [exact Hc2|]. split; [exact Hk2|]. split.
    + intros Q HQ. cbn in HQ. apply orb_true_iff in HQ. rewrite exists_in_app.
      destruct HQ as [HQ|HQ]; [rewrite (Hm1 Q HQ) | rewrite (Hm2 Q HQ)];
        auto using orb_true_r.
    + intros Q HQ. cbn in HQ. apply starts_app. now apply Hst1.
  - cbn [rx] in H. cbn [groups_start] in Hg. apply andb_true_iff in Hg.
    destruct Hg as [Hg1 Hg2].
    destruct (rx icase r1 s cs k) eqn:E1.
    + injection H as ->.
      destruct (IH1 _ _ _ _ Hg1 Hcs E1) as [t [s' [cs' [Hs [Hc [Hk [Hm Hst]]]]]]].
      exists t, s', cs'. repeat split; try assumption;
        intros Q HQ; cbn in HQ; apply andb_true_iff in HQ; destruct HQ; auto.
    + destruct (IH2 _ _ _ _ Hg2 Hcs H) as [t [s' [cs' [Hs [Hc [Hk [Hm Hst]]]]]]].
      exists t, s', cs'. repeat split; try assumption;
        intros Q HQ; cbn in HQ; apply andb_true_iff in HQ; destruct HQ; auto.
  - cbn [rx] in H. destruct (rep_sound cl s lo hi _ x H) as [t [s' [Hs [Hk HQ]]]].
    exists t, s', cs. repeat split; try assumption;
      intros Q HQ'; cbn in HQ'; now apply HQ.
  - cbn [rx] in H. cbn [groups_start] in Hg. apply andb_true_iff in Hg.
    destruct Hg as [Hg0 Hg1].
    destruct (IH1 _ _ _ _ Hg1 Hcs H) as [t [s' [cs' [Hs [Hc [Hk [Hm Hst]]]]]]].
    exists t, s', ((n, consumed s s') :: cs'). split; [exact Hs|]. split.
    + intros m u Q [E|Hin] HG.
      * injection E as <- <-. rewrite Hs, consumed_app. apply Hst.
        now rewrite HG in Hg0.
      * now apply (Hc m u Q).
    + repeat split; assumption.
Qed.

(** What a successful search returns. *)
Lemma search_sound (r : regex) (s : string) (m : string * caps) :
  groups_start icase G r = true ->
  search icase r s = Some m ->
  caps_start G (snd m)
  /\ (forall Q, must_contain icase Q r = true -> exists_in Q s = true)
  /\ (forall Q, starts_with icase Q r = true -> starts Q (fst m) = true).
Proof.
  intros Hg. induction s as [|c s IH]; intro H.
  - cbn [search] in H. destruct (match_here icase r "") as [m'|] eqn:E; [|discriminate].
    injection H as ->. unfold match_here in E.
    destruct (rx_sound r _ _ _ _ Hg caps_start_nil E)
      as [t [s' [cs' [Hs [Hc [Hk [Hm Hst]]]]]]].
    injection Hk as <-. cbn [fst snd]. rewrite Hs, consumed_app.
    split; [exact Hc|]. split; [|exact Hst].
    intros Q HQ. rewrite exists_in_app, (Hm Q HQ). reflexivity.
  - cbn [search] in H.
    destruct (match_here icase r (String c s)) as [m'|] eqn:E.
    + injection H as ->. unfold match_here in E.
      destruct (rx_sound r _ _ _ _ Hg caps_start_nil E)
        as [t [s' [cs' [Hs [Hc [Hk [Hm Hst]]]]]]].
      injection Hk as <-. cbn [fst snd]. rewrite Hs, consumed_app.
      split; [exact Hc|]. split; [|exact Hst].
      intros Q HQ. rewrite exists_in_app, (Hm Q HQ). reflexivity.
    + destruct (IH H) as [Hc [Hm Hst]]. split; [exact Hc|]. split; [|exact Hst].
      intros Q HQ. cbn. rewrite (Hm Q HQ). apply orb_true_r.
Qed.
End Soundness.

Lemma groups_start_none (icase : bool) (r : regex) :
  groups_start icase (fun _ => None) r = true.
Proof.
  induction r as [| | ? IH1 ? IH2 | ? IH1 ? IH2 | |n r1 IH1]; cbn; try reflexivity;
    try (now rewrite IH1, IH2). exact IH1.
Qed.

(** A text without any character that every match needs has no match. *)
Lemma search_none (icase : bool) (P : ascii -> bool) (r : regex) (s : string) :
  must_contain icase P r = true -> exists_in P s = false -> search icase r s = None.
Proof.
  intros Hm Hs. destruct (search icase r s) as [m|] eqn:E; [|reflexivity].
  destruct (search_sound icase (fun _ => None) r s m (groups_start_none icase r) E)
    as [_ [H _]].
  rewrite (H P Hm) in Hs. discriminate.
Qed.

(** ** Evaluating a match on a text with unknown digits *)

Lemma ten_digits_spec (c : ascii) : is_digit c = true -> In c ten_digits.
Proof.
  destruct c as [[] [] [] [] [] [] [] []]; vm_compute; intro H;
    try discriminate H; tauto.
Qed.

Lemma append_nil_r (s : string) : s ++ "" = s.
Proof. induction s as [|c s IH]; cbn; [reflexivity | now rewrite IH]. Qed.

Lemma consumed_nil (s : string) : consumed s "" = s.
Proof.
  unfold consumed. cbn [String.length]. rewrite Nat.sub_0_r.
  induction s as [|c s IH]; cbn; [reflexivity | now rewrite IH].
Qed.

(** A greedy repetition takes a whole run when it may not take more and
    the continuation accepts what follows. *)
Lemma rep_take {R} (icase : bool) (cl : cclass) (t : string) :
  forall (lo : nat) (hi : option nat) (s' : string) (k : string -> option R) (x : R),
    forall_in (cmatch icase cl) t = true ->
    (lo <= String.length t)%nat ->
    match hi with Some h => (String.length t <= h)%nat | None => True end ->
    hi = Some (String.length t) \/ starts (cmatch icase cl) s' = false ->
    k s' = Some x ->
    rep icase cl lo hi (t ++ s') k = Some x.
Proof.
  induction t as [|c t IH]; intros lo hi s' k x Ht Hlo Hhi Hstop Hk.
  - cbn in Hlo. assert (lo = 0)%nat by lia. subst lo. cbn [append].
    destruct s' as [|c s'].
    + destruct hi as [[|h]|]; cbn; exact Hk.
    + destruct hi as [[|h]|]; cbn [rep]; try exact Hk.
      * destruct Hstop as [E|E]; [discriminate|]. cbn in E. rewrite E. exact Hk.
      * destruct Hstop as [E|E]; [discriminate|]. cbn in E. rewrite E. exact Hk.
  - cbn in Ht. apply andb_true_iff in Ht. destruct Ht as [Hc Ht].
    cbn [append String.length] in *.
    destruct hi as [[|h]|]; [lia| |].
    + cbn [rep]. rewrite Hc.
      rewrite (IH (pred lo) (option_map pred (Some (S h))) s' k x); try assumption.
      * reflexivity.
      * lia.
      * cbn. lia.
      * destruct Hstop as [E|E]; [left; cbn; injection E as ->; reflexivity | now right].
    + cbn [rep]. rewrite Hc.
      rewrite (IH (pred lo) (option_map pred None) s' k x); try assumption.
      * reflexivity.
      * lia.
      * destruct Hstop as [E|E]; [discriminate | now right].
Qed.

(** The same at the end of the text. *)
Lemma rep_take_all {R} (icase : bool) (cl : cclass) (t : string)
      (lo : nat) (hi : option nat) (k : string -> option R) (x : R) :
  forall_in (cmatch icase cl) t = true ->
  (lo <= String.length t)%nat ->
  match hi with Some h => (String.length t <= h)%nat | None => True end ->
  k "" = Some x ->
  rep icase cl lo hi t k = Some x.
Proof.
  intros Ht Hlo Hhi Hk.
  replace (rep icase cl lo hi t k) with (rep icase cl lo hi (t ++ "") k)
    by (now rewrite append_nil_r).
  apply rep_take; try assumption. now right.
Qed.

Lemma search_here (icase : bool) (r : regex) (s : string) (m : string * caps) :
  match_here icase r s = Some m -> search icase r s = Some m.
Proof. intro H. destruct s; cbn [search]; now rewrite H. Qed.

Lemma all_digits_class (icase : bool) (t : string) :
  all_digits t = true -> forall_in (cmatch icase CDigit) t = true.
Proof.
  induction t as [|c t IH]; cbn; [trivial|]. intro H.
  apply andb_true_iff in H. destruct H as [-> H]. now apply IH.
Qed.

(** A digit run does not start with a character of a class without digits. *)
Lemma starts_digits (icase : bool) (cl : cclass) (d rest : string) :
  all_digits d = true -> (1 <= String.length d)%nat ->
  forallb (fun c => negb (cmatch icase cl c)) ten_digits = true ->
  starts (cmatch icase cl) (d ++ rest) = false.
Proof.
  intros Hd Ld Hcl. destruct d as [|c d]; [cbn in Ld; lia|].
  cbn in Hd. apply andb_true_iff in Hd. destruct Hd as [Hc _].
  cbn. rewrite forallb_forall in Hcl. apply negb_true_iff, Hcl.
  now apply ten_digits_spec.
Qed.

Lemma exists_in_digits (P : ascii -> bool) (t : string) :
  all_digits t = true ->
  forallb (fun d => negb (P d)) ten_digits = true ->
  exists_in P t = false.
Proof.
  intros Ht HP. rewrite forallb_forall in HP.
  induction t as [|c t IH]; [reflexivity|].
  cbn in Ht. apply andb_true_iff in Ht. destruct Ht as [Hc Ht].
  cbn. rewrite (IH Ht), orb_false_r.
  apply negb_true_iff. apply HP. now apply ten_digits_spec.
Qed.

(** The leftmost match of [regexSlash] on a text that is a date. *)
Lemma regexSlash_date (m d y : string) :
  all_digits m = true -> (1 <= String.length m <= 2)%nat ->
  all_digits d = true -> (1 <= String.length d <= 2)%nat ->
  all_digits y = true -> String.length y = 4%nat ->
  search false regexSlash (m ++ "/" ++ d ++ "/" ++ y)
  = Some (m ++ "/" ++ d ++ "/" ++ y, [(3, y); (2, d); (1, m)]).
Proof.
  intros Hm Lm Hd Ld Hy Ly.
  apply search_here. unfold match_here, regexSlash. cbn [rx].
  apply rep_take;
    [now apply all_digits_class | lia | lia | right; reflexivity | cbv beta].
  cbn [append].
  apply rep_take;
    [now apply all_digits_class | lia | lia | right; reflexivity | cbv beta].
  cbn [append].
  apply rep_take_all; [now apply all_digits_class | lia | lia | cbv beta].
  rewrite consumed_nil.
  change (String "/" (d ++ String "/" y)) with ("/" ++ d ++ "/" ++ y).
  change (String "/" y) with ("/" ++ y).
  rewrite !consumed_app. rewrite consumed_nil. reflexivity.
Qed.

Lemma format_slash (m d y : string) :
  all_digits m = true -> (1 <= String.length m <= 2)%nat ->
  all_digits d = true -> (1 <= String.length d <= 2)%nat ->
  all_digits y = true -> String.length y = 4%nat ->
  formatDateForFilename (Some (m ++ "/" ++ d ++ "/" ++ y))
  = y ++ "-" ++ padStart 2 "0" m ++ "-" ++ padStart 2 "0" d.
Proof.
  intros Hm Lm Hd Ld Hy Ly. unfold formatDateForFilename.
  rewrite (regexSlash_date m d y Hm Lm Hd Ld Hy Ly).
  destruct m as [|m1 m]; [cbn in Lm; lia|]. reflexivity.
Qed.

Lemma map_string_length (f : ascii -> ascii) (s : string) :
  String.length (map_string f s) = String.length s.
Proof. induction s as [|c s IH]; cbn; [reflexivity | now rewrite IH]. Qed.

(** A text whose lower-case form is made of the letters a-z is matched by
    [a-z] under the [i] flag, and holds no slash. *)
Lemma lower_letters (s : string) :
  forall_in is_lower (toLowerCase s) = true ->
  forall_in (cmatch true (CRange "a" "z")) s = true
  /\ exists_in (Ascii.eqb "/") s = false.
Proof.
  assert (F : forall_ascii
                (fun c => implb (is_lower (to_lower_char c))
                            (cmatch true (CRange "a" "z") c && negb (Ascii.eqb "/" c)))
              = true) by (vm_compute; reflexivity).
  induction s as [|c s IH];
    cbn [forall_in exists_in toLowerCase map_string]; [now split|]. intro H.
  apply andb_true_iff in H. destruct H as [Hc Hs].
  pose proof (forall_ascii_spec _ F c) as E. cbn beta in E. rewrite Hc in E.
  cbn [implb] in E. apply andb_true_iff in E. destruct E as [E1 E2].
  apply negb_true_iff in E2. destruct (IH Hs) as [I1 I2].
  rewrite E1, E2, I1, I2. now split.
Qed.

(** What the texts that lower-case to a key of [monthNames] have in common. *)
Lemma months_shape (mon mm : string) :
  In (toLowerCase mon, mm) monthNames ->
  forall_in (cmatch true (CRange "a" "z")) mon = true
  /\ String.length mon = 3%nat
  /\ exists_in (Ascii.eqb "/") mon = false
  /\ lookup (toLowerCase mon) monthNames = mm.
Proof.
  unfold monthNames. cbn [In]. intro Hin.
  assert (H : forall_in is_lower (toLowerCase mon) = true
              /\ String.length (toLowerCase mon) = 3%nat
              /\ lookup (toLowerCase mon) monthNames = mm).
  { repeat (destruct Hin as [Hin|Hin];
            [injection Hin as <- <-; repeat split|]).
    contradiction. }
  destruct H as [Hl [Hn Hk]].
  destruct (lower_letters mon Hl) as [H1 H2].
  unfold toLowerCase in Hn. rewrite map_string_length in Hn.
  now repeat split.
Qed.

(** The leftmost match of [regexMonth] on a text that is a date. *)
Lemma regexMonth_date (mon mm d y : string) :
  In (toLowerCase mon, mm) monthNames ->
  all_digits d = true -> (1 <= String.length d <= 2)%nat ->
  all_digits y = true -> String.length y = 4%nat ->
  search true regexMonth (mon ++ " " ++ d ++ ", " ++ y)
  = Some (mon ++ " " ++ d ++ ", " ++ y, [(3, y); (2, d); (1, mon)]).
Proof.
  intros Hin Hd Ld Hy Ly.
  destruct (months_shape mon mm Hin) as [Hl [Ll _]].
  apply search_here. unfold match_here, regexMonth. cbn [rx].
  apply rep_take; [exact Hl | lia | lia | left; now rewrite Ll | cbv beta].
  apply (rep_take true (CRange "a" "z") "" 0 None (" " ++ d ++ ", " ++ y));
    [reflexivity | cbn; lia | exact I | right; reflexivity | cbv beta].
  apply (rep_take true CSpace " " 1 None (d ++ ", " ++ y));
    [reflexivity | cbn; lia | exact I
    | right; apply starts_digits; [assumption | lia | reflexivity] | cbv beta].
  apply rep_take;
    [now apply all_digits_class | lia | lia | right; reflexivity | cbv beta].
  apply (rep_take true (CUnion (CChar ",") CSpace) ", " 1 None y);
    [reflexivity | cbn; lia | exact I | | cbv beta].
  { right. rewrite <- (append_nil_r y).
    apply starts_digits; [assumption | lia | reflexivity]. }
  apply rep_take_all; [now apply all_digits_class | lia | lia | cbv beta].
  rewrite !consumed_nil, !consumed_app. reflexivity.
Qed.

Lemma regexSlash_no_slash (mon mm d y : string) :
  In (toLowerCase mon, mm) monthNames -> all_digits d = true -> all_digits y = true ->
  search false regexSlash (mon ++ " " ++ d ++ ", " ++ y) = None.
Proof.
  intros Hin Hd Hy.
  destruct (months_shape mon mm Hin) as [_ [_ [Hs _]]].
  apply (search_none false (Ascii.eqb "/")); [vm_compute; reflexivity|].
  rewrite !exists_in_app.
  rewrite (exists_in_digits (Ascii.eqb "/") d Hd eq_refl),
    (exists_in_digits (Ascii.eqb "/") y Hy eq_refl), Hs.
  reflexivity.
Qed.

Lemma format_month (mon mm d y : string) :
  In (toLowerCase mon, mm) monthNames ->
  all_digits d = true -> (1 <= String.length d <= 2)%nat ->
  all_digits y = true -> String.length y = 4%nat ->
  formatDateForFilename (Some (mon ++ " " ++ d ++ ", " ++ y))
  = y ++ "-" ++ mm ++ "-" ++ padStart 2 "0" d.
Proof.
  intros Hin Hd Ld Hy Ly.
  destruct (months_shape mon mm Hin) as [_ [Ll [_ Hmm]]].
  unfold formatDateForFilename.
  rewrite (regexSlash_no_slash mon mm d y Hin Hd Hy).
  rewrite (regexMonth_date mon mm d y Hin Hd Ld Hy Ly).
  destruct mon as [|c mon]; [discriminate Ll|].
  cbn [append group get_cap Nat.eqb snd]. rewrite Hmm. reflexivity.
Qed.

(** ** The canonical label of a recognised date is never an estimate *)

Lemma get_cap_In (n : nat) (cs : caps) (t : string) :
  get_cap n cs = Some t -> In (n, t) cs.
Proof.
  induction cs as [|[m u] cs IH]; cbn; [discriminate|].
  destruct (Nat.eqb m n) eqn:E.
  - intro H. injection H as ->. apply Nat.eqb_eq in E. subst. now left.
  - intro H. right. now apply IH.
Qed.

Lemma starts_weaken (Q Q' : ascii -> bool) (t : string) :
  (forall c, Q c = true -> Q' c = true) -> starts Q t = true -> starts Q' t = true.
Proof. intros H. destruct t; cbn; [discriminate | apply H]. Qed.

Lemma digit_not_e (c : ascii) : is_digit c = true -> not_e c = true.
Proof.
  intro H. apply (class_within_spec false not_e CDigit c); [vm_compute; reflexivity|].
  exact H.
Qed.

(** The text of a digit group, as [group] returns it, followed by a
    hyphen, does not start with "e". *)
Lemma year_group_start (icase : bool) (r : regex) (s rest : string) (m : string * caps)
      (n : nat) :
  groups_start icase (digit_group (S n)) r = true ->
  search icase r s = Some m ->
  starts not_e (group (S n) m ++ "-" ++ rest) = true.
Proof.
  intros Hg Hs.
  destruct (search_sound icase (digit_group (S n)) r s m Hg Hs) as [Hc _].
  unfold group.
  destruct (get_cap (S n) (snd m)) as [t|] eqn:E; [|reflexivity].
  apply get_cap_In in E.
  assert (Ht : starts is_digit t = true).
  { apply (Hc (S n) t is_digit E). unfold digit_group. now rewrite Nat.eqb_refl. }
  destruct t as [|c t]; [discriminate|]. cbn in *. now apply digit_not_e.
Qed.

(** A date that starts with a digit or a month initial keeps its first
    character through the clean-up of [formatDateForFilename]. *)
Lemma cleanup_start (c : ascii) (rest : string) :
  date_start c = true ->
  starts not_e (replace_class false not_filename_char ""
                  (replace_class false separators "-" (String c rest))) = true.
Proof.
  intro Hc.
  assert (H : cmatch false separators c = false
              /\ cmatch false not_filename_char c = false /\ not_e c = true).
  { assert (F : forall_ascii
                  (fun c => implb (date_start c)
                              (negb (cmatch false separators c)
                               && negb (cmatch false not_filename_char c)
                               && not_e c)) = true) by (vm_compute; reflexivity).
    pose proof (forall_ascii_spec _ F c) as E. cbn beta in E. rewrite Hc in E.
    cbn [implb] in E. apply andb_true_iff in E. destruct E as [E E3].
    apply andb_true_iff in E. destruct E as [E1 E2].
    apply negb_true_iff in E1, E2. now repeat split. }
  destruct H as [H1 [H2 H3]].
  cbn [replace_class]. rewrite H1. cbn [append replace_class]. rewrite H2.
  cbn [append starts]. exact H3.
Qed.

Lemma format_start (c : ascii) (rest : string) :
  date_start c = true ->
  starts not_e (formatDateForFilename (Some (String c rest))) = true.
Proof.
  intro Hc. unfold formatDateForFilename.
  destruct (search false regexSlash (String c rest)) as [m|] eqn:E1.
  - apply (year_group_start false regexSlash (String c rest) _ m 2); [reflexivity | exact E1].
  - destruct (search true regexMonth (String c rest)) as [m|] eqn:E2.
    + apply (year_group_start true regexMonth (String c rest) _ m 2); [reflexivity | exact E2].
    + now apply cleanup_start.
Qed.

Lemma and_group_start (icase : bool) (r : regex) (text d : string) :
  groups_start icase (digit_group 1) r = true ->
  and_group (search icase r text) 1 = Some d ->
  starts date_start d = true.
Proof.
  intros Hg H. unfold and_group in H.
  destruct (search icase r text) as [m|] eqn:E; [|discriminate].
  destruct (search_sound icase (digit_group 1) r text m Hg E) as [Hc _].
  unfold group in H.
  destruct (get_cap 1 (snd m)) as [t|] eqn:Eg; [|discriminate].
  destruct (truthy (Some t)); [|discriminate]. injection H as <-.
  apply get_cap_In in Eg.
  apply (starts_weaken is_digit); [intros c' Hc'; unfold date_start; now rewrite Hc'|].
  now apply (Hc 1%nat t is_digit Eg).
Qed.

Lemma ocr_date_start (recognized : Completion string) (d : string) :
  date (ocr_of recognized) = Some d -> starts date_start d = true.
Proof.
  unfold ocr_of, extractDateFromImage, try_catch, bind, await.
  destruct recognized as [text|message]; [|discriminate].
  destruct (and_group (search false olderPattern text) 1) as [d1|] eqn:E1.
  { cbn. intro H. injection H as ->.
    now apply (and_group_start false olderPattern text d). }
  destruct (and_group (search false datePattern text) 1) as [d2|] eqn:E2.
  { cbn. intro H. injection H as ->.
    now apply (and_group_start false datePattern text d). }
  destruct (and_group (search true monthPattern text) 0) as [d3|] eqn:E3;
    [|discriminate].
  cbn. intro H. injection H as ->.
  unfold and_group in E3.
  destruct (search true monthPattern text) as [m|] eqn:E; [|discriminate].
  destruct (truthy (Some (group 0 m))); [|discriminate]. injection E3 as <-.
  destruct (search_sound true (fun _ => None) monthPattern text m
              (groups_start_none true monthPattern) E) as [_ [_ H]].
  apply H. vm_compute. reflexivity.
Qed.

Lemma ocr_date_truthy (recognized : Completion string) (d : string) :
  date (ocr_of recognized) = Some d -> exists c rest, d = String c rest.
Proof.
  intro H. apply ocr_date_start in H. destruct d as [|c rest]; [discriminate|]. eauto.
Qed.

Lemma starts_not_estimate (label suffix : string) :
  starts not_e label = true -> label <> "est_" ++ suffix.
Proof. intros H E. rewrite E in H. discriminate. Qed.

(** C5.  For every sample whose OCR extraction yields a date, the
    canonical label is the formatted OCR date, and it is never an
    estimate "est_..."; a label that is an estimate occurs only when the
    extraction yields no date.  The label in question is the one the scan
    loop stores in the captured image. *)
Theorem ocr_date_precedence :
  (forall (recognized : Completion string) (i : nat) (d : string),
      date (ocr_of recognized) = Some d ->
      canonical recognized i = formatDateForFilename (Some d)
      /\ forall suffix, canonical recognized i <> "est_" ++ suffix)
  /\ (forall (recognized : Completion string) (i : nat) (suffix : string),
      canonical recognized i = "est_" ++ suffix ->
      date (ocr_of recognized) = None)
  /\ (forall (page : Page) (i : nat) (st : ScanState) (w : World Doc) (p : Probe),
      probe page i = Normal p ->
      exists img w',
        explore page i st w
        = (Normal (if ChangeSpec.isSignificantChange (baselineData st) (currentData p)
                   then mkScan (currentData p) (captured st ++ [img])
                   else st), w')
        /\ formattedDate img = canonical (recognized p) i).
Proof.
  assert (H1 : forall (recognized : Completion string) (i : nat) (d : string),
             date (ocr_of recognized) = Some d ->
             canonical recognized i = formatDateForFilename (Some d)
             /\ forall suffix, canonical recognized i <> "est_" ++ suffix).
  { intros recognized i d Hd.
    destruct (ocr_date_truthy recognized d Hd) as [c [rest ->]].
    pose proof (ocr_date_start recognized _ Hd) as Hs. cbn in Hs.
    unfold canonical. rewrite Hd. split; [reflexivity|].
    intro suffix. apply starts_not_estimate. now apply format_start. }
  split; [exact H1|]. split.
  - intros recognized i suffix E.
    destruct (date (ocr_of recognized)) as [d|] eqn:Hd; [|reflexivity].
    exfalso. exact (proj2 (H1 recognized i d Hd) suffix E).
  - intros page i st w p Hp.
    destruct (explore_step page i st w p Hp) as [img [w' [files [E [_ [_ [_ [Hl _]]]]]]]].
    exists img, w'. split; assumption.
Qed.

Lemma ocr_date_precedence_witness :
  canonical (Normal "older~3/20/2016") 0 = formatDateForFilename (Some "3/20/2016")
  /\ forall suffix, canonical (Normal "older~3/20/2016") 0 <> "est_" ++ suffix.
Proof.
  apply (proj1 ocr_date_precedence (Normal "older~3/20/2016") 0%nat "3/20/2016").
  reflexivity.
Defined.

(* ================================================================== *)
(** * Further properties: supporting lemmas *)
(* ================================================================== *)

Import RegexSpec.

(** ** The matcher against the declarative reading *)

Lemma rep_decompose {R} (icase : bool) (cl : cclass) (s : string) :
  forall (lo : nat) (hi : option nat) (k : string -> option R) (x : R),
    rep icase cl lo hi s k = Some x ->
    exists t s', s = t ++ s' /\ k s' = Some x
                 /\ forall_in (cmatch icase cl) t = true
                 /\ count_within lo hi (String.length t).
Proof.
  assert (Stop : forall lo hi (k : string -> option R) x s0,
             match lo with O => k s0 | S _ => None end = Some x ->
             hi <> None \/ True ->
             exists t s', s0 = t ++ s' /\ k s' = Some x
                          /\ forall_in (cmatch icase cl) t = true
                          /\ count_within lo hi (String.length t)).
  { intros lo hi k x s0 H _. destruct lo; [|discriminate].
    exists "", s0. repeat split; try assumption; cbn; try lia.
    destruct hi; [lia | exact I]. }
  induction s as [|c s IH]; intros lo hi k x H.
  - cbn [rep] in H. apply Stop; [|now right].
    destruct hi as [[|h]|]; exact H.
  - cbn [rep] in H.
    destruct hi as [[|h]|].
    + apply Stop; [exact H | now right].
    + destruct (cmatch icase cl c) eqn:Ec; [|apply Stop; [exact H | now right]].
      destruct (rep icase cl (pred lo) (option_map pred (Some (S h))) s k) as [r|] eqn:E.
      * injection H as ->.
        destruct (IH _ _ _ _ E) as [t [s' [Hs [Hk [Ht [Hlo Hhi]]]]]].
        exists (String c t), s'. cbn [append String.length forall_in].
        rewrite Hs, Ec, Ht. repeat split; try assumption; cbn in *; lia.
      * apply Stop; [exact H | now right].
    + destruct (cmatch icase cl c) eqn:Ec; [|apply Stop; [exact H | now right]].
      destruct (rep icase cl (pred lo) (option_map pred None) s k) as [r|] eqn:E.
      * injection H as ->.
        destruct (IH _ _ _ _ E) as [t [s' [Hs [Hk [Ht [Hlo Hhi]]]]]].
        exists (String c t), s'. cbn [append String.length forall_in].
        rewrite Hs, Ec, Ht. repeat split; try assumption; cbn in *; lia.
      * apply Stop; [exact H | now right].
Qed.

Lemma lit_decompose {R} (icase : bool) (l : string) :
  forall (s : string) (k : string -> option R) (x : R),
    lit icase l s k = Some x ->
    exists t s', s = t ++ s' /\ k s' = Some x /\ lit_matches icase l t.
Proof.
  induction l as [|d l IH]; intros s k x H.
  - exists "", s. cbn in H. repeat split; assumption.
  - cbn [lit] in H. destruct s as [|c s]; [discriminate|].
    destruct (cmatch icase (CChar d) c) eqn:Ec; [|discriminate].
    destruct (IH _ _ _ H) as [t [s' [Hs [Hk Hm]]]].
    exists (String c t), s'. cbn [append]. rewrite Hs.
    split; [reflexivity|]. split; [exact Hk|]. split; assumption.
Qed.

(** Soundness: what the matcher consumes is matched. *)
Lemma rx_decompose {R} (icase : bool) (r : regex) :
  forall (s : string) (cs : caps) (k : string -> caps -> option R) (x : R),
    rx icase r s cs k = Some x ->
    exists t s' cs', s = t ++ s' /\ matches icase r t cs cs' /\ k s' cs' = Some x.
Proof.
  induction r as [cl|l|r1 IH1 r2 IH2|r1 IH1 r2 IH2|cl lo hi|n r1 IH1];
    intros s cs k x H; cbn [rx] in H.
  - destruct s as [|c s]; [discriminate|].
    destruct (cmatch icase cl c) eqn:Ec; [|discriminate].
    exists (String c ""), s, cs. repeat split; [|exact H]. now constructor.
  - destruct (lit_decompose icase l _ _ _ H) as [t [s' [Hs [Hk Hm]]]].
    exists t, s', cs. repeat split; try assumption. now constructor.
  - destruct (IH1 _ _ _ _ H) as [t1 [s1 [cs1 [Hs1 [M1 H1]]]]].
    destruct (IH2 _ _ _ _ H1) as [t2 [s2 [cs2 [Hs2 [M2 H2]]]]].
    exists (t1 ++ t2), s2, cs2. split; [|split; [|exact H2]].
    + rewrite Hs1, Hs2. now rewrite append_assoc.
    + econstructor; eassumption.
  - destruct (rx icase r1 s cs k) as [y|] eqn:E.
    + injection H as ->.
      destruct (IH1 _ _ _ _ E) as [t [s' [cs' [Hs [M Hk]]]]].
      exists t, s', cs'. repeat split; try assumption. now apply matches_alt_l.
    + destruct (IH2 _ _ _ _ H) as [t [s' [cs' [Hs [M Hk]]]]].
      exists t, s', cs'. repeat split; try assumption. now apply matches_alt_r.
  - destruct (rep_decompose icase cl s _ _ _ _ H) as [t [s' [Hs [Hk [Ht Hn]]]]].
    exists t, s', cs. repeat split; try assumption. now constructor.
  - destruct (IH1 _ _ _ _ H) as [t [s' [cs' [Hs [M Hk]]]]].
    exists t, s', ((n, t) :: cs'). split; [exact Hs|]. split; [now constructor|].
    rewrite Hs, consumed_app in Hk. exact Hk.
Qed.

(** A successful search returns a part of the text that the expression
    matches, with the captures of that match. *)
Lemma search_decompose (icase : bool) (r : regex) (s : string) (m : string * caps) :
  search icase r s = Some m ->
  occurs_in (fst m) s /\ matches icase r (fst m) [] (snd m).
Proof.
  induction s as [|c s IH]; intro H; cbn [search] in H.
  - destruct (match_here icase r "") as [m'|] eqn:E; [|discriminate].
    injection H as ->. unfold match_here in E.
    destruct (rx_decompose icase r _ _ _ _ E) as [t [s' [cs' [Hs [M Hk]]]]].
    injection Hk as <-. cbn [fst snd]. rewrite Hs, consumed_app.
    split; [|exact M]. exists "", s'. reflexivity.
  - destruct (match_here icase r (String c s)) as [m'|] eqn:E.
    + injection H as ->. unfold match_here in E.
      destruct (rx_decompose icase r _ _ _ _ E) as [t [s' [cs' [Hs [M Hk]]]]].
      injection Hk as <-. cbn [fst snd]. rewrite Hs, consumed_app.
      split; [|exact M]. exists "", s'. reflexivity.
    + destruct (IH H) as [[before [after Hs]] M]. split; [|exact M].
      exists (String c before), after. cbn [append]. now rewrite Hs.
Qed.

Lemma rep_complete {R} (icase : bool) (cl : cclass) (t : string) :
  forall (lo : nat) (hi : option nat) (s' : string) (k : string -> option R) (x : R),
    forall_in (cmatch icase cl) t = true ->
    count_within lo hi (String.length t) ->
    k s' = Some x ->
    exists y, rep icase cl lo hi (t ++ s') k = Some y.
Proof.
  induction t as [|c t IH]; intros lo hi s' k x Ht [Hlo Hhi] Hk.
  - cbn in Hlo. assert (lo = 0)%nat by lia. subst lo. cbn [append].
    destruct s' as [|c s'].
    + exists x. destruct hi as [[|h]|]; cbn; exact Hk.
    + destruct hi as [[|h]|]; cbn [rep]; try (exists x; exact Hk).
      * destruct (cmatch icase cl c); [|exists x; exact Hk].
        destruct (rep icase cl (pred 0) (option_map pred (Some (S h))) s' k);
          eauto.
      * destruct (cmatch icase cl c); [|exists x; exact Hk].
        destruct (rep icase cl (pred 0) (option_map pred None) s' k); eauto.
  - cbn [forall_in] in Ht. apply andb_true_iff in Ht. destruct Ht as [Hc Ht].
    cbn [String.length] in Hlo, Hhi. cbn [append].
    destruct hi as [[|h]|]; [lia| |].
    + cbn [rep]. rewrite Hc.
      destruct (IH (pred lo) (option_map pred (Some (S h))) s' k x Ht) as [y Hy];
        [split; cbn; lia | exact Hk |].
      rewrite Hy. eauto.
    + cbn [rep]. rewrite Hc.
      destruct (IH (pred lo) (option_map pred None) s' k x Ht) as [y Hy];
        [split; cbn; [lia | exact I] | exact Hk |].
      rewrite Hy. eauto.
Qed.

Lemma lit_complete {R} (icase : bool) (l : string) :
  forall (t s' : string) (k : string -> option R),
    lit_matches icase l t -> lit icase l (t ++ s') k = k s'.
Proof.
  induction l as [|d l IH]; intros t s' k H; destruct t as [|c t];
    cbn [lit_matches] in H; try contradiction.
  - reflexivity.
  - destruct H as [Hc H]. cbn [append lit]. rewrite Hc. now apply IH.
Qed.

(** Completeness: where the expression matches, the matcher succeeds
    (with that match or with one it prefers). *)
Lemma rx_complete {R} (icase : bool) (r : regex) (t : string) (cs cs' : caps) :
  matches icase r t cs cs' ->
  forall (s' : string) (k : string -> caps -> option R) (x : R),
    k s' cs' = Some x ->
    exists y, rx icase r (t ++ s') cs k = Some y.
Proof.
  induction 1 as [cl c cs Hc|l t cs Hl|r1 r2 t1 t2 cs cs1 cs2 M1 IH1 M2 IH2
                  |r1 r2 t cs cs' M IH|r1 r2 t cs cs' M IH|cl lo hi t cs Ht Hn
                  |n r t cs cs' M IH];
    intros s' k x Hk; cbn [rx].
  - cbn [append]. rewrite Hc. eauto.
  - rewrite (lit_complete icase l t s' _ Hl). eauto.
  - rewrite append_assoc.
    destruct (IH2 s' k x Hk) as [y2 H2].
    exact (IH1 (t2 ++ s') (fun s1 cs1 => rx icase r2 s1 cs1 k) y2 H2).
  - destruct (IH s' k x Hk) as [y Hy]. rewrite Hy. eauto.
  - destruct (rx icase r1 (t ++ s') cs k); [eauto|]. exact (IH s' k x Hk).
  - exact (rep_complete icase cl t lo hi s' (fun s1 => k s1 cs) x Ht Hn Hk).
  - apply (IH s' (fun s1 cs1 => k s1 ((n, consumed (t ++ s') s1) :: cs1)) x).
    now rewrite consumed_app.
Qed.

(** A text in which the expression matches somewhere has a leftmost
    match. *)
Lemma search_complete (icase : bool) (r : regex) (t s : string) (cs : caps) :
  matches icase r t [] cs -> occurs_in t s ->
  exists m, search icase r s = Some m.
Proof.
  intros M [before [after ->]].
  induction before as [|c before IH]; cbn [append].
  - destruct (rx_complete icase r t [] cs M after
                (fun s' cs' => Some (consumed (t ++ after) s', cs')) _ eq_refl)
      as [y Hy].
    exists y. now apply search_here.
  - cbn [search]. destruct (match_here icase r (String c (before ++ t ++ after))); eauto.
Qed.

(** ** Shapes of the date expressions' matches *)

Lemma digits_class (icase : bool) (t : string) :
  forall_in (cmatch icase CDigit) t = all_digits t.
Proof.
  induction t as [|c t IH]; cbn [forall_in all_digits];
    [reflexivity | now rewrite IH].
Qed.

Lemma forall_in_app (P : ascii -> bool) (a b : string) :
  forall_in P (a ++ b) = forall_in P a && forall_in P b.
Proof.
  induction a as [|c a IH]; cbn; [reflexivity|].
  now rewrite IH, andb_assoc.
Qed.

Lemma forall_in_weaken (P Q : ascii -> bool) (t : string) :
  (forall c, P c = true -> Q c = true) ->
  forall_in P t = true -> forall_in Q t = true.
Proof.
  intro H. induction t as [|c t IH]; cbn; [trivial|]. intro Ht.
  apply andb_true_iff in Ht. destruct Ht as [Hc Ht].
  now rewrite (H c Hc), IH.
Qed.

Lemma char_class_eq (d c : ascii) : cmatch false (CChar d) c = true -> c = d.
Proof.
  cbn. rewrite orb_false_r. intro H. apply Ascii.eqb_eq in H. now symmetry.
Qed.

Ltac invert_matches :=
  repeat match goal with
         | H : matches _ (Cat _ _) _ _ _ |- _ => inversion H; subst; clear H
         | H : matches _ (Grp _ _) _ _ _ |- _ => inversion H; subst; clear H
         | H : matches _ (Cls _) _ _ _ |- _ => inversion H; subst; clear H
         | H : matches _ (Rep _ _ _) _ _ _ |- _ => inversion H; subst; clear H
         | H : matches _ (Lit _) _ _ _ |- _ => inversion H; subst; clear H
         end.

(** Every match of [regexSlash] is digits/digits/four digits, the three
    groups being the three digit runs. *)
Lemma regexSlash_shape (t : string) (cs : caps) :
  matches false regexSlash t [] cs ->
  exists m d y,
    t = m ++ "/" ++ d ++ "/" ++ y /\ cs = [(3, y); (2, d); (1, m)]%nat
    /\ all_digits m = true /\ (1 <= String.length m <= 2)%nat
    /\ all_digits d = true /\ (1 <= String.length d <= 2)%nat
    /\ all_digits y = true /\ String.length y = 4%nat.
Proof.
  unfold regexSlash. intro M. invert_matches.
  repeat match goal with
         | H : cmatch false (CChar _) _ = true |- _ => apply char_class_eq in H; subst
         | H : forall_in (cmatch false CDigit) _ = true |- _ => rewrite digits_class in H
         | H : count_within _ _ _ |- _ => destruct H
         end.
  do 3 eexists. split; [reflexivity|]. split; [reflexivity|].
  repeat split; try assumption; lia.
Qed.

Lemma slash_date_matches (m d y : string) :
  all_digits m = true -> (1 <= String.length m <= 2)%nat ->
  all_digits d = true -> (1 <= String.length d <= 2)%nat ->
  all_digits y = true -> String.length y = 4%nat ->
  matches false regexSlash (m ++ "/" ++ d ++ "/" ++ y) [] [(3, y); (2, d); (1, m)]%nat.
Proof.
  intros Hm Lm Hd Ld Hy Ly. unfold regexSlash.
  assert (Rep : forall t lo hi cs,
             all_digits t = true -> count_within lo hi (String.length t) ->
             matches false (Rep CDigit lo hi) t cs cs).
  { intros. constructor; [now rewrite digits_class | assumption]. }
  assert (Sl : forall cs, matches false (Cls (CChar "/")) "/" cs cs)
    by (intro; now constructor).
  eapply matches_cat; [apply matches_grp, Rep; [assumption | split; lia]|].
  eapply (matches_cat false _ _ "/"); [apply Sl|].
  eapply matches_cat; [apply matches_grp, Rep; [assumption | split; lia]|].
  eapply (matches_cat false _ _ "/"); [apply Sl|].
  apply matches_grp, Rep; [assumption | split; lia].
Qed.

Lemma pad_digits (t : string) :
  all_digits t = true -> (1 <= String.length t <= 2)%nat ->
  all_digits (padStart 2 "0" t) = true /\ String.length (padStart 2 "0" t) = 2%nat.
Proof.
  intros Ht Lt. destruct t as [|a [|b [|c t]]]; cbn in Lt; try lia.
  - cbn. cbn in Ht. rewrite Ht. split; reflexivity.
  - cbn. cbn in Ht. split; [exact Ht | reflexivity].
Qed.

(** The label of a text in which [regexSlash] finds a match. *)
Lemma format_slash_found (s : string) (m : string * caps) :
  search false regexSlash s = Some m ->
  exists mo d y,
    fst m = mo ++ "/" ++ d ++ "/" ++ y
    /\ all_digits mo = true /\ (1 <= String.length mo <= 2)%nat
    /\ all_digits d = true /\ (1 <= String.length d <= 2)%nat
    /\ all_digits y = true /\ String.length y = 4%nat
    /\ formatDateForFilename (Some s)
       = y ++ "-" ++ padStart 2 "0" mo ++ "-" ++ padStart 2 "0" d.
Proof.
  intro E. destruct (search_decompose false regexSlash s m E) as [_ M].
  destruct (regexSlash_shape _ _ M) as [mo [d [y [Ht [Hcs H]]]]].
  exists mo, d, y. split; [exact Ht|].
  destruct H as [H1 [H2 [H3 [H4 [H5 H6]]]]].
  do 6 (split; [assumption|]).
  assert (Hs : s <> "") by (intros ->; discriminate E).
  unfold formatDateForFilename. rewrite E.
  destruct s as [|c s]; [congruence|].
  destruct m as [t cs]. cbn [snd] in Hcs. subst cs. reflexivity.
Qed.

Lemma iso_of_parts (mo d y : string) :
  all_digits mo = true -> (1 <= String.length mo <= 2)%nat ->
  all_digits d = true -> (1 <= String.length d <= 2)%nat ->
  all_digits y = true -> String.length y = 4%nat ->
  iso_date (y ++ "-" ++ padStart 2 "0" mo ++ "-" ++ padStart 2 "0" d).
Proof.
  intros. destruct (pad_digits mo) as [? ?]; try assumption.
  destruct (pad_digits d) as [? ?]; try assumption.
  exists y, (padStart 2 "0" mo), (padStart 2 "0" d). repeat split; assumption.
Qed.

(** A text that holds a slash date anywhere is labelled YYYY-MM-DD. *)
Lemma format_iso (s t : string) :
  slash_date t -> occurs_in t s -> iso_date (formatDateForFilename (Some s)).
Proof.
  intros [mo [d [y [-> [H1 [H2 [H3 [H4 [H5 H6]]]]]]]]] Hocc.
  destruct (search_complete false regexSlash _ s _
              (slash_date_matches mo d y H1 H2 H3 H4 H5 H6) Hocc) as [m E].
  destruct (format_slash_found s m E) as [mo' [d' [y' [_ [A1 [A2 [A3 [A4 [A5 [A6 ->]]]]]]]]]].
  now apply iso_of_parts.
Qed.

(** Every match of [regexMonth] ends in a run of one or two digits,
    separators and a run of four digits, the groups being the first
    three letters and the two digit runs. *)
Lemma regexMonth_shape (t : string) (cs : caps) :
  matches true regexMonth t [] cs ->
  exists abc tail sp d sep y,
    t = abc ++ tail ++ sp ++ d ++ sep ++ y /\ cs = [(3, y); (2, d); (1, abc)]%nat
    /\ forall_in (cmatch true (CRange "a" "z")) abc = true /\ String.length abc = 3%nat
    /\ forall_in (cmatch true (CRange "a" "z")) tail = true
    /\ forall_in is_space sp = true /\ (1 <= String.length sp)%nat
    /\ all_digits d = true /\ (1 <= String.length d <= 2)%nat
    /\ all_digits y = true /\ String.length y = 4%nat.
Proof.
  unfold regexMonth. intro M. invert_matches.
  repeat match goal with
         | H : forall_in (cmatch true CDigit) _ = true |- _ => rewrite digits_class in H
         | H : count_within _ _ _ |- _ => destruct H
         end.
  do 6 eexists. split; [reflexivity|]. split; [reflexivity|].
  repeat split; try assumption; lia.
Qed.

Lemma format_month_found (s : string) (m : string * caps) :
  search false regexSlash s = None ->
  search true regexMonth s = Some m ->
  exists abc d y,
    forall_in (cmatch true (CRange "a" "z")) abc = true /\ String.length abc = 3%nat
    /\ all_digits d = true /\ (1 <= String.length d <= 2)%nat
    /\ all_digits y = true /\ String.length y = 4%nat
    /\ formatDateForFilename (Some s)
       = y ++ "-" ++ lookup (toLowerCase abc) monthNames ++ "-" ++ padStart 2 "0" d.
Proof.
  intros E1 E2. destruct (search_decompose true regexMonth s m E2) as [_ M].
  destruct (regexMonth_shape _ _ M)
    as [abc [tail [sp [d [sep [y [Ht [Hcs [A1 [A2 [_ [_ [_ [A3 [A4 [A5 A6]]]]]]]]]]]]]]]].
  exists abc, d, y. do 6 (split; [assumption|]).
  assert (Hs : s <> "") by (intros ->; discriminate E2).
  unfold formatDateForFilename. rewrite E1, E2.
  destruct s as [|c s]; [congruence|].
  destruct m as [t cs]. cbn [snd] in Hcs. subst cs. reflexivity.
Qed.

Lemma replace_class_app (icase : bool) (cl : cclass) (by_ a b : string) :
  replace_class icase cl by_ (a ++ b)
  = replace_class icase cl by_ a ++ replace_class icase cl by_ b.
Proof.
  induction a as [|c a IH]; cbn [append replace_class]; [reflexivity|].
  now rewrite IH, append_assoc.
Qed.

(** The two [replace] calls, character by character. *)
Lemma cleanup_spec (s : string) :
  replace_class false not_filename_char ""
    (replace_class false separators "-" s) = cleanup s.
Proof.
  assert (F : forall_ascii
                (fun c => String.eqb
                            (replace_class false not_filename_char ""
                               (if cmatch false separators c then "-"
                                else String c ""))
                            (cleanup_char c)) = true) by (vm_compute; reflexivity).
  induction s as [|c s IH]; [reflexivity|].
  cbn [replace_class cleanup]. rewrite replace_class_app, IH. f_equal.
  apply String.eqb_eq. exact (forall_ascii_spec _ F c).
Qed.

Lemma format_cleanup (s : string) :
  s <> "" ->
  search false regexSlash s = None -> search true regexMonth s = None ->
  formatDateForFilename (Some s) = cleanup s.
Proof.
  intros Hs E1 E2. unfold formatDateForFilename. rewrite E1, E2.
  destruct s as [|c s]; [congruence|]. apply cleanup_spec.
Qed.

Lemma cleanup_safe (s : string) : forall_in filename_char (cleanup s) = true.
Proof.
  assert (F : forall_ascii (fun c => forall_in filename_char (cleanup_char c)) = true)
    by (vm_compute; reflexivity).
  induction s as [|c s IH]; [reflexivity|].
  cbn [cleanup]. rewrite forall_in_app, IH, (forall_ascii_spec _ F c). reflexivity.
Qed.

Lemma cleanup_id (s : string) : forall_in filename_char s = true -> cleanup s = s.
Proof.
  assert (F : forall_ascii
                (fun c => implb (filename_char c)
                            (String.eqb (cleanup_char c) (String c ""))) = true)
    by (vm_compute; reflexivity).
  induction s as [|c s IH]; [reflexivity|]. cbn [forall_in cleanup]. intro H.
  apply andb_true_iff in H. destruct H as [Hc Hs].
  pose proof (forall_ascii_spec _ F c) as E. cbn beta in E. rewrite Hc in E.
  apply String.eqb_eq in E. rewrite E, (IH Hs). reflexivity.
Qed.

Lemma all_digits_forall (t : string) : all_digits t = forall_in is_digit t.
Proof. induction t as [|c t IH]; cbn; [reflexivity | now rewrite IH]. Qed.

Lemma digits_safe (t : string) : all_digits t = true -> forall_in filename_char t = true.
Proof.
  rewrite all_digits_forall. apply forall_in_weaken.
  intros c Hc. unfold filename_char. rewrite Hc. now rewrite !orb_true_r.
Qed.

Lemma lookup_safe (key : string) : forall_in filename_char (lookup key monthNames) = true.
Proof.
  unfold monthNames. cbn [lookup].
  repeat match goal with |- context [String.eqb ?a key] => destruct (String.eqb a key) end;
    reflexivity.
Qed.

Lemma format_safe (dateString : option string) :
  forall_in filename_char (formatDateForFilename dateString) = true.
Proof.
  destruct dateString as [[|c s]|]; try reflexivity.
  destruct (search false regexSlash (String c s)) as [m|] eqn:E1.
  - destruct (format_slash_found _ m E1) as [mo [d [y [_ [A1 [A2 [A3 [A4 [A5 [A6 ->]]]]]]]]]].
    destruct (pad_digits mo A1 A2) as [P1 _]. destruct (pad_digits d A3 A4) as [P2 _].
    rewrite !forall_in_app.
    rewrite (digits_safe y A5), (digits_safe _ P1), (digits_safe _ P2). reflexivity.
  - destruct (search true regexMonth (String c s)) as [m|] eqn:E2.
    + destruct (format_month_found _ m E1 E2) as [abc [d [y [_ [_ [A3 [A4 [A5 [A6 ->]]]]]]]]].
      destruct (pad_digits d A3 A4) as [P2 _].
      rewrite !forall_in_app.
      rewrite (digits_safe y A5), lookup_safe, (digits_safe _ P2). reflexivity.
    + rewrite format_cleanup by (assumption || discriminate). apply cleanup_safe.
Qed.

Lemma exists_in_or (P Q : ascii -> bool) (s : string) :
  exists_in (fun c => P c || Q c) s = exists_in P s || exists_in Q s.
Proof.
  induction s as [|c s IH]; cbn; [reflexivity|]. rewrite IH.
  destruct (P c), (Q c), (exists_in P s), (exists_in Q s); reflexivity.
Qed.

Lemma format_no_separator (s : string) :
  s <> "" ->
  exists_in (fun c => Ascii.eqb "/" c || is_space c) s = false ->
  formatDateForFilename (Some s) = cleanup s.
Proof.
  intros Hs H. rewrite exists_in_or in H. apply orb_false_iff in H. destruct H as [H1 H2].
  apply format_cleanup; [exact Hs | |].
  - apply (search_none false (Ascii.eqb "/")); [vm_compute; reflexivity | exact H1].
  - apply (search_none true is_space); [vm_compute; reflexivity | exact H2].
Qed.

Lemma safe_no_separator (s : string) :
  forall_in filename_char s = true ->
  exists_in (fun c => Ascii.eqb "/" c || is_space c) s = false.
Proof.
  assert (F : forall_ascii
                (fun c => implb (filename_char c)
                            (negb (Ascii.eqb "/" c || is_space c))) = true)
    by (vm_compute; reflexivity).
  induction s as [|c s IH]; [reflexivity|]. cbn [forall_in exists_in]. intro H.
  apply andb_true_iff in H. destruct H as [Hc Hs].
  pose proof (forall_ascii_spec _ F c) as E. cbn beta in E. rewrite Hc in E.
  cbn [implb] in E. apply negb_true_iff in E. rewrite E. now apply IH.
Qed.

Lemma letters_class (t : string) :
  forall_in is_letter t = true ->
  forall_in (cmatch true (CRange "a" "z")) t = true
  /\ exists_in (Ascii.eqb "/") t = false.
Proof.
  assert (F : forall_ascii
                (fun c => implb (is_letter c)
                            (cmatch true (CRange "a" "z") c && negb (Ascii.eqb "/" c)))
              = true) by (vm_compute; reflexivity).
  induction t as [|c t IH]; cbn [forall_in exists_in]; [now split|]. intro H.
  apply andb_true_iff in H. destruct H as [Hc Ht].
  pose proof (forall_ascii_spec _ F c) as E. cbn beta in E. rewrite Hc in E.
  cbn [implb] in E. apply andb_true_iff in E. destruct E as [E1 E2].
  apply negb_true_iff in E2. destruct (IH Ht) as [I1 I2].
  rewrite E1, E2, I1, I2. now split.
Qed.

(** The leftmost match of [regexMonth] on a word, a day and a year. *)
Lemma regexMonth_word (abc tail d y : string) :
  forall_in is_letter abc = true -> String.length abc = 3%nat ->
  forall_in is_letter tail = true ->
  all_digits d = true -> (1 <= String.length d <= 2)%nat ->
  all_digits y = true -> String.length y = 4%nat ->
  search true regexMonth (abc ++ tail ++ " " ++ d ++ ", " ++ y)
  = Some (abc ++ tail ++ " " ++ d ++ ", " ++ y, [(3, y); (2, d); (1, abc)]%nat).
Proof.
  intros Ha La Ht Hd Ld Hy Ly.
  destruct (letters_class abc Ha) as [Ha' _]. destruct (letters_class tail Ht) as [Ht' _].
  apply search_here. unfold match_here, regexMonth. cbn [rx].
  apply rep_take; [exact Ha' | lia | lia | left; now rewrite La | cbv beta].
  apply rep_take; [exact Ht' | lia | exact I | right; reflexivity | cbv beta].
  apply (rep_take true CSpace " " 1 None (d ++ ", " ++ y));
    [reflexivity | cbn; lia | exact I
    | right; apply starts_digits; [assumption | lia | reflexivity] | cbv beta].
  apply rep_take;
    [now apply all_digits_class | lia | lia | right; reflexivity | cbv beta].
  apply (rep_take true (CUnion (CChar ",") CSpace) ", " 1 None y);
    [reflexivity | cbn; lia | exact I | | cbv beta].
  { right. rewrite <- (append_nil_r y).
    apply starts_digits; [assumption | lia | reflexivity]. }
  apply rep_take_all; [now apply all_digits_class | lia | lia | cbv beta].
  rewrite !consumed_nil, !consumed_app. reflexivity.
Qed.

Lemma lookup_missing (key : string) (table : list (string * string)) :
  (forall v, ~ In (key, v) table) -> lookup key table = "undefined".
Proof.
  induction table as [|[k v] table IH]; intro H; cbn [lookup]; [reflexivity|].
  destruct (String.eqb k key) eqn:E.
  - apply String.eqb_eq in E. subst k. exfalso. apply (H v). now left.
  - apply IH. intros v' Hin. apply (H v'). now right.
Qed.

Lemma lookup_month (key mm : string) :
  In (key, mm) monthNames -> lookup key monthNames = mm.
Proof.
  unfold monthNames. cbn [In]. intro H.
  repeat (destruct H as [H|H]; [injection H as <- <-; reflexivity|]).
  contradiction.
Qed.

Lemma format_word (abc tail d y : string) :
  forall_in is_letter abc = true -> String.length abc = 3%nat ->
  forall_in is_letter tail = true ->
  all_digits d = true -> (1 <= String.length d <= 2)%nat ->
  all_digits y = true -> String.length y = 4%nat ->
  formatDateForFilename (Some (abc ++ tail ++ " " ++ d ++ ", " ++ y))
  = y ++ "-" ++ lookup (toLowerCase abc) monthNames ++ "-" ++ padStart 2 "0" d.
Proof.
  intros Ha La Ht Hd Ld Hy Ly.
  unfold formatDateForFilename.
  rewrite (regexMonth_word abc tail d y Ha La Ht Hd Ld Hy Ly).
  replace (search false regexSlash (abc ++ tail ++ " " ++ d ++ ", " ++ y)) with
    (@None (string * caps)).
  - destruct abc as [|c abc]; [discriminate La|]. reflexivity.
  - symmetry. apply (search_none false (Ascii.eqb "/")); [vm_compute; reflexivity|].
    rewrite !exists_in_app.
    rewrite (proj2 (letters_class abc Ha)), (proj2 (letters_class tail Ht)),
      (exists_in_digits (Ascii.eqb "/") d Hd eq_refl),
      (exists_in_digits (Ascii.eqb "/") y Hy eq_refl).
    reflexivity.
Qed.

(** ** What the OCR date patterns match *)

Lemma lit_matches_exact (l t : string) : lit_matches false l t -> t = l.
Proof.
  revert t. induction l as [|d l IH]; intros [|c t] H; cbn [lit_matches] in H;
    try contradiction; [reflexivity|].
  destruct H as [Hc H]. apply char_class_eq in Hc. subst c. now rewrite (IH t H).
Qed.

Lemma case_partner (d c : ascii) :
  cmatch true (CChar d) c = true -> to_lower_char c = to_lower_char d.
Proof.
  assert (F : forall_ascii
                (fun c => Ascii.eqb (to_lower_char (to_lower_char c)) (to_lower_char c)
                          && Ascii.eqb (to_lower_char (to_upper_char c)) (to_lower_char c))
              = true) by (vm_compute; reflexivity).
  pose proof (forall_ascii_spec _ F c) as E. cbn beta in E.
  apply andb_true_iff in E. destruct E as [E1 E2].
  apply Ascii.eqb_eq in E1. apply Ascii.eqb_eq in E2.
  cbn [cmatch andb]. intro H.
  apply orb_true_iff in H. destruct H as [H|H]; [apply Ascii.eqb_eq in H; now subst|].
  apply orb_true_iff in H. destruct H as [H|H]; apply Ascii.eqb_eq in H; subst d; congruence.
Qed.

Lemma lit_matches_lower (l t : string) :
  lit_matches true l t -> toLowerCase t = toLowerCase l.
Proof.
  revert t. induction l as [|d l IH]; intros [|c t] H; cbn [lit_matches] in H;
    try contradiction; [reflexivity|].
  destruct H as [Hc H]. apply case_partner in Hc.
  cbn [toLowerCase map_string]. fold (toLowerCase t). fold (toLowerCase l).
  now rewrite Hc, (IH t H).
Qed.

Lemma sep_class (t : string) :
  forall_in (cmatch true (CUnion CSpace (CChar ","))) t = true ->
  forall_in is_sep t = true.
Proof.
  apply forall_in_weaken.
  assert (F : forall_ascii
                (fun c => implb (cmatch true (CUnion CSpace (CChar ",")) c) (is_sep c))
              = true) by (vm_compute; reflexivity).
  intros c Hc. pose proof (forall_ascii_spec _ F c) as E. cbn beta in E.
  now rewrite Hc in E.
Qed.

Ltac invert_alternatives :=
  repeat match goal with
         | H : matches _ (Alt _ _) _ _ _ |- _ => inversion H; subst; clear H
         end.

Lemma datePattern_shape (t : string) (cs : caps) :
  matches false datePattern t [] cs -> slash_date t /\ cs = [(1, t)]%nat.
Proof.
  unfold datePattern. intro M. invert_matches.
  repeat match goal with
         | H : cmatch false (CChar _) _ = true |- _ => apply char_class_eq in H; subst
         | H : forall_in (cmatch false CDigit) _ = true |- _ => rewrite digits_class in H
         | H : count_within _ _ _ |- _ => destruct H
         end.
  split; [|reflexivity].
  do 3 eexists. split; [reflexivity|]. repeat split; try assumption; lia.
Qed.

Lemma datePattern_matches (t : string) :
  slash_date t -> matches false datePattern t [] [(1, t)]%nat.
Proof.
  intros [m [d [y [-> [Hm [Lm [Hd [Ld [Hy Ly]]]]]]]]]. unfold datePattern.
  assert (Rep : forall t lo hi cs,
             all_digits t = true -> count_within lo hi (String.length t) ->
             matches false (Rep CDigit lo hi) t cs cs).
  { intros. constructor; [now rewrite digits_class | assumption]. }
  assert (Sl : forall cs, matches false (Cls (CChar "/")) "/" cs cs)
    by (intro; now constructor).
  apply matches_grp.
  eapply matches_cat; [apply Rep; [assumption | split; lia]|].
  eapply (matches_cat false _ _ "/"); [apply Sl|].
  eapply matches_cat; [apply Rep; [assumption | split; lia]|].
  eapply (matches_cat false _ _ "/"); [apply Sl|].
  apply Rep; [assumption | split; lia].
Qed.

Lemma olderPattern_shape (t : string) (cs : caps) :
  matches false olderPattern t [] cs ->
  exists sep d, t = "older" ++ sep ++ d /\ slash_date d /\ cs = [(1, d)]%nat.
Proof.
  unfold olderPattern. intro M. invert_matches.
  repeat match goal with
         | H : cmatch false (CChar _) _ = true |- _ => apply char_class_eq in H; subst
         | H : forall_in (cmatch false CDigit) _ = true |- _ => rewrite digits_class in H
         | H : count_within _ _ _ |- _ => destruct H
         | H : lit_matches false _ _ |- _ => apply lit_matches_exact in H; subst
         end.
  do 2 eexists. split; [reflexivity|]. split; [|reflexivity].
  do 3 eexists. split; [reflexivity|]. repeat split; try assumption; lia.
Qed.

Lemma monthPattern_shape (t : string) (cs : caps) :
  matches true monthPattern t [] cs -> month_date t.
Proof.
  unfold monthPattern. intro M. invert_matches; invert_alternatives; invert_matches.
  all: repeat match goal with
         | H : forall_in (cmatch true CDigit) _ = true |- _ => rewrite digits_class in H
         | H : forall_in (cmatch true (CUnion _ _)) _ = true |- _ => apply sep_class in H
         | H : count_within _ _ _ |- _ => destruct H
         | H : lit_matches true _ _ |- _ => apply lit_matches_lower in H
         end.
  all: match goal with H : toLowerCase ?mon = _ |- _ =>
         exists mon; eexists; do 4 eexists;
         split; [reflexivity|]; split;
         [rewrite H; cbn; repeat (first [left; reflexivity | right])|] end.
  all: repeat split; try assumption; lia.
Qed.

Lemma occurs_in_refl (t : string) : occurs_in t t.
Proof. exists "", "". cbn. now rewrite append_nil_r. Qed.

Lemma occurs_in_part (a t b s : string) : occurs_in (a ++ t ++ b) s -> occurs_in t s.
Proof.
  intros [before [after ->]]. exists (before ++ a), (b ++ after).
  now rewrite !append_assoc.
Qed.

Lemma slash_date_nonempty (t : string) : slash_date t -> exists c rest, t = String c rest.
Proof.
  intros [m [d [y [-> [_ [Lm _]]]]]]. destruct m as [|c m]; [cbn in Lm; lia|].
  cbn [append]. eauto.
Qed.

Lemma ocr_date_cases (text : string) :
  date (ocr_of (Normal text))
  = match and_group (search false olderPattern text) 1 with
    | Some d => Some d
    | None =>
        match and_group (search false datePattern text) 1 with
        | Some d => Some d
        | None => and_group (search true monthPattern text) 0
        end
    end.
Proof.
  unfold ocr_of, extractDateFromImage, try_catch, bind, await. cbn [fst].
  destruct (and_group (search false olderPattern text) 1); [reflexivity|].
  destruct (and_group (search false datePattern text) 1); [reflexivity|].
  destruct (and_group (search true monthPattern text) 0); reflexivity.
Qed.

Lemma older_group (text d : string) :
  and_group (search false olderPattern text) 1 = Some d ->
  occurs_in d text /\ slash_date d.
Proof.
  destruct (search false olderPattern text) as [m|] eqn:E; [|cbn [and_group]; discriminate].
  destruct (search_decompose false olderPattern text m E) as [Hocc M].
  destruct (olderPattern_shape _ _ M) as [sep [d' [Ht [Hd Hcs]]]].
  destruct m as [t cs]. cbn [fst snd] in *. subst cs.
  destruct (slash_date_nonempty d' Hd) as [c [rest Hne]].
  unfold and_group. cbn [group get_cap Nat.eqb snd]. rewrite Hne. cbn [truthy].
  rewrite <- Hne. intro H. injection H as <-.
  split; [|exact Hd]. rewrite Ht in Hocc.
  apply (occurs_in_part ("older" ++ sep) d' "").
  now rewrite append_nil_r, append_assoc.
Qed.

Lemma date_group (text d : string) :
  and_group (search false datePattern text) 1 = Some d ->
  occurs_in d text /\ slash_date d.
Proof.
  destruct (search false datePattern text) as [m|] eqn:E; [|cbn [and_group]; discriminate].
  destruct (search_decompose false datePattern text m E) as [Hocc M].
  destruct (datePattern_shape _ _ M) as [Hd Hcs].
  destruct m as [t cs]. cbn [fst snd] in *. subst cs.
  destruct (slash_date_nonempty t Hd) as [c [rest Hne]].
  unfold and_group. cbn [group get_cap Nat.eqb snd]. rewrite Hne. cbn [truthy].
  rewrite <- Hne. intro H. injection H as <-.
  now split.
Qed.

Lemma month_group (text d : string) :
  and_group (search true monthPattern text) 0 = Some d ->
  occurs_in d text /\ month_date d.
Proof.
  destruct (search true monthPattern text) as [m|] eqn:E; [|cbn [and_group]; discriminate].
  destruct (search_decompose true monthPattern text m E) as [Hocc M].
  apply monthPattern_shape in M.
  destruct m as [t cs]. cbn [fst snd] in *.
  unfold and_group. cbn [group fst].
  destruct t as [|c rest]; cbn [truthy]; [discriminate|].
  intro H. injection H as <-. now split.
Qed.

Lemma ocr_date_shape (text d : string) :
  date (ocr_of (Normal text)) = Some d ->
  occurs_in d text /\ (slash_date d \/ month_date d).
Proof.
  rewrite ocr_date_cases.
  destruct (and_group (search false olderPattern text) 1) as [d1|] eqn:E1.
  { intro H. injection H as <-. destruct (older_group text d1 E1). split; [|left]; assumption. }
  destruct (and_group (search false datePattern text) 1) as [d2|] eqn:E2.
  { intro H. injection H as <-. destruct (date_group text d2 E2). split; [|left]; assumption. }
  intro E3. destruct (month_group text d E3). split; [|right]; assumption.
Qed.

Lemma ocr_slash_first (text t : string) :
  slash_date t -> occurs_in t text ->
  exists d, date (ocr_of (Normal text)) = Some d /\ slash_date d /\ occurs_in d text.
Proof.
  intros Ht Hocc. rewrite ocr_date_cases.
  destruct (and_group (search false olderPattern text) 1) as [d1|] eqn:E1.
  { destruct (older_group text d1 E1). exists d1. repeat split; assumption. }
  destruct (search_complete false datePattern t text _ (datePattern_matches t Ht) Hocc)
    as [m E].
  destruct (search_decompose false datePattern text m E) as [Hocc' M].
  destruct (datePattern_shape _ _ M) as [Hd Hcs].
  destruct m as [u cs]. cbn [fst snd] in *. subst cs.
  rewrite E. unfold and_group. cbn [group get_cap Nat.eqb snd].
  destruct (slash_date_nonempty u Hd) as [c [rest Hne]]. rewrite Hne. cbn [truthy].
  rewrite <- Hne.
  eexists. repeat split; [exact Hd | exact Hocc'].
Qed.

Lemma slash_date_label (d : string) (recognized : Completion string) (i : nat) :
  date (ocr_of recognized) = Some d -> slash_date d ->
  iso_date (canonical recognized i).
Proof.
  intros E Hd. unfold canonical. rewrite E.
  destruct (slash_date_nonempty d Hd) as [c [rest ->]].
  apply (format_iso _ (String c rest)); [exact Hd | apply occurs_in_refl].
Qed.

(** ** The Enhanced scan, pass by pass *)

Import EnhancedScan.

Lemma extract_run {D} (recognized : Completion string) (w : World D) :
  extractDateFromImage recognized w
  = (Normal (ocr_of recognized),
     mkWorld (w_log w ++ ocr_lines recognized) (w_files w)).
Proof.
  unfold ocr_of, extractDateFromImage, try_catch, bind, await.
  destruct recognized as [text|message].
  - cbn [ocr_lines]. rewrite app_nil_r, world_eta.
    destruct (and_group (search false olderPattern text) 1);
      [|destruct (and_group (search false datePattern text) 1);
        [|destruct (and_group (search true monthPattern text) 0)]];
      reflexivity.
  - reflexivity.
Qed.

(** One pass of the loop whose probe resolves. *)
Lemma explore_run (page : Page) (i : nat) (st : ScanState) (w : World Doc) (p : Probe) :
  probe page i = Normal p ->
  let flagged := ChangeSpec.isSignificantChange (baselineData st) (currentData p) in
  let pd := percentDiff_of (baselineData st) (currentData p) in
  explore page i st w
  = (Normal (if flagged
             then mkScan (currentData p) (captured st ++ [sample i p (baselineData st)])
             else st),
     mkWorld (w_log w ++ [Line (exploring_line i)] ++ ocr_lines (recognized p)
              ++ [Line (position_line i (recognized p)); ImageSizeDifference pd]
              ++ (if flagged then [FoundUniqueImage (i + 1) pd] else []))
             (w_files w
              ++ (if flagged
                  then [(unique_name (canonical (recognized p) i), Png (currentData p))]
                  else []))).
Proof.
  intros Hp flagged pd. unfold explore.
  fold (pointX_at i). fold (year_at i).
  erewrite bind_normal by (apply log_run).
  erewrite bind_normal by (unfold await; rewrite Hp; reflexivity).
  erewrite bind_normal by (apply extract_run).
  rewrite truthy_canonical.
  erewrite bind_normal by (apply log_run).
  erewrite bind_normal by (apply compare_run).
  cbn [hasSignificantChange percentDiff]. fold flagged. fold pd.
  unfold ChangeSpec.logged. cbn [w_log w_files].
  destruct flagged.
  - unfold bind, log_entry, write_file, ret. cbn [w_log w_files].
    f_equal. f_equal.
    repeat rewrite <- app_assoc. reflexivity.
  - unfold ret. rewrite !app_nil_r.
    f_equal. f_equal. repeat rewrite <- app_assoc. reflexivity.
Qed.

Lemma unique_upto_S (page : Page) (b0 : Buffer) (n : nat) :
  unique_upto page b0 (S n)
  = (unique_upto page b0 n
     ++ (if ChangeSpec.isSignificantChange (baseline_before page b0 n) (frame page n)
         then [n] else []))%list.
Proof.
  unfold unique_upto, baseline_before. rewrite frames_S, unique_indices_snoc.
  now rewrite frames_length.
Qed.

Lemma baseline_before_S (page : Page) (b0 : Buffer) (n : nat) :
  baseline_before page b0 (S n)
  = if ChangeSpec.isSignificantChange (baseline_before page b0 n) (frame page n)
    then frame page n else baseline_before page b0 n.
Proof. unfold baseline_before. now rewrite frames_S, baseline_after_snoc. Qed.

(** The scan after [n] passes whose probes all resolve: the baseline,
    the array of captured images, the copies made and the lines logged. *)
Lemma scan_run (page : Page) (b0 : Buffer) (n : nat) (w : World Doc) :
  (forall i, (i < n)%nat -> exists p, probe page i = Normal p) ->
  for_loop n 0 (explore page) (mkScan b0 []) w
  = (Normal (mkScan (baseline_before page b0 n)
                    (map (sample_at page b0) (unique_upto page b0 n))),
     mkWorld (w_log w ++ flat_map (pass_lines page b0) (seq 0 n))
             (w_files w ++ map (copy_at page b0) (unique_upto page b0 n))).
Proof.
  intro Hok.
  destruct (for_loop_inv
              (fun j st w' =>
                 st = mkScan (baseline_before page b0 j)
                             (map (sample_at page b0) (unique_upto page b0 j))
                 /\ w' = mkWorld (w_log w ++ flat_map (pass_lines page b0) (seq 0 j))
                                 (w_files w ++ map (copy_at page b0) (unique_upto page b0 j)))
              (explore page) n 0 (mkScan b0 []) w)
    as [st [w' [E [-> ->]]]].
  - split; [reflexivity|]. cbn. now rewrite !app_nil_r, world_eta.
  - intros j st w1 Hj [-> ->].
    destruct (Hok j) as [p Hp]; [lia|].
    rewrite (explore_run page j _ _ p Hp).
    cbn [baselineData captured w_log w_files].
    assert (Hfr : frame page j = currentData p) by (unfold frame; now rewrite Hp).
    eexists. eexists. split; [reflexivity|].
    rewrite unique_upto_S, baseline_before_S, seq_S, flat_map_app, Hfr. cbn [Nat.add flat_map].
    rewrite app_nil_r.
    assert (Hs : sample_at page b0 j = sample j p (baseline_before page b0 j))
      by (unfold sample_at; now rewrite Hp).
    assert (Hl : pass_lines page b0 j
                 = ([Line (exploring_line j)] ++ ocr_lines (recognized p) ++
                    [Line (position_line j (recognized p));
                     ImageSizeDifference (percentDiff_of (baseline_before page b0 j)
                                            (currentData p))] ++
                    (if ChangeSpec.isSignificantChange (baseline_before page b0 j)
                          (currentData p)
                     then [FoundUniqueImage (j + 1)
                             (percentDiff_of (baseline_before page b0 j) (currentData p))]
                     else []))%list)
      by (unfold pass_lines; now rewrite Hp).
    assert (Hc : copy_at page b0 j
                 = (unique_name (canonical (recognized p) j), Png (currentData p)))
      by (unfold copy_at; now rewrite Hs, Hfr).
    rewrite Hl.
    destruct (ChangeSpec.isSignificantChange (baseline_before page b0 j) (currentData p)).
    + rewrite !map_app. cbn [map]. rewrite Hs, Hc.
      split; [reflexivity|]. f_equal; repeat rewrite <- app_assoc; reflexivity.
    + rewrite !app_nil_r. split; [reflexivity|].
      f_equal; repeat rewrite <- app_assoc; reflexivity.
  - rewrite Nat.add_0_l in E. exact E.
Qed.

Lemma unique_indices_sorted (sig : Buffer -> Buffer -> bool) (fs : list Buffer)
      (i : nat) (b : Buffer) :
  StronglySorted lt (Rolling.unique_indices sig fs i b).
Proof.
  revert i b. induction fs as [|f fs IH]; intros i b; cbn [Rolling.unique_indices].
  - constructor.
  - destruct (sig b f); [|apply IH].
    constructor; [apply IH|].
    apply Forall_forall. intros j Hj. apply unique_indices_bound in Hj. lia.
Qed.

Lemma unique_indices_length (sig : Buffer -> Buffer -> bool) (fs : list Buffer)
      (i : nat) (b : Buffer) :
  (List.length (Rolling.unique_indices sig fs i b) <= List.length fs)%nat.
Proof.
  revert i b. induction fs as [|f fs IH]; intros i b; cbn [Rolling.unique_indices List.length].
  - lia.
  - destruct (sig b f); [cbn [List.length]; pose proof (IH (S i) f) | pose proof (IH (S i) b)];
      lia.
Qed.

Lemma StronglySorted_map {A B} (R : A -> A -> Prop) (R' : B -> B -> Prop) (f : A -> B)
      (l : list A) :
  (forall a b, R a b -> R' (f a) (f b)) ->
  StronglySorted R l -> StronglySorted R' (map f l).
Proof.
  intros H. induction 1 as [|a l Hs IH Hall]; cbn [map]; constructor; [exact IH|].
  apply Forall_forall. intros y Hy. apply in_map_iff in Hy. destruct Hy as [x [<- Hx]].
  apply H. rewrite Forall_forall in Hall. now apply Hall.
Qed.

(** ** The columns and the estimated years of the Enhanced scan *)

(** The column of loop index [i], in integer arithmetic. *)
Lemma pointX_closed (i : nat) :
  pointX_at i = (1100 + (100 * Z.of_nat i + 3) / 6)%Z.
Proof.
  unfold pointX_at, Num.Math_round, intervalWidth, timelineStart, timelineEndX, numPoints.
  rewrite (Qfloor_comp _ ((6603 + 100 * Z.of_nat i) # 6)).
  - unfold Qfloor.
    replace (6603 + 100 * Z.of_nat i)%Z with ((100 * Z.of_nat i + 3) + 1100 * 6)%Z by ring.
    rewrite Z.div_add by discriminate. ring.
  - unfold Qeq, Qplus, Qmult, Qdiv, Qinv, inject_Z. cbn [Qnum Qden Z.of_nat].
    cbn -[Z.mul Z.add Z.of_nat]. lia.
Qed.

Lemma year_closed (i : nat) :
  year_at i = (2002 + (22 * (pointX_at i - 400) + 600) / 1200)%Z.
Proof. unfold year_at. apply estimate_year_integer. Qed.

Lemma pointX_step (i : nat) : (pointX_at i + 16 <= pointX_at (S i))%Z.
Proof.
  rewrite !pointX_closed. rewrite Nat2Z.inj_succ.
  pose proof (Z.div_mod (100 * Z.of_nat i + 3) 6 ltac:(discriminate)) as H1.
  pose proof (Z.mod_pos_bound (100 * Z.of_nat i + 3) 6 ltac:(reflexivity)) as H2.
  pose proof (Z.div_mod (100 * Z.succ (Z.of_nat i) + 3) 6 ltac:(discriminate)) as H3.
  pose proof (Z.mod_pos_bound (100 * Z.succ (Z.of_nat i) + 3) 6 ltac:(reflexivity)) as H4.
  lia.
Qed.

Lemma pointX_increasing (i j : nat) : (i < j)%nat -> (pointX_at i < pointX_at j)%Z.
Proof.
  induction 1 as [|j Hle IH].
  - pose proof (pointX_step i). lia.
  - pose proof (pointX_step j). lia.
Qed.

Lemma pointX_bounds (i : nat) :
  (i < numPoints)%nat -> (timelineStart <= pointX_at i < timelineEndX)%Z.
Proof.
  unfold numPoints, timelineStart, timelineEndX. intro Hi. rewrite pointX_closed.
  pose proof (Z.div_mod (100 * Z.of_nat i + 3) 6 ltac:(discriminate)) as H1.
  pose proof (Z.mod_pos_bound (100 * Z.of_nat i + 3) 6 ltac:(reflexivity)) as H2.
  lia.
Qed.

Lemma year_monotone (i j : nat) : (i <= j)%nat -> (year_at i <= year_at j)%Z.
Proof.
  intro H. rewrite !year_closed.
  assert (Hx : (pointX_at i <= pointX_at j)%Z).
  { destruct (Nat.eq_dec i j) as [->|Hne]; [lia|].
    pose proof (pointX_increasing i j ltac:(lia)). lia. }
  apply Z.add_le_mono_l. apply Z.div_le_mono; lia.
Qed.

Lemma year_bounds (i : nat) : (i < numPoints)%nat -> (2015 <= year_at i <= 2024)%Z.
Proof.
  intro Hi. pose proof (pointX_bounds i Hi) as Hb. rewrite year_closed.
  unfold timelineStart, timelineEndX in Hb.
  assert (Hx : (pointX_at i <= 1583)%Z).
  { unfold numPoints in Hi. rewrite pointX_closed.
    pose proof (Z.div_mod (100 * Z.of_nat i + 3) 6 ltac:(discriminate)) as H1.
    pose proof (Z.mod_pos_bound (100 * Z.of_nat i + 3) 6 ltac:(reflexivity)) as H2.
    lia. }
  pose proof (Z.div_mod (22 * (pointX_at i - 400) + 600) 1200 ltac:(discriminate)) as H1.
  pose proof (Z.mod_pos_bound (22 * (pointX_at i - 400) + 600) 1200 ltac:(reflexivity)) as H2.
  lia.
Qed.

Lemma marker_bounds (x : Z) :
  (timelineStart <= x < timelineEndX)%Z ->
  (0 <= marker_percent x)%Q /\ (marker_percent x < 100)%Q.
Proof.
  unfold marker_percent, timelineStart, timelineEndX. intros [H1 H2].
  change (inject_Z (1600 - 1100)) with (inject_Z 500).
  unfold Qle, Qlt, Qmult, Qdiv, Qinv, inject_Z. cbn [Qnum Qden].
  cbn -[Z.mul Z.add Z.sub]. split; lia.
Qed.

(** ** Sessions never reject on a failure inside *)





(** ** The Refined scan *)

Import RefinedScan.

Lemma refined_extract_run {D} (recognized : Completion string) (w : World D) :
  Refined.extractDateFromImage recognized w
  = (Normal (extracted recognized),
     mkWorld (w_log w ++ RefinedScan.ocr_lines recognized) (w_files w)).
Proof.
  unfold Refined.extractDateFromImage, try_catch, bind, await, extracted.
  destruct recognized as [text|message].
  - cbn [RefinedScan.ocr_lines]. rewrite app_nil_r, world_eta. reflexivity.
  - reflexivity.
Qed.

(** The column of loop index [i]: 40 pixels apart from 400. *)
Lemma dotX_closed (i : nat) : dotX_at i = (400 + 40 * Z.of_nat i)%Z.
Proof.
  unfold dotX_at, Num.Math_round, Refined.intervalWidth, Refined.timelineStartX,
    Refined.timelineEndX, Refined.numPoints.
  rewrite (Qfloor_comp _ ((801 + 80 * Z.of_nat i) # 2)).
  - unfold Qfloor.
    replace (801 + 80 * Z.of_nat i)%Z with (1 + (400 + 40 * Z.of_nat i) * 2)%Z by ring.
    rewrite Z.div_add by discriminate. reflexivity.
  - unfold Qeq, Qplus, Qmult, Qdiv, Qinv, inject_Z. cbn [Qnum Qden Z.of_nat].
    cbn -[Z.mul Z.add Z.of_nat]. lia.
Qed.

(** One pass over a dot whose browser calls resolve. *)
Lemma click_dot_run (page : Refined.Page) (i : nat)
      (capturedDates : list (string * Refined.DateInfo)) (w : World Refined.Doc)
      (recognized : Completion string) :
  Refined.probe page i = Normal recognized ->
  (forall date, detected page i = Some date -> Refined.highRes page i = Normal tt) ->
  Refined.click_dot page i capturedDates w
  = (Normal (match detected page i with
             | Some date => Refined.map_set date (info_at i date) capturedDates
             | None => capturedDates
             end),
     mkWorld (w_log w
              ++ [Line ("Clicking timeline position " ++ Num.to_string (Z.of_nat (i + 1))
                        ++ "/" ++ Num.to_string (Z.of_nat Refined.numPoints) ++ " at ("
                        ++ Num.to_string (dotX_at i) ++ ", "
                        ++ Num.to_string Refined.dotsY ++ ")")]
              ++ RefinedScan.ocr_lines recognized
              ++ [Line ("Position " ++ Num.to_string (Z.of_nat (i + 1))
                        ++ ": Detected date: "
                        ++ or_else (extracted recognized) "None detected")])
             (w_files w)).
Proof.
  intros Hp Hh. unfold Refined.click_dot. fold (dotX_at i).
  erewrite bind_normal by (apply log_run).
  erewrite bind_normal by (unfold await; rewrite Hp; reflexivity).
  erewrite bind_normal by (apply refined_extract_run).
  erewrite bind_normal by (apply log_run).
  cbn [w_log w_files].
  unfold detected in *. rewrite Hp in *.
  destruct (extracted recognized) as [[|c rest]|].
  - unfold ret. f_equal. f_equal. repeat rewrite <- app_assoc. reflexivity.
  - erewrite bind_normal by (unfold await; rewrite (Hh _ eq_refl); reflexivity).
    unfold ret. f_equal. f_equal. repeat rewrite <- app_assoc. reflexivity.
  - unfold ret. f_equal. f_equal. repeat rewrite <- app_assoc. reflexivity.
Qed.

(** ** [Map.set] *)

Lemma map_set_keys (key : string) (value : Refined.DateInfo)
      (m : list (string * Refined.DateInfo)) :
  (In key (map fst m) -> map fst (Refined.map_set key value m) = map fst m)
  /\ (~ In key (map fst m) ->
      Refined.map_set key value m = (m ++ [(key, value)])%list).
Proof.
  induction m as [|[k v] m [IH1 IH2]]; cbn [Refined.map_set map fst].
  - split; [intros []|reflexivity].
  - destruct (String.eqb k key) eqn:E.
    + apply String.eqb_eq in E. subst k. split; [reflexivity|].
      intro H. exfalso. apply H. now left.
    + apply String.eqb_neq in E. split.
      * intros [H|H]; [congruence|]. cbn [map fst]. now rewrite IH1.
      * intro H. cbn [app]. rewrite IH2; [reflexivity|]. intro Hin. apply H. now right.
Qed.

Lemma map_set_In (key : string) (value : Refined.DateInfo)
      (m : list (string * Refined.DateInfo)) (k : string) (v : Refined.DateInfo) :
  NoDup (map fst m) ->
  In (k, v) (Refined.map_set key value m)
  <-> (k = key /\ v = value) \/ (k <> key /\ In (k, v) m).
Proof.
  induction m as [|[k0 v0] m IH]; cbn [Refined.map_set map fst]; intro Hnd.
  - cbn [In]. split.
    + intros [H|[]]. injection H as <- <-. now left.
    + intros [[-> ->]|[_ []]]. now left.
  - inversion Hnd as [|? ? Hnotin Hnd']; subst.
    destruct (String.eqb k0 key) eqn:E.
    + apply String.eqb_eq in E. subst k0. cbn [In]. split.
      * intros [H|H]; [injection H as <- <-; now left|].
        right. split; [|now right]. intros ->. apply Hnotin.
        change key with (fst (key, v)). now apply in_map.
      * intros [[-> ->]|[Hne [H|H]]]; [now left | injection H as -> _; congruence | now right].
    + apply String.eqb_neq in E. cbn [In]. rewrite (IH Hnd'). split.
      * intros [H|[H|[Hne H]]].
        -- injection H as <- <-. right. split; [congruence | now left].
        -- now left.
        -- right. split; [exact Hne | now right].
      * intros [H|[Hne [H|H]]]; [right; now left | now left | right; right; now split].
Qed.

Lemma map_set_NoDup (key : string) (value : Refined.DateInfo)
      (m : list (string * Refined.DateInfo)) :
  NoDup (map fst m) -> NoDup (map fst (Refined.map_set key value m)).
Proof.
  intro Hnd. destruct (in_dec string_dec key (map fst m)) as [Hin|Hnotin].
  - now rewrite (proj1 (map_set_keys key value m) Hin).
  - rewrite (proj2 (map_set_keys key value m) Hnotin), map_app. cbn [map fst].
    apply NoDup_app; [exact Hnd | repeat constructor; intros [] |].
    intros a Ha [<-|[]]. contradiction.
Qed.

Lemma map_set_length (key : string) (value : Refined.DateInfo)
      (m : list (string * Refined.DateInfo)) :
  (List.length (Refined.map_set key value m) <= S (List.length m))%nat.
Proof.
  destruct (in_dec string_dec key (map fst m)) as [Hin|Hnotin].
  - pose proof (f_equal (@List.length _) (proj1 (map_set_keys key value m) Hin)) as E.
    rewrite !length_map in E. lia.
  - rewrite (proj2 (map_set_keys key value m) Hnotin), length_app. cbn. lia.
Qed.

(** What holds of the map of captured dates after [j] passes. *)
Lemma refined_scan_run (page : Refined.Page) (n : nat) (w : World Refined.Doc) :
  (forall i, (i < n)%nat -> exists recognized, Refined.probe page i = Normal recognized) ->
  (forall i date, (i < n)%nat -> detected page i = Some date ->
                  Refined.highRes page i = Normal tt) ->
  exists capturedDates w',
    for_loop n 0 (Refined.click_dot page) [] w = (Normal capturedDates, w')
    /\ w_files w' = w_files w
    /\ NoDup (map fst capturedDates)
    /\ (List.length capturedDates <= n)%nat
    /\ forall date info,
         In (date, info) capturedDates
         <-> exists i, (i < n)%nat /\ detected page i = Some date
                       /\ (forall i', (i < i' < n)%nat -> detected page i' <> Some date)
                       /\ info = info_at i date.
Proof.
  intros Hok Hhigh.
  destruct (for_loop_inv
              (fun j m w' =>
                 w_files w' = w_files w
                 /\ NoDup (map fst m)
                 /\ (List.length m <= j)%nat
                 /\ forall date info,
                      In (date, info) m
                      <-> exists i, (i < j)%nat /\ detected page i = Some date
                                    /\ (forall i', (i < i' < j)%nat ->
                                                   detected page i' <> Some date)
                                    /\ info = info_at i date)
              (Refined.click_dot page) n 0 [] w)
    as [m [w' [E H]]].
  - split; [reflexivity|]. split; [constructor|]. split; [cbn; lia|].
    intros date info. split; [intros [] | intros [i [Hi _]]; lia].
  - intros j m w1 Hj [Hf [Hnd [Hlen Hin]]].
    destruct (Hok j) as [recognized Hp]; [lia|].
    rewrite (click_dot_run page j m w1 recognized Hp)
      by (intros date Hd; apply (Hhigh j date); [lia | exact Hd]).
    eexists. eexists. split; [reflexivity|]. cbn [w_files].
    split; [exact Hf|].
    destruct (detected page j) as [d|] eqn:Ed.
    + split; [now apply map_set_NoDup|].
      split; [pose proof (map_set_length d (info_at j d) m); lia|].
      intros date info. rewrite (map_set_In d (info_at j d) m date info Hnd). split.
      * intros [[-> ->]|[Hne Hm]].
        -- exists j. split; [lia|]. split; [exact Ed|]. split; [intros i' Hi'; lia | reflexivity].
        -- apply Hin in Hm. destruct Hm as [i [Hi [Hd [Hlast ->]]]].
           exists i. split; [lia|]. split; [exact Hd|]. split; [|reflexivity].
           intros i' Hi'. destruct (Nat.eq_dec i' j) as [->|Hne'].
           ++ rewrite Ed. congruence.
           ++ apply Hlast. lia.
      * intros [i [Hi [Hd [Hlast ->]]]].
        destruct (Nat.eq_dec i j) as [->|Hne].
        -- left. rewrite Ed in Hd. injection Hd as ->. now split.
        -- right. assert (Hdj : date <> d).
           { intros ->. apply (Hlast j); [lia | exact Ed]. }
           split; [exact Hdj|]. apply Hin. exists i. split; [lia|]. split; [exact Hd|].
           split; [|reflexivity]. intros i' Hi'. apply Hlast. lia.
    + split; [exact Hnd|]. split; [lia|].
      intros date info. rewrite Hin. split.
      * intros [i [Hi [Hd [Hlast ->]]]]. exists i. split; [lia|]. split; [exact Hd|].
        split; [|reflexivity]. intros i' Hi'.
        destruct (Nat.eq_dec i' j) as [->|Hne']; [rewrite Ed; discriminate | apply Hlast; lia].
      * intros [i [Hi [Hd [Hlast ->]]]].
        destruct (Nat.eq_dec i j) as [->|Hne]; [rewrite Ed in Hd; discriminate|].
        exists i. split; [lia|]. split; [exact Hd|]. split; [|reflexivity].
        intros i' Hi'. apply Hlast. lia.
  - cbn [Nat.add] in H. exists m, w'. split; [exact E | exact H].
Qed.

(** The retry loop when the button shows at attempt [retryCount + k]. *)
Lemma activate_succeeds {D} (page : Refined.Page) (k : nat) :
  forall (fuel retryCount : nat) (w : World D),
    (k < fuel)%nat ->
    (forall n, (retryCount <= n < retryCount + k)%nat ->
               Refined.click page n = Normal tt /\ Refined.attempt page n = Normal false) ->
    Refined.click page (retryCount + k) = Normal tt ->
    Refined.attempt page (retryCount + k) = Normal true ->
    Refined.activate page fuel retryCount w
    = (Normal true,
       mkWorld (w_log w ++ flat_map failed_attempt_lines (seq retryCount k)
                ++ successful_attempt_lines (retryCount + k))
               (w_files w)).
Proof.
  induction k as [|k IH]; intros fuel retryCount w Hk Hfail Hc Ha.
  - destruct fuel as [|fuel]; [lia|]. rewrite Nat.add_0_r in *.
    cbn [Refined.activate].
    erewrite bind_normal by (apply log_run).
    erewrite bind_normal by (unfold await; rewrite Hc; reflexivity).
    erewrite bind_normal by (apply log_run).
    erewrite bind_normal by (unfold await; rewrite Ha; reflexivity).
    cbv beta iota.
    erewrite bind_normal by (apply log_run).
    unfold ret. cbn [w_log w_files seq flat_map app]. unfold successful_attempt_lines.
    repeat rewrite <- app_assoc. reflexivity.
  - destruct fuel as [|fuel]; [lia|].
    destruct (Hfail retryCount) as [Hc0 Ha0]; [lia|].
    cbn [Refined.activate].
    erewrite bind_normal by (apply log_run).
    erewrite bind_normal by (unfold await; rewrite Hc0; reflexivity).
    erewrite bind_normal by (apply log_run).
    erewrite bind_normal by (unfold await; rewrite Ha0; reflexivity).
    cbv beta iota.
    erewrite bind_normal by (apply log_run).
    replace (retryCount + 1)%nat with (S retryCount) by lia.
    rewrite (IH fuel (S retryCount));
      [| lia | intros n Hn; apply Hfail; lia
       | replace (S retryCount + k)%nat with (retryCount + S k)%nat by lia; exact Hc
       | replace (S retryCount + k)%nat with (retryCount + S k)%nat by lia; exact Ha].
    cbn [w_log w_files seq flat_map].
    replace (S retryCount + k)%nat with (retryCount + S k)%nat by lia.
    unfold failed_attempt_lines at 2.
    replace (retryCount + 1)%nat with (S retryCount) by lia.
    repeat rewrite <- app_assoc. reflexivity.
Qed.

(** ** Printing integers *)

Lemma to_int_not_nil (z : Z) :
  Z.to_int z <> Decimal.Pos Decimal.Nil /\ Z.to_int z <> Decimal.Neg Decimal.Nil.
Proof.
  destruct z as [|p|p]; cbn; split; try discriminate;
    intro H; injection H as H; exact (DecimalPos.Unsigned.to_uint_nonnil p H).
Qed.

(** Two integers that print alike are equal. *)
Lemma to_string_inj (a b : Z) : Num.to_string a = Num.to_string b -> a = b.
Proof.
  unfold Num.to_string. intro H.
  destruct (to_int_not_nil a) as [A1 A2]. destruct (to_int_not_nil b) as [B1 B2].
  pose proof (NilZero.isi (Z.to_int a) A1 A2) as Ea.
  pose proof (NilZero.isi (Z.to_int b) B1 B2) as Eb.
  rewrite H in Ea. rewrite Ea in Eb. injection Eb as Eb.
  now apply DecimalZ.to_int_inj.
Qed.

Lemma append_inj_l (a b c : string) : a ++ b = a ++ c -> b = c.
Proof. induction a as [|x a IH]; cbn; [trivial|]. intro H. injection H as H. now apply IH. Qed.

Lemma append_inj_r (a b c : string) : a ++ c = b ++ c -> a = b.
Proof.
  revert b. induction a as [|x a IH]; intros [|y b] H; cbn in H.
  - reflexivity.
  - exfalso. apply (f_equal String.length) in H. cbn in H. rewrite length_append in H. lia.
  - exfalso. apply (f_equal String.length) in H. cbn in H. rewrite length_append in H. lia.
  - injection H as -> H. now rewrite (IH b H).
Qed.

(** ** The copies of the Enhanced scan *)

Lemma unique_name_inj (a b : string) :
  EnhancedScan.unique_name a = EnhancedScan.unique_name b <-> a = b.
Proof.
  split; [|now intros ->]. unfold EnhancedScan.unique_name. intro H.
  apply append_inj_l in H. now apply append_inj_r in H.
Qed.


(** ** What the Enhanced scan keeps *)

Lemma unique_upto_bound (page : Page) (b0 : Buffer) (n i : nat) :
  In i (unique_upto page b0 n) -> (i < n)%nat.
Proof.
  unfold unique_upto. intro H. apply unique_indices_bound in H.
  rewrite frames_length in H. lia.
Qed.

Lemma sample_at_position (page : Page) (b0 : Buffer) (i : nat) :
  position (sample_at page b0 i) = S i
  /\ pointX (sample_at page b0 i) = pointX_at i
  /\ estimatedYear (sample_at page b0 i) = year_at i
  /\ uniquePath (sample_at page b0 i)
     = EnhancedScan.unique_name (formattedDate (sample_at page b0 i))
  /\ dateDisplayPath (sample_at page b0 i) = EnhancedScan.date_display i.
Proof.
  unfold sample_at, sample.
  destruct (probe page i);
    cbn [position pointX estimatedYear uniquePath formattedDate dateDisplayPath];
    repeat split; lia.
Qed.

Lemma Forall_mapi {A B} (P : B -> Prop) (f : A -> nat -> B) (l : list A) (k : nat) :
  (forall a n, In a l -> P (f a n)) -> Forall P (mapi f l k).
Proof.
  revert k. induction l as [|a l IH]; intros k H; cbn [mapi]; constructor.
  - apply H. now left.
  - apply IH. intros b n Hb. apply H. now right.
Qed.

(** The images of a complete scan. *)
Lemma scan_images (page : Page) (b0 : Buffer) (w : World Doc) :
  (forall i, (i < numPoints)%nat -> exists p, probe page i = Normal p) ->
  exists st w',
    scan page b0 w = (Normal st, w')
    /\ (List.length (captured st) <= numPoints)%nat
    /\ StronglySorted lt (map position (captured st))
    /\ StronglySorted Z.le (map estimatedYear (captured st))
    /\ Forall (fun img =>
                 (1 <= position img <= numPoints)%nat
                 /\ pointX img = pointX_at (position img - 1)
                 /\ estimatedYear img = year_at (position img - 1)
                 /\ dateDisplayPath img
                    = "date_display_" ++ Num.to_string (Z.of_nat (position img)) ++ ".png")
              (captured st)
    /\ Forall (fun marker => (0 <= marker_left marker)%Q /\ (marker_left marker < 100)%Q)
              (report_timeline (buildReport (captured st))).
Proof.
  intro Hok. unfold scan. rewrite (scan_run page b0 numPoints w Hok).
  eexists. eexists. split; [reflexivity|]. cbn [captured].
  assert (Himg : Forall (fun img =>
                 (1 <= position img <= numPoints)%nat
                 /\ pointX img = pointX_at (position img - 1)
                 /\ estimatedYear img = year_at (position img - 1)
                 /\ dateDisplayPath img
                    = "date_display_" ++ Num.to_string (Z.of_nat (position img)) ++ ".png")
              (map (sample_at page b0) (unique_upto page b0 numPoints))).
  { apply Forall_forall. intros img Hin. apply in_map_iff in Hin.
    destruct Hin as [i [<- Hi]]. apply unique_upto_bound in Hi.
    destruct (sample_at_position page b0 i) as [-> [-> [-> [_ ->]]]].
    cbn [Nat.sub]. rewrite Nat.sub_0_r. unfold EnhancedScan.date_display.
    replace (i + 1)%nat with (S i) by lia. repeat split; lia. }
  split; [|split; [|split; [|split; [exact Himg|]]]].
  - rewrite length_map. unfold unique_upto.
    etransitivity; [apply unique_indices_length|]. now rewrite frames_length.
  - rewrite map_map.
    apply (StronglySorted_map lt lt (fun i => position (sample_at page b0 i)));
      [|apply unique_indices_sorted].
    intros a b Hab. destruct (sample_at_position page b0 a) as [-> _].
    destruct (sample_at_position page b0 b) as [-> _]. lia.
  - rewrite map_map.
    apply (StronglySorted_map lt Z.le (fun i => estimatedYear (sample_at page b0 i)));
      [|apply unique_indices_sorted].
    intros a b Hab. destruct (sample_at_position page b0 a) as [_ [_ [-> _]]].
    destruct (sample_at_position page b0 b) as [_ [_ [-> _]]].
    apply year_monotone. lia.
  - unfold buildReport. cbn [report_timeline].
    apply Forall_mapi. intros img n Hin. cbn [marker_left].
    rewrite Forall_forall in Himg. destruct (Himg img Hin) as [Hpos [Hx _]].
    apply (marker_bounds (pointX img)). rewrite Hx. apply pointX_bounds. lia.
Qed.

(** The copies of a complete scan. *)
Lemma scan_copies (page : Page) (b0 : Buffer) (w : World Doc) :
  (forall i, (i < numPoints)%nat -> exists p, probe page i = Normal p) ->
  exists st w',
    scan page b0 w = (Normal st, w')
    /\ w_files w'
       = (w_files w
          ++ map (fun img => (uniquePath img, Png (frame page (position img - 1))))
                 (captured st))%list
    /\ Forall (fun img =>
                 uniquePath img = "accra__ghana_" ++ formattedDate img ++ ".png")
              (captured st).
Proof.
  intro Hok. unfold scan. rewrite (scan_run page b0 numPoints w Hok).
  eexists. eexists. split; [reflexivity|]. cbn [captured w_files]. split.
  - f_equal. rewrite map_map. apply map_ext. intro i. unfold copy_at.
    destruct (sample_at_position page b0 i) as [-> _].
    cbn [Nat.sub]. now rewrite Nat.sub_0_r.
  - apply Forall_forall. intros img Hin. apply in_map_iff in Hin.
    destruct Hin as [i [<- Hi]].
    destruct (sample_at_position page b0 i) as [_ [_ [_ [-> _]]]]. reflexivity.
Qed.

(** ** The Simplified scan *)

Lemma simplified_explore_run (page : Simplified.Page) (i : nat)
      (st : Simplified.ScanState) (w : World Simplified.Doc) (b : Buffer) :
  Simplified.probe page i = Normal b ->
  let flagged := ChangeSpec.isSignificantChange (Simplified.baselineData st) b in
  exists lines,
    Simplified.explore page i st w
    = (Normal (if flagged
               then Simplified.mkScan b
                      (Simplified.captured st
                       ++ [SimplifiedScan.sample (List.length (Simplified.captured st)) i])
               else st),
       mkWorld (w_log w ++ lines)
               (w_files w
                ++ (if flagged
                    then [(SimplifiedScan.unique_name (List.length (Simplified.captured st)),
                           Simplified.Png b)]
                    else []))).
Proof.
  intros Hp flagged. unfold Simplified.explore. fold (SimplifiedScan.pointX_at i).
  erewrite bind_normal by (apply log_run).
  erewrite bind_normal by (unfold await; rewrite Hp; reflexivity).
  destruct (simplified_compare_run (Simplified.baselineData st) b
              (mkWorld (w_log w ++ [Line ("Exploring position "
                                          ++ Num.to_string (Z.of_nat (i + 1)) ++ "/"
                                          ++ Num.to_string (Z.of_nat Simplified.numPoints)
                                          ++ " at ("
                                          ++ Num.to_string (SimplifiedScan.pointX_at i) ++ ", "
                                          ++ Num.to_string Simplified.timelineY ++ ")")])
                       (w_files w))) as [pd E].
  erewrite bind_normal by (exact E).
  cbn [Simplified.hasSignificantChange]. fold flagged.
  unfold ChangeSpec.logged. cbn [w_log w_files].
  destruct flagged.
  - unfold bind, log, log_entry, write_file, ret. cbn [w_log w_files].
    eexists. apply f_equal2; [reflexivity|].
    apply f_equal2; [|reflexivity]. repeat rewrite <- app_assoc. reflexivity.
  - unfold ret. eexists. apply f_equal2; [reflexivity|].
    apply f_equal2; [|now rewrite app_nil_r]. repeat rewrite <- app_assoc. reflexivity.
Qed.

Lemma samples_snoc (k : nat) (l : list nat) (i : nat) :
  SimplifiedScan.samples k (l ++ [i])
  = (SimplifiedScan.samples k l ++ [SimplifiedScan.sample (k + List.length l) i])%list.
Proof.
  revert k. induction l as [|a l IH]; intro k; cbn [SimplifiedScan.samples app List.length].
  - now rewrite Nat.add_0_r.
  - rewrite IH. now replace (S k + List.length l)%nat with (k + S (List.length l))%nat by lia.
Qed.

Lemma copies_snoc (page : Simplified.Page) (k : nat) (l : list nat) (i : nat) :
  SimplifiedScan.copies page k (l ++ [i])
  = (SimplifiedScan.copies page k l
     ++ [(SimplifiedScan.unique_name (k + List.length l),
          Simplified.Png (SimplifiedSpec.frame page i))])%list.
Proof.
  revert k. induction l as [|a l IH]; intro k; cbn [SimplifiedScan.copies app List.length].
  - now rewrite Nat.add_0_r.
  - rewrite IH. now replace (S k + List.length l)%nat with (k + S (List.length l))%nat by lia.
Qed.

Lemma samples_length (k : nat) (l : list nat) :
  List.length (SimplifiedScan.samples k l) = List.length l.
Proof. revert k. induction l as [|a l IH]; intro k; cbn; [reflexivity | now rewrite IH]. Qed.

(** The scan after [n] passes whose probes all resolve. *)
Lemma simplified_scan_run (page : Simplified.Page) (b0 : Buffer) (n : nat)
      (w : World Simplified.Doc) :
  (forall i, (i < n)%nat -> exists b, Simplified.probe page i = Normal b) ->
  exists w',
    for_loop n 0 (Simplified.explore page) (Simplified.mkScan b0 []) w
    = (Normal (Simplified.mkScan
                 (SimplifiedScan.baseline_before page b0 n)
                 (SimplifiedScan.samples 0 (SimplifiedScan.unique_upto page b0 n))),
       w')
    /\ w_files w'
       = (w_files w
          ++ SimplifiedScan.copies page 0 (SimplifiedScan.unique_upto page b0 n))%list.
Proof.
  intro Hok.
  destruct (for_loop_inv
              (fun j st w' =>
                 st = Simplified.mkScan
                        (SimplifiedScan.baseline_before page b0 j)
                        (SimplifiedScan.samples 0 (SimplifiedScan.unique_upto page b0 j))
                 /\ w_files w'
                    = (w_files w
                       ++ SimplifiedScan.copies page 0
                            (SimplifiedScan.unique_upto page b0 j))%list)
              (Simplified.explore page) n 0 (Simplified.mkScan b0 []) w)
    as [st [w' [E [-> Hf]]]].
  - split; [reflexivity|]. cbn. now rewrite app_nil_r.
  - intros j st w1 Hj [-> Hf].
    destruct (Hok j) as [b Hp]; [lia|].
    destruct (simplified_explore_run page j
                (Simplified.mkScan
                   (SimplifiedScan.baseline_before page b0 j)
                   (SimplifiedScan.samples 0 (SimplifiedScan.unique_upto page b0 j)))
                w1 b Hp) as [lines E].
    rewrite E. cbn [Simplified.baselineData Simplified.captured w_files].
    eexists. eexists. split; [reflexivity|].
    assert (Hfr : SimplifiedSpec.frame page j = b)
      by (unfold SimplifiedSpec.frame; now rewrite Hp).
    unfold SimplifiedScan.unique_upto, SimplifiedScan.baseline_before, SimplifiedSpec.frames.
    rewrite seq_S, map_app. cbn [map Nat.add].
    fold (SimplifiedSpec.frames page j).
    rewrite baseline_after_snoc, unique_indices_snoc.
    assert (Hlen : List.length (SimplifiedSpec.frames page j) = j)
      by (unfold SimplifiedSpec.frames; now rewrite length_map, length_seq).
    rewrite Hlen, Hfr.
    fold (SimplifiedScan.baseline_before page b0 j).
    fold (SimplifiedScan.unique_upto page b0 j).
    rewrite samples_length.
    destruct (ChangeSpec.isSignificantChange (SimplifiedScan.baseline_before page b0 j) b).
    + rewrite samples_snoc, copies_snoc. cbn [Nat.add w_files]. rewrite Hfr.
      split; [reflexivity|]. rewrite Hf. now rewrite <- app_assoc.
    + rewrite !app_nil_r. cbn [w_files]. split; [reflexivity|]. exact Hf.
  - cbn [Nat.add] in Hf. exists w'. split; [exact E | exact Hf].
Qed.

Lemma simplified_names_distinct (a b : nat) :
  SimplifiedScan.unique_name a = SimplifiedScan.unique_name b -> a = b.
Proof.
  unfold SimplifiedScan.unique_name. intro H.
  apply append_inj_l in H. apply append_inj_r in H. apply to_string_inj in H. lia.
Qed.

Lemma samples_paths (k : nat) (l : list nat) :
  map Simplified.uniquePath (SimplifiedScan.samples k l)
  = map SimplifiedScan.unique_name (seq k (List.length l))
  /\ map Simplified.position (SimplifiedScan.samples k l) = map S l.
Proof.
  revert k. induction l as [|a l IH]; intro k; [now split|].
  cbn [SimplifiedScan.samples map List.length seq]. destruct (IH (S k)) as [-> ->].
  cbn [SimplifiedScan.sample Simplified.uniquePath Simplified.position].
  replace (a + 1)%nat with (S a) by lia. now split.
Qed.

Lemma copies_names (page : Simplified.Page) (k : nat) (l : list nat) :
  map fst (SimplifiedScan.copies page k l)
  = map SimplifiedScan.unique_name (seq k (List.length l)).
Proof.
  revert k. induction l as [|a l IH]; intro k; [reflexivity|].
  cbn [SimplifiedScan.copies map List.length seq fst]. now rewrite IH.
Qed.

Lemma cards_numbers (images : list Simplified.CapturedImage) (index : nat) :
  map Simplified.card_number (Simplified.cards images index)
  = seq (index + 1) (List.length images)
  /\ map Simplified.card_image (Simplified.cards images index)
     = map Simplified.uniquePath images
  /\ map Simplified.card_position (Simplified.cards images index)
     = map Simplified.position images.
Proof.
  revert index. induction images as [|img images IH]; intro index; [now split|].
  cbn [Simplified.cards map List.length seq]. destruct (IH (S index)) as [E1 [-> ->]].
  rewrite E1. cbn [Simplified.card_number Simplified.card_image Simplified.card_position].
  replace (S index + 1)%nat with (S (index + 1)) by lia. repeat split.
Qed.

(** ** White space *)

Lemma drop_while_all (P : ascii -> bool) (s : string) :
  forall_in P s = true -> drop_while P s = "".
Proof.
  induction s as [|c s IH]; cbn; [trivial|]. intro H.
  apply andb_true_iff in H. destruct H as [-> H]. now apply IH.
Qed.

Lemma drop_while_nil (P : ascii -> bool) (s : string) :
  drop_while P s = "" -> forall_in P s = true.
Proof.
  induction s as [|c s IH]; cbn; [trivial|].
  destruct (P c); [exact IH | discriminate].
Qed.

Lemma drop_while_suffix (P : ascii -> bool) (s : string) :
  exists before, s = before ++ drop_while P s /\ forall_in P before = true.
Proof.
  induction s as [|c s [before [IH1 IH2]]]; cbn [drop_while].
  - exists "". now split.
  - destruct (P c) eqn:E.
    + exists (String c before). cbn. rewrite E, IH2. split; [now rewrite <- IH1 | reflexivity].
    + exists "". now split.
Qed.

Lemma rev_string_app (a b : string) : rev_string (a ++ b) = rev_string b ++ rev_string a.
Proof.
  induction a as [|c a IH]; cbn [append rev_string].
  - now rewrite append_nil_r.
  - now rewrite IH, append_assoc.
Qed.

Lemma rev_string_involutive (s : string) : rev_string (rev_string s) = s.
Proof.
  induction s as [|c s IH]; [reflexivity|]. cbn [rev_string].
  rewrite rev_string_app, IH. reflexivity.
Qed.

Lemma forall_in_rev (P : ascii -> bool) (s : string) :
  forall_in P (rev_string s) = forall_in P s.
Proof.
  induction s as [|c s IH]; [reflexivity|]. cbn [rev_string forall_in].
  rewrite forall_in_app, IH. cbn. rewrite andb_true_r. apply andb_comm.
Qed.

(** [trim] gives a part of the text. *)
Lemma trim_occurs (s : string) : occurs_in (trim s) s.
Proof.
  unfold trim.
  destruct (drop_while_suffix is_space s) as [before [H1 _]].
  destruct (drop_while_suffix is_space (rev_string (drop_while is_space s)))
    as [after [H2 _]].
  apply (f_equal rev_string) in H2. rewrite rev_string_involutive, rev_string_app in H2.
  exists before, (rev_string after). rewrite <- H2. exact H1.
Qed.

(** [trim] gives the empty text exactly on a text of white space. *)
Lemma trim_blank (s : string) : trim s = "" <-> forall_in is_space s = true.
Proof.
  unfold trim. split; intro H.
  - apply (f_equal rev_string) in H. rewrite rev_string_involutive in H. cbn in H.
    apply drop_while_nil in H. rewrite forall_in_rev in H.
    destruct (drop_while_suffix is_space s) as [before [H1 H2]].
    rewrite H1, forall_in_app, H2, H. reflexivity.
  - rewrite (drop_while_all is_space s H). reflexivity.
Qed.

(** ** The date text of the Refined script *)

Lemma blank_no_digit (s : string) :
  forall_in is_space s = true -> exists_in is_digit s = false.
Proof.
  assert (F : forall_ascii (fun c => implb (is_space c) (negb (is_digit c))) = true)
    by (vm_compute; reflexivity).
  induction s as [|c s IH]; cbn [forall_in exists_in]; [trivial|]. intro H.
  apply andb_true_iff in H. destruct H as [Hc Hs].
  pose proof (forall_ascii_spec _ F c) as E. cbn beta in E. rewrite Hc in E.
  cbn [implb] in E. apply negb_true_iff in E. rewrite E. now apply IH.
Qed.

Lemma firstMatch_spec (text : string) :
  occurs_in (Refined.firstMatch Refined.datePatterns text) text
  /\ (Refined.firstMatch Refined.datePatterns text = ""
      <-> forall_in is_space text = true).
Proof.
  unfold Refined.datePatterns. cbn [Refined.firstMatch].
  assert (Hne : forall r m,
             starts_with false (fun _ => true) r = true ->
             search false r text = Some m -> group 0 m <> "").
  { intros r m Hr E.
    destruct (search_sound false (fun _ => None) r text m (groups_start_none false r) E)
      as [_ [_ H]].
    specialize (H _ Hr). cbn [group]. destruct (fst m); [discriminate H | discriminate]. }
  assert (Hnone : forall r,
             must_contain false is_digit r = true ->
             forall_in is_space text = true -> search false r text = None).
  { intros r Hr Hb. apply (search_none false is_digit r text Hr). now apply blank_no_digit. }
  repeat match goal with
         | |- context [search false ?r text] =>
             let E := fresh "E" in
             destruct (search false r text) as [m|] eqn:E;
             [ split;
               [ cbn [group]; exact (proj1 (search_decompose false r text m E))
               | split;
                 [ intro H; exfalso; exact (Hne r m eq_refl E H)
                 | intro H; rewrite (Hnone r eq_refl H) in E; discriminate E ] ]
             | ]
         end.
  split; [apply trim_occurs | apply trim_blank].
Qed.

(** ** The two thresholds *)

Lemma equal_length_not_flagged (a b : Buffer) :
  List.length a = List.length b ->
  ChangeSpec.isSignificantChange a b = false
  /\ ChangeSpec.isSignificantChange_revised a b = false.
Proof.
  intro E. destruct a as [|x a].
  - destruct b; [|discriminate E]. split; reflexivity.
  - assert (Hne : x :: a <> []) by discriminate.
    split.
    + destruct (ChangeSpec.isSignificantChange (x :: a) b) eqn:H; [|reflexivity].
      apply (isSignificantChange_iff _ b Hne) in H. rewrite E in H. lia.
    + destruct (ChangeSpec.isSignificantChange_revised (x :: a) b) eqn:H; [|reflexivity].
      apply (isSignificantChange_revised_iff _ b Hne) in H. rewrite E in H. lia.
Qed.

Lemma empty_baseline_flagged (x : byte) (rest : Buffer) :
  ChangeSpec.isSignificantChange [] (x :: rest) = true
  /\ ChangeSpec.isSignificantChange_revised [] (x :: rest) = true.
Proof.
  unfold ChangeSpec.isSignificantChange, ChangeSpec.isSignificantChange_revised,
    Enhanced.compareScreenshots, Revised.hasSignificantChanges.
  cbn [List.length]. rewrite percent_empty_baseline. split; reflexivity.
Qed.

Lemma revised_implies_enhanced (a b : Buffer) :
  ChangeSpec.isSignificantChange_revised a b = true ->
  ChangeSpec.isSignificantChange a b = true.
Proof.
  destruct a as [|x a].
  - destruct b as [|y b]; [discriminate|]. intros _.
    exact (proj1 (empty_baseline_flagged y b)).
  - assert (Hne : x :: a <> []) by discriminate. intro H.
    apply (isSignificantChange_revised_iff _ b Hne) in H.
    apply (isSignificantChange_iff _ b Hne). lia.
Qed.

(** ** The investigation script *)



(** ** The search for the history icon *)

Lemma revised_detector_run {D} (before after : Buffer) (w : World D) :
  Revised.hasSignificantChanges before after w
  = (Normal (ChangeSpec.isSignificantChange_revised before after),
     ChangeSpec.logged
       (ChangeSpec.percent_of_lengths (Z.of_nat (List.length before))
                                      (Z.of_nat (List.length after))) w).
Proof. reflexivity. Qed.

Lemma stepped_positions : RevisedSession.possibleIconPositions = [400; 460; 520; 580]%Z.
Proof. reflexivity. Qed.

(** A column whose click does not change the screen: the search goes on. *)
Lemma find_icon_miss (page : RevisedSession.Page) (x : Z) (rest : list Z)
      (w : World unit) (shots : Buffer * Buffer) :
  RevisedSession.iconTry page x = Normal shots ->
  RevisedSpec.activates page x = false ->
  RevisedSession.find_icon page (x :: rest) w
  = RevisedSession.find_icon page rest
      (mkWorld (w_log w ++ RevisedSpec.miss_lines page x) (w_files w)).
Proof.
  intros Hs Ha. cbn [RevisedSession.find_icon].
  erewrite bind_normal by (apply log_run).
  erewrite bind_normal by (unfold await; rewrite Hs; reflexivity).
  erewrite bind_normal by (apply revised_detector_run).
  unfold RevisedSpec.activates in Ha. rewrite Hs in Ha. rewrite Ha.
  unfold RevisedSpec.miss_lines, RevisedSpec.icon_percent, ChangeSpec.logged.
  rewrite Hs. cbn [w_log w_files]. now rewrite <- app_assoc.
Qed.

(** A column whose click changes the screen: the search ends there. *)
Lemma find_icon_hit (page : RevisedSession.Page) (x : Z) (rest : list Z)
      (w : World unit) (shots : Buffer * Buffer) :
  RevisedSession.iconTry page x = Normal shots ->
  RevisedSpec.activates page x = true ->
  RevisedSession.find_icon page (x :: rest) w
  = (Normal true, mkWorld (w_log w ++ RevisedSpec.hit_lines page x) (w_files w)).
Proof.
  intros Hs Ha. cbn [RevisedSession.find_icon].
  erewrite bind_normal by (apply log_run).
  erewrite bind_normal by (unfold await; rewrite Hs; reflexivity).
  erewrite bind_normal by (apply revised_detector_run).
  unfold RevisedSpec.activates in Ha. rewrite Hs in Ha. rewrite Ha.
  erewrite bind_normal by (apply log_run).
  unfold RevisedSpec.hit_lines, RevisedSpec.miss_lines, RevisedSpec.icon_percent,
    ChangeSpec.logged, ret.
  rewrite Hs. cbn [w_log w_files]. repeat rewrite <- app_assoc. reflexivity.
Qed.

Lemma find_icon_run (page : RevisedSession.Page) (before : list Z) :
  forall (w : World unit),
    (forall x, In x before ->
               (exists shots, RevisedSession.iconTry page x = Normal shots)
               /\ RevisedSpec.activates page x = false) ->
    (forall x after shots,
        RevisedSession.iconTry page x = Normal shots ->
        RevisedSpec.activates page x = true ->
        RevisedSession.find_icon page (before ++ x :: after) w
        = (Normal true,
           mkWorld (w_log w ++ flat_map (RevisedSpec.miss_lines page) before
                    ++ RevisedSpec.hit_lines page x) (w_files w)))
    /\ RevisedSession.find_icon page before w
       = (Normal false,
          mkWorld (w_log w ++ flat_map (RevisedSpec.miss_lines page) before) (w_files w)).
Proof.
  induction before as [|y before IH]; intros w Hmiss.
  - split.
    + intros x after shots Hs Ha. cbn [app flat_map].
      now rewrite (find_icon_hit page x after w shots Hs Ha).
    + cbn. now rewrite app_nil_r, world_eta.
  - destruct (Hmiss y (or_introl eq_refl)) as [[shots Hy] Hn].
    assert (Hrest : forall x, In x before ->
               (exists shots, RevisedSession.iconTry page x = Normal shots)
               /\ RevisedSpec.activates page x = false)
      by (intros x Hx; apply Hmiss; now right).
    split.
    + intros x after shots' Hs Ha. cbn [app].
      rewrite (find_icon_miss page y _ w shots Hy Hn).
      rewrite (proj1 (IH _ Hrest) x after shots' Hs Ha).
      cbn [w_log w_files flat_map]. repeat rewrite <- app_assoc. reflexivity.
    + rewrite (find_icon_miss page y _ w shots Hy Hn).
      rewrite (proj2 (IH _ Hrest)).
      cbn [w_log w_files flat_map]. repeat rewrite <- app_assoc. reflexivity.
Qed.

(* ================================================================== *)
(** * The canonical label, layout by layout and in the scan loop *)
(* ================================================================== *)

(** A run of characters of one kind does not start with, and does not
    hold, a character of a kind disjoint from it. *)
Lemma starts_disjoint (P Q : ascii -> bool) (t rest : string) :
  forall_ascii (fun c => implb (P c) (negb (Q c))) = true ->
  forall_in P t = true -> (1 <= String.length t)%nat ->
  starts Q (t ++ rest) = false.
Proof.
  intros F Ht Lt. destruct t as [|c t]; [cbn in Lt; lia|].
  cbn [forall_in] in Ht. apply andb_true_iff in Ht. destruct Ht as [Hc _].
  pose proof (forall_ascii_spec _ F c) as E. cbn beta in E. rewrite Hc in E.
  cbn [implb] in E. apply negb_true_iff in E. exact E.
Qed.

Lemma exists_in_disjoint (P Q : ascii -> bool) (t : string) :
  forall_ascii (fun c => implb (P c) (negb (Q c))) = true ->
  forall_in P t = true -> exists_in Q t = false.
Proof.
  intros F. induction t as [|c t IH]; [reflexivity|].
  cbn [forall_in exists_in]. intro Ht.
  apply andb_true_iff in Ht. destruct Ht as [Hc Ht].
  pose proof (forall_ascii_spec _ F c) as E. cbn beta in E. rewrite Hc in E.
  cbn [implb] in E. apply negb_true_iff in E. rewrite E. now apply IH.
Qed.

Lemma forall_in_class (P : ascii -> bool) (icase : bool) (cl : cclass) (t : string) :
  forall_ascii (fun c => implb (P c) (cmatch icase cl c)) = true ->
  forall_in P t = true -> forall_in (cmatch icase cl) t = true.
Proof.
  intro F. apply forall_in_weaken. intros c Hc.
  pose proof (forall_ascii_spec _ F c) as E. cbn beta in E. now rewrite Hc in E.
Qed.

(** The leftmost match of [regexMonth] on a word, white space, a day,
    commas or white space, and a year. *)
Lemma regexMonth_layout (abc tail ws d sep y : string) :
  forall_in is_letter abc = true -> String.length abc = 3%nat ->
  forall_in is_letter tail = true ->
  forall_in is_space ws = true -> (1 <= String.length ws)%nat ->
  all_digits d = true -> (1 <= String.length d <= 2)%nat ->
  forall_in is_sep sep = true -> (1 <= String.length sep)%nat ->
  all_digits y = true -> String.length y = 4%nat ->
  search true regexMonth (abc ++ tail ++ ws ++ d ++ sep ++ y)
  = Some (abc ++ tail ++ ws ++ d ++ sep ++ y, [(3, y); (2, d); (1, abc)]%nat).
Proof.
  intros Ha La Ht Hw Lw Hd Ld Hs Ls Hy Ly.
  destruct (letters_class abc Ha) as [Ha' _]. destruct (letters_class tail Ht) as [Ht' _].
  apply search_here. unfold match_here, regexMonth. cbn [rx].
  apply rep_take; [exact Ha' | lia | lia | left; now rewrite La | cbv beta].
  apply rep_take; [exact Ht' | lia | exact I | right | cbv beta].
  { apply (starts_disjoint is_space); [vm_compute; reflexivity | exact Hw | exact Lw]. }
  apply rep_take; [exact Hw | lia | exact I
    | right; apply starts_digits; [assumption | lia | reflexivity] | cbv beta].
  apply rep_take; [now apply all_digits_class | lia | lia | right | cbv beta].
  { apply (starts_disjoint is_sep); [vm_compute; reflexivity | exact Hs | exact Ls]. }
  apply rep_take;
    [apply (forall_in_class is_sep); [vm_compute; reflexivity | exact Hs]
    | lia | exact I | | cbv beta].
  { right. rewrite <- (append_nil_r y).
    apply starts_digits; [assumption | lia | reflexivity]. }
  apply rep_take_all; [now apply all_digits_class | lia | lia | cbv beta].
  rewrite !consumed_nil, !consumed_app. reflexivity.
Qed.

Lemma format_month_layout (abc tail ws d sep y : string) :
  forall_in is_letter abc = true -> String.length abc = 3%nat ->
  forall_in is_letter tail = true ->
  forall_in is_space ws = true -> (1 <= String.length ws)%nat ->
  all_digits d = true -> (1 <= String.length d <= 2)%nat ->
  forall_in is_sep sep = true -> (1 <= String.length sep)%nat ->
  all_digits y = true -> String.length y = 4%nat ->
  formatDateForFilename (Some (abc ++ tail ++ ws ++ d ++ sep ++ y))
  = y ++ "-" ++ lookup (toLowerCase abc) monthNames ++ "-" ++ padStart 2 "0" d.
Proof.
  intros Ha La Ht Hw Lw Hd Ld Hs Ls Hy Ly.
  unfold formatDateForFilename.
  rewrite (regexMonth_layout abc tail ws d sep y Ha La Ht Hw Lw Hd Ld Hs Ls Hy Ly).
  replace (search false regexSlash (abc ++ tail ++ ws ++ d ++ sep ++ y)) with
    (@None (string * caps)).
  - destruct abc as [|c abc]; [discriminate La|]. reflexivity.
  - symmetry. apply (search_none false (Ascii.eqb "/")); [vm_compute; reflexivity|].
    rewrite !exists_in_app.
    rewrite (proj2 (letters_class abc Ha)), (proj2 (letters_class tail Ht)),
      (exists_in_disjoint is_space (Ascii.eqb "/") ws eq_refl Hw),
      (exists_in_digits (Ascii.eqb "/") d Hd eq_refl),
      (exists_in_disjoint is_sep (Ascii.eqb "/") sep eq_refl Hs),
      (exists_in_digits (Ascii.eqb "/") y Hy eq_refl).
    reflexivity.
Qed.

(** A text that lower-cases to a key of the month table is three letters. *)
Lemma month_key_letters (mon mm : string) :
  In (toLowerCase mon, mm) monthNames ->
  forall_in is_letter mon = true /\ String.length mon = 3%nat
  /\ lookup (toLowerCase mon) monthNames = mm.
Proof.
  intro Hin. destruct (months_shape mon mm Hin) as [Hl [Ll [_ Hk]]].
  split; [|now split].
  revert Hl. apply forall_in_weaken. intros c Hc.
  assert (F : forall_ascii
                (fun c => implb (cmatch true (CRange "a" "z") c) (is_letter c)) = true)
    by (vm_compute; reflexivity).
  pose proof (forall_ascii_spec _ F c) as E. cbn beta in E. now rewrite Hc in E.
Qed.

(** C4.  [formatDateForFilename] turns an MM/DD/YYYY text (one or two
    digits, one or two digits, four digits) into the zero-padded
    YYYY-MM-DD, and likewise a month text: a word whose first three
    letters are a key of the month table, in any letter case, white
    space, a day of one or two digits, commas or white space, and a year
    of four digits, which covers "Mon DD, YYYY" and "Mon DD YYYY".
    "3/20/2016" gives "2016-03-20" and "Jan 19, 2024" gives "2024-01-19".
    In the scan loop the label of a sample is the one logged in its
    "Position N" line and stored with a unique frame: it is the
    normalised date when the OCR extraction yields a date of one of the
    two layouts, and "est_" followed by the sample's estimated year when
    the extraction yields no date, a failure of the OCR worker
    included. *)
Theorem canonical_date_format :
  (forall m d y : string,
      all_digits m = true -> (1 <= String.length m <= 2)%nat ->
      all_digits d = true -> (1 <= String.length d <= 2)%nat ->
      all_digits y = true -> String.length y = 4%nat ->
      formatDateForFilename (Some (m ++ "/" ++ d ++ "/" ++ y))
      = y ++ "-" ++ padStart 2 "0" m ++ "-" ++ padStart 2 "0" d)
  /\ (forall mon mm tail ws d sep y : string,
      In (toLowerCase mon, mm) monthNames ->
      forall_in is_letter tail = true ->
      forall_in is_space ws = true -> (1 <= String.length ws)%nat ->
      all_digits d = true -> (1 <= String.length d <= 2)%nat ->
      forall_in is_sep sep = true -> (1 <= String.length sep)%nat ->
      all_digits y = true -> String.length y = 4%nat ->
      formatDateForFilename (Some (mon ++ tail ++ ws ++ d ++ sep ++ y))
      = y ++ "-" ++ mm ++ "-" ++ padStart 2 "0" d)
  /\ formatDateForFilename (Some "3/20/2016") = "2016-03-20"
  /\ formatDateForFilename (Some "Jan 19, 2024") = "2024-01-19"
  /\ formatDateForFilename (Some "Jan 19 2024") = "2024-01-19"
  /\ (forall i : nat,
      canonical (Normal "3/20/2016") i = "2016-03-20"
      /\ canonical (Normal "Jan 19, 2024") i = "2024-01-19")
  /\ (forall (recognized : Completion string) (i : nat),
      date (ocr_of recognized) = None ->
      canonical recognized i = "est_" ++ Num.to_string (year_at i))
  /\ (forall (page : Page) (i : nat) (st : ScanState) (w : World Doc) (p : Probe),
      probe page i = Normal p ->
      exists img w',
        explore page i st w
        = (Normal (if ChangeSpec.isSignificantChange (baselineData st) (currentData p)
                   then mkScan (currentData p) (captured st ++ [img])
                   else st), w')
        /\ In (Line ("Position " ++ Num.to_string (Z.of_nat (i + 1))
                     ++ ": Detected date text: " ++ dquote
                     ++ or_else (raw (ocr_of (recognized p))) "None" ++ dquote
                     ++ ", Formatted: " ++ formattedDate img))
              (w_log w')
        /\ estimatedYear img = estimateYearFromPosition (inject_Z (pointX img))
        /\ (date (ocr_of (recognized p)) = None ->
            formattedDate img = "est_" ++ Num.to_string (estimatedYear img))
        /\ (forall m d y : string,
            all_digits m = true -> (1 <= String.length m <= 2)%nat ->
            all_digits d = true -> (1 <= String.length d <= 2)%nat ->
            all_digits y = true -> String.length y = 4%nat ->
            date (ocr_of (recognized p)) = Some (m ++ "/" ++ d ++ "/" ++ y) ->
            formattedDate img = y ++ "-" ++ padStart 2 "0" m ++ "-" ++ padStart 2 "0" d)
        /\ (forall mon mm ws d sep y : string,
            In (toLowerCase mon, mm) monthNames ->
            forall_in is_space ws = true -> (1 <= String.length ws)%nat ->
            all_digits d = true -> (1 <= String.length d <= 2)%nat ->
            forall_in is_sep sep = true -> (1 <= String.length sep)%nat ->
            all_digits y = true -> String.length y = 4%nat ->
            date (ocr_of (recognized p)) = Some (mon ++ ws ++ d ++ sep ++ y) ->
            formattedDate img = y ++ "-" ++ mm ++ "-" ++ padStart 2 "0" d)).
Proof.
  assert (Hmonth : forall mon mm tail ws d sep y : string,
             In (toLowerCase mon, mm) monthNames ->
             forall_in is_letter tail = true ->
             forall_in is_space ws = true -> (1 <= String.length ws)%nat ->
             all_digits d = true -> (1 <= String.length d <= 2)%nat ->
             forall_in is_sep sep = true -> (1 <= String.length sep)%nat ->
             all_digits y = true -> String.length y = 4%nat ->
             formatDateForFilename (Some (mon ++ tail ++ ws ++ d ++ sep ++ y))
             = y ++ "-" ++ mm ++ "-" ++ padStart 2 "0" d).
  { intros mon mm tail ws d sep y Hin Ht Hw Lw Hd Ld Hs Ls Hy Ly.
    destruct (month_key_letters mon mm Hin) as [Hm [Lm Hk]].
    rewrite (format_month_layout mon tail ws d sep y Hm Lm Ht Hw Lw Hd Ld Hs Ls Hy Ly).
    now rewrite Hk. }
  assert (Hlabel : forall (recognized : Completion string) (i : nat) (c : ascii)
                          (rest : string),
             date (ocr_of recognized) = Some (String c rest) ->
             canonical recognized i = formatDateForFilename (Some (String c rest))).
  { intros recognized i c rest E. unfold canonical. now rewrite E. }
  split; [exact format_slash|]. split; [exact Hmonth|].
  split; [reflexivity|]. split; [reflexivity|]. split; [reflexivity|]. split.
  { intro i. split; reflexivity. }
  split.
  { intros recognized i H. unfold canonical. now rewrite H. }
  intros page i st w p Hp.
  exists (sample i p (baselineData st)). eexists.
  split; [exact (explore_run page i st w p Hp)|].
  cbn [w_log]. unfold sample. cbn [formattedDate estimatedYear pointX].
  split.
  { apply in_or_app. right. apply in_or_app. right. apply in_or_app. right.
    left. reflexivity. }
  split; [reflexivity|]. split.
  { intro H. unfold canonical. now rewrite H. }
  split.
  - intros m d y Hm Lm Hd Ld Hy Ly E.
    rewrite <- (format_slash m d y Hm Lm Hd Ld Hy Ly).
    destruct m as [|c m]; [cbn in Lm; lia|]. exact (Hlabel _ i _ _ E).
  - intros mon mm ws d sep y Hin Hw Lw Hd Ld Hs Ls Hy Ly E.
    rewrite <- (Hmonth mon mm "" ws d sep y Hin eq_refl Hw Lw Hd Ld Hs Ls Hy Ly).
    destruct (month_key_letters mon mm Hin) as [_ [Lm _]].
    destruct mon as [|c mon]; [discriminate Lm|]. exact (Hlabel _ i _ _ E).
Qed.

Lemma canonical_date_format_witness :
  formatDateForFilename (Some ("12" ++ "/" ++ "5" ++ "/" ++ "2019"))
  = "2019" ++ "-" ++ padStart 2 "0" "12" ++ "-" ++ padStart 2 "0" "5"
  /\ formatDateForFilename (Some ("Sep" ++ "tember" ++ "  " ++ "7" ++ " , " ++ "2021"))
     = "2021" ++ "-" ++ "09" ++ "-" ++ padStart 2 "0" "7".
Proof.
  split.
  - apply (proj1 canonical_date_format "12" "5" "2019");
      try reflexivity; cbn; lia.
  - apply (proj1 (proj2 canonical_date_format) "Sep" "09" "tember" "  " "7" " , " "2021");
      try reflexivity; cbn; try lia. tauto.
Defined.

(* ================================================================== *)
(** * Further properties of the scripts *)
(* ================================================================== *)

(** ** Labels ([formatDateForFilename], [extractDateFromImage]) *)

(** X1.  Whatever its argument, [formatDateForFilename] returns a text
    made of letters, digits, hyphens and underscores only: a label never
    holds a path separator, a dot or white space. *)
Theorem format_filename_safe (dateString : option string) :
  forall_in filename_char (formatDateForFilename dateString) = true.
Proof. apply format_safe. Qed.

(** X2.  A text that holds a date digits/digits/four digits anywhere is
    labelled by a date of the form YYYY-MM-DD, month and day padded to
    two digits. *)
Theorem format_slash_date_anywhere (s t : string) :
  slash_date t -> occurs_in t s -> iso_date (formatDateForFilename (Some s)).
Proof. apply format_iso. Qed.

Lemma format_slash_date_anywhere_witness :
  iso_date (formatDateForFilename (Some "Imagery date: 3/20/2016 (older)")).
Proof.
  apply (format_slash_date_anywhere "Imagery date: 3/20/2016 (older)" "3/20/2016").
  - exists "3", "20", "2016". repeat split; cbn; lia.
  - exists "Imagery date: ", " (older)". reflexivity.
Defined.

(** X3.  A non-empty text without a slash and without white space is not
    read as a date: every comma and colon becomes a hyphen and every
    character other than a letter, a digit, a hyphen or an underscore is
    dropped.  A non-empty text of such characters only is returned as it
    is, so that formatting a non-empty label again changes nothing. *)
Theorem format_without_separators :
  (forall s : string,
      s <> "" ->
      exists_in (fun c => Ascii.eqb "/" c || is_space c) s = false ->
      formatDateForFilename (Some s) = cleanup s)
  /\ (forall s : string,
      s <> "" -> forall_in filename_char s = true ->
      formatDateForFilename (Some s) = s)
  /\ (forall dateString : option string,
      formatDateForFilename dateString <> "" ->
      formatDateForFilename (Some (formatDateForFilename dateString))
      = formatDateForFilename dateString).
Proof.
  assert (H2 : forall s : string,
             s <> "" -> forall_in filename_char s = true ->
             formatDateForFilename (Some s) = s).
  { intros s Hs Hsafe.
    rewrite (format_no_separator s Hs (safe_no_separator s Hsafe)).
    now apply cleanup_id. }
  split; [exact format_no_separator|]. split; [exact H2|].
  intros dateString Hne. apply H2; [exact Hne | apply format_safe].
Qed.

Lemma format_without_separators_witness :
  formatDateForFilename (Some "Jan,19,2024") = cleanup "Jan,19,2024".
Proof.
  apply (proj1 format_without_separators "Jan,19,2024"); [discriminate | reflexivity].
Defined.

(** X4.  On a word of three or more letters followed by a space, a day
    of one or two digits, a comma, a space and a year of four digits,
    the month is looked up by the first three letters of the word in
    lower case: a key of the month table gives YYYY-MM-DD, and any other
    word gives the text "undefined" in the month's place. *)
Theorem format_month_word (abc tail d y : string) :
  forall_in is_letter abc = true -> String.length abc = 3%nat ->
  forall_in is_letter tail = true ->
  all_digits d = true -> (1 <= String.length d <= 2)%nat ->
  all_digits y = true -> String.length y = 4%nat ->
  (forall mm, In (toLowerCase abc, mm) monthNames ->
              formatDateForFilename (Some (abc ++ tail ++ " " ++ d ++ ", " ++ y))
              = y ++ "-" ++ mm ++ "-" ++ padStart 2 "0" d)
  /\ ((forall mm, ~ In (toLowerCase abc, mm) monthNames) ->
      formatDateForFilename (Some (abc ++ tail ++ " " ++ d ++ ", " ++ y))
      = y ++ "-" ++ "undefined" ++ "-" ++ padStart 2 "0" d).
Proof.
  intros Ha La Ht Hd Ld Hy Ly.
  rewrite (format_word abc tail d y Ha La Ht Hd Ld Hy Ly). split.
  - intros mm Hin. now rewrite (lookup_month _ mm Hin).
  - intro Hmiss. now rewrite (lookup_missing _ monthNames Hmiss).
Qed.

Lemma format_month_word_witness :
  (forall mm, In (toLowerCase "Jan", mm) monthNames ->
              formatDateForFilename (Some ("Jan" ++ "uary" ++ " " ++ "19" ++ ", " ++ "2024"))
              = "2024" ++ "-" ++ mm ++ "-" ++ padStart 2 "0" "19")
  /\ ((forall mm, ~ In (toLowerCase "Jan", mm) monthNames) ->
      formatDateForFilename (Some ("Jan" ++ "uary" ++ " " ++ "19" ++ ", " ++ "2024"))
      = "2024" ++ "-" ++ "undefined" ++ "-" ++ padStart 2 "0" "19").
Proof.
  apply (format_month_word "Jan" "uary" "19" "2024"); try reflexivity; cbn; lia.
Defined.

Lemma ocr_raw (text : string) :
  raw (ocr_of (Normal text)) = Some (trim text) /\ error (ocr_of (Normal text)) = None.
Proof.
  unfold ocr_of, extractDateFromImage, try_catch, bind, await. cbn [fst].
  destruct (and_group (search false olderPattern text) 1);
    [|destruct (and_group (search false datePattern text) 1);
      [|destruct (and_group (search true monthPattern text) 0)]];
    split; reflexivity.
Qed.

(** X5.  On a recognised text [extractDateFromImage] logs nothing and
    returns the trimmed text as raw; a date it returns is a part of the
    recognised text, and is either digits/digits/four digits or a month
    abbreviation, a day and a four-digit year with white space or commas
    in between. *)
Theorem ocr_date_part_of_text {D : Type} (text : string) (w : World D) :
  exists r : OcrResult,
    extractDateFromImage (Normal text) w = (Normal r, w)
    /\ raw r = Some (trim text) /\ error r = None
    /\ forall d, date r = Some d -> occurs_in d text /\ (slash_date d \/ month_date d).
Proof.
  exists (ocr_of (Normal text)). rewrite extract_run.
  cbn [EnhancedScan.ocr_lines]. rewrite app_nil_r, world_eta.
  split; [reflexivity|]. destruct (ocr_raw text) as [-> ->].
  split; [reflexivity|]. split; [reflexivity|]. apply ocr_date_shape.
Qed.

Lemma ocr_date_part_of_text_witness :
  exists r : OcrResult,
    extractDateFromImage (Normal "older~3/20/2016") (@empty_world unit)
    = (Normal r, empty_world)
    /\ raw r = Some (trim "older~3/20/2016") /\ error r = None
    /\ forall d, date r = Some d ->
                 occurs_in d "older~3/20/2016" /\ (slash_date d \/ month_date d).
Proof. apply (ocr_date_part_of_text "older~3/20/2016" empty_world). Defined.

(** X6.  When the recognised text holds a date digits/digits/four digits
    anywhere, the date extracted is of that form (a month date elsewhere
    in the text does not take its place), and the sample's label is of
    the form YYYY-MM-DD. *)
Theorem ocr_slash_date_label (text t : string) (i : nat) :
  slash_date t -> occurs_in t text ->
  exists d,
    date (ocr_of (Normal text)) = Some d /\ slash_date d /\ occurs_in d text
    /\ iso_date (canonical (Normal text) i).
Proof.
  intros Ht Hocc. destruct (ocr_slash_first text t Ht Hocc) as [d [E [Hd Ho]]].
  exists d. repeat split; try assumption.
  exact (slash_date_label d (Normal text) i E Hd).
Qed.

Lemma ocr_slash_date_label_witness :
  exists d,
    date (ocr_of (Normal "Jan 19, 2024 older~3/20/2016")) = Some d
    /\ slash_date d /\ occurs_in d "Jan 19, 2024 older~3/20/2016"
    /\ iso_date (canonical (Normal "Jan 19, 2024 older~3/20/2016") 0).
Proof.
  apply (ocr_slash_date_label "Jan 19, 2024 older~3/20/2016" "3/20/2016" 0).
  - exists "3", "20", "2016". repeat split; cbn; lia.
  - exists "Jan 19, 2024 older~", "". reflexivity.
Defined.

(** ** The Enhanced scan and session *)

(** X7.  A failure of the OCR worker does not end the scan.
    [extractDateFromImage] catches it, logs "OCR error: <message>" and
    returns no date and no raw text.  The pass goes on: after its
    "Exploring position" line it logs the error, the date text as "None"
    with the label est_<estimated year>, and the size difference; the
    frame is compared with the baseline as in any other pass, and exactly
    when it is flagged it is copied as accra__ghana_est_<year>.png,
    recorded under that label with no detected text, and made the new
    baseline.  Otherwise the state of the scan is unchanged. *)
Theorem ocr_failure_keeps_scanning :
  (forall (e : string) (w : World Doc),
      extractDateFromImage (Throw e) w
      = (Normal (mkOcr None None (Some e)),
         mkWorld (w_log w ++ [Line ("OCR error: " ++ e)]) (w_files w)))
  /\ (forall (page : Page) (i : nat) (st : ScanState) (w : World Doc)
             (p : Probe) (e : string),
      probe page i = Normal p -> recognized p = Throw e ->
      let flagged := ChangeSpec.isSignificantChange (baselineData st) (currentData p) in
      let pd := percentDiff_of (baselineData st) (currentData p) in
      let estimate := "est_" ++ Num.to_string (year_at i) in
      exists img,
        explore page i st w
        = (Normal (if flagged
                   then mkScan (currentData p) (captured st ++ [img])
                   else st),
           mkWorld (w_log w
                    ++ [ Line (exploring_line i);
                         Line ("OCR error: " ++ e);
                         Line ("Position " ++ Num.to_string (Z.of_nat (i + 1))
                               ++ ": Detected date text: " ++ dquote ++ "None" ++ dquote
                               ++ ", Formatted: " ++ estimate);
                         ImageSizeDifference pd ]
                    ++ (if flagged then [FoundUniqueImage (i + 1) pd] else []))
                   (w_files w
                    ++ (if flagged
                        then [("accra__ghana_" ++ estimate ++ ".png", Png (currentData p))]
                        else [])))
        /\ position img = (i + 1)%nat
        /\ estimatedYear img = year_at i
        /\ formattedDate img = estimate
        /\ detectedDateText img = None
        /\ uniquePath img = "accra__ghana_" ++ estimate ++ ".png").
Proof.
  split; [intros e w; reflexivity|].
  intros page i st w p e Hp Hr flagged pd estimate.
  exists (sample i p (baselineData st)).
  split.
  - rewrite (explore_run page i st w p Hp). cbv zeta. fold flagged. fold pd.
    rewrite Hr. reflexivity.
  - unfold sample.
    cbn [position estimatedYear formattedDate detectedDateText uniquePath].
    rewrite Hr. repeat split; reflexivity.
Qed.

Lemma ocr_failure_keeps_scanning_witness :
  exists img,
    explore Runs.ocr_down 0 (mkScan (frame_of_size 100) []) empty_world
    = (Normal (mkScan (frame_of_size 110) [img]),
       mkWorld [ Line (exploring_line 0);
                 Line "OCR error: Failed to load language eng";
                 Line ("Position 1: Detected date text: " ++ dquote ++ "None" ++ dquote
                       ++ ", Formatted: est_2015");
                 ImageSizeDifference (Num.Fin 10);
                 FoundUniqueImage 1 (Num.Fin 10) ]
               [("accra__ghana_est_2015.png", Png (frame_of_size 110))])
    /\ position img = 1%nat
    /\ estimatedYear img = 2015%Z
    /\ formattedDate img = "est_2015"
    /\ detectedDateText img = None
    /\ uniquePath img = "accra__ghana_est_2015.png".
Proof.
  exact (proj2 ocr_failure_keeps_scanning Runs.ocr_down 0%nat
           (mkScan (frame_of_size 100) []) empty_world
           (mkProbe (frame_of_size 110) (Throw "Failed to load language eng"))
           "Failed to load language eng" eq_refl eq_refl).
Defined.

(** X8.  The column of loop index i is 1100 + floor((100 i + 3) / 6):
    the columns are strictly increasing, at least 16 pixels apart, and
    those of the 30 positions lie between timelineStart and timelineEndX
    (the latter excluded).  The estimated years never decrease along the
    scan and range from 2015 to 2024. *)
Theorem scan_columns_and_years :
  (forall i : nat, pointX_at i = (1100 + (100 * Z.of_nat i + 3) / 6)%Z)
  /\ (forall i : nat, (pointX_at i + 16 <= pointX_at (S i))%Z)
  /\ (forall i j : nat, (i < j)%nat -> (pointX_at i < pointX_at j)%Z)
  /\ (forall i : nat, (i < numPoints)%nat ->
                      (timelineStart <= pointX_at i < timelineEndX)%Z)
  /\ (forall i j : nat, (i <= j)%nat -> (year_at i <= year_at j)%Z)
  /\ (forall i : nat, (i < numPoints)%nat -> (2015 <= year_at i <= 2024)%Z)
  /\ year_at 0 = 2015%Z /\ year_at 29 = 2024%Z.
Proof.
  split; [exact pointX_closed|]. split; [exact pointX_step|].
  split; [exact pointX_increasing|]. split; [exact pointX_bounds|].
  split; [exact year_monotone|]. split; [exact year_bounds|].
  split; reflexivity.
Qed.

Lemma scan_columns_and_years_witness : (pointX_at 3 < pointX_at 12)%Z.
Proof.
  apply (proj1 (proj2 (proj2 scan_columns_and_years)) 3%nat 12%nat). lia.
Defined.

(** X9.  After a scan whose probes all resolve, the array of captured
    images holds at most numPoints records, in scan order: the positions
    are strictly increasing and lie between 1 and numPoints, the column,
    the estimated year and the date-display path of a record are those of
    its position, the estimated years never decrease along the array, and
    every marker of the report's timeline lies between 0 and 100 percent
    of the strip (100 excluded). *)
Theorem captured_images_in_scan_order (page : Page) (b0 : Buffer) (w : World Doc) :
  (forall i, (i < numPoints)%nat -> exists p, probe page i = Normal p) ->
  exists st w',
    scan page b0 w = (Normal st, w')
    /\ (List.length (captured st) <= numPoints)%nat
    /\ StronglySorted lt (map position (captured st))
    /\ StronglySorted Z.le (map estimatedYear (captured st))
    /\ Forall (fun img =>
                 (1 <= position img <= numPoints)%nat
                 /\ pointX img = pointX_at (position img - 1)
                 /\ estimatedYear img = year_at (position img - 1)
                 /\ dateDisplayPath img
                    = "date_display_" ++ Num.to_string (Z.of_nat (position img)) ++ ".png")
              (captured st)
    /\ Forall (fun marker => (0 <= marker_left marker)%Q /\ (marker_left marker < 100)%Q)
              (report_timeline (buildReport (captured st))).
Proof. apply scan_images. Qed.

Lemma captured_images_in_scan_order_witness :
  exists st w',
    scan example_page (frame_of_size 100) empty_world = (Normal st, w')
    /\ (List.length (captured st) <= numPoints)%nat
    /\ StronglySorted lt (map position (captured st))
    /\ StronglySorted Z.le (map estimatedYear (captured st))
    /\ Forall (fun img =>
                 (1 <= position img <= numPoints)%nat
                 /\ pointX img = pointX_at (position img - 1)
                 /\ estimatedYear img = year_at (position img - 1)
                 /\ dateDisplayPath img
                    = "date_display_" ++ Num.to_string (Z.of_nat (position img)) ++ ".png")
              (captured st)
    /\ Forall (fun marker => (0 <= marker_left marker)%Q /\ (marker_left marker < 100)%Q)
              (report_timeline (buildReport (captured st))).
Proof.
  apply (captured_images_in_scan_order example_page (frame_of_size 100) empty_world).
  intros i Hi. eexists. reflexivity.
Defined.

(** X10.  After a scan whose probes all resolve, the files written are
    the copies of the captured images, one each and in scan order: the
    copy of an image is named "accra__ghana_<label>.png" and holds the
    frame probed at the image's position.  Two captured images have the
    same file name exactly when they have the same label, so that the
    later copy then replaces the earlier one. *)
Theorem unique_copies_named_by_label (page : Page) (b0 : Buffer) (w : World Doc) :
  (forall i, (i < numPoints)%nat -> exists p, probe page i = Normal p) ->
  exists st w',
    scan page b0 w = (Normal st, w')
    /\ w_files w'
       = (w_files w
          ++ map (fun img => (uniquePath img, Png (frame page (position img - 1))))
                 (captured st))%list
    /\ Forall (fun img =>
                 uniquePath img = "accra__ghana_" ++ formattedDate img ++ ".png")
              (captured st)
    /\ forall img1 img2,
         In img1 (captured st) -> In img2 (captured st) ->
         (uniquePath img1 = uniquePath img2 <-> formattedDate img1 = formattedDate img2).
Proof.
  intro Hok. destruct (scan_copies page b0 w Hok) as [st [w' [E [Hf Hn]]]].
  exists st, w'. split; [exact E|]. split; [exact Hf|]. split; [exact Hn|].
  intros img1 img2 H1 H2. rewrite Forall_forall in Hn.
  rewrite (Hn img1 H1), (Hn img2 H2).
  exact (unique_name_inj (formattedDate img1) (formattedDate img2)).
Qed.

Lemma unique_copies_named_by_label_witness :
  exists st w',
    scan example_page (frame_of_size 100) empty_world = (Normal st, w')
    /\ w_files w'
       = (w_files (@empty_world Doc)
          ++ map (fun img => (uniquePath img, Png (frame example_page (position img - 1))))
                 (captured st))%list
    /\ Forall (fun img =>
                 uniquePath img = "accra__ghana_" ++ formattedDate img ++ ".png")
              (captured st)
    /\ forall img1 img2,
         In img1 (captured st) -> In img2 (captured st) ->
         (uniquePath img1 = uniquePath img2 <-> formattedDate img1 = formattedDate img2).
Proof.
  apply (unique_copies_named_by_label example_page (frame_of_size 100) empty_world).
  intros i Hi. eexists. reflexivity.
Defined.



(** ** The Refined scan and session *)



(** X13.  After the dots of a Refined scan, all probes and screenshots
    resolving, the map of captured dates has one entry per distinct
    non-empty date text detected, at most one per dot, and the entry of a
    date records the last dot at which that text was detected: its
    position, its column (400 + 40 i for loop index i) and the path of
    the screenshot taken there.  The scan itself writes no file. *)
Theorem captured_dates_keep_last_position (page : Refined.Page) (n : nat)
        (w : World Refined.Doc) :
  (forall i, (i < n)%nat -> exists recognized, Refined.probe page i = Normal recognized) ->
  (forall i date, (i < n)%nat -> detected page i = Some date ->
                  Refined.highRes page i = Normal tt) ->
  (exists capturedDates w',
      for_loop n 0 (Refined.click_dot page) [] w = (Normal capturedDates, w')
      /\ w_files w' = w_files w
      /\ NoDup (map fst capturedDates)
      /\ (List.length capturedDates <= n)%nat
      /\ forall date info,
           In (date, info) capturedDates
           <-> exists i, (i < n)%nat /\ detected page i = Some date
                         /\ (forall i', (i < i' < n)%nat -> detected page i' <> Some date)
                         /\ info = info_at i date)
  /\ forall i date, Refined.x (info_at i date) = (400 + 40 * Z.of_nat i)%Z
                    /\ Refined.position (info_at i date) = (i + 1)%nat.
Proof.
  intros Hok Hhigh. split; [exact (refined_scan_run page n w Hok Hhigh)|].
  intros i date. split; [apply dotX_closed | reflexivity].
Qed.

Lemma captured_dates_keep_last_position_witness :
  (exists capturedDates w',
      for_loop 30 0 (Refined.click_dot Runs.activates_at_second) [] empty_world
      = (Normal capturedDates, w')
      /\ w_files w' = w_files (@empty_world Refined.Doc)
      /\ NoDup (map fst capturedDates)
      /\ (List.length capturedDates <= 30)%nat
      /\ forall date info,
           In (date, info) capturedDates
           <-> exists i, (i < 30)%nat /\ detected Runs.activates_at_second i = Some date
                         /\ (forall i', (i < i' < 30)%nat ->
                                        detected Runs.activates_at_second i' <> Some date)
                         /\ info = info_at i date)
  /\ forall i date, Refined.x (info_at i date) = (400 + 40 * Z.of_nat i)%Z
                    /\ Refined.position (info_at i date) = (i + 1)%nat.
Proof.
  apply (captured_dates_keep_last_position Runs.activates_at_second 30%nat empty_world).
  - intros i Hi. eexists. reflexivity.
  - intros i date Hi Hd. reflexivity.
Defined.

(** X14.  The activation loop stops at the first attempt after which
    the "Deactivate" button shows: when that is attempt k + 1, with
    k < MAX_RETRIES, the k attempts before it are logged as retried, the
    last one as successful, and no further click is made. *)
Theorem activation_stops_at_first_success {D : Type} (page : Refined.Page) (k : nat)
        (w : World D) :
  (k < Refined.MAX_RETRIES)%nat ->
  (forall n, (n < k)%nat ->
             Refined.click page n = Normal tt /\ Refined.attempt page n = Normal false) ->
  Refined.click page k = Normal tt ->
  Refined.attempt page k = Normal true ->
  Refined.activate page Refined.MAX_RETRIES 0 w
  = (Normal true,
     mkWorld (w_log w ++ flat_map failed_attempt_lines (seq 0 k)
              ++ successful_attempt_lines k)
             (w_files w)).
Proof.
  intros Hk Hfail Hc Ha.
  apply (activate_succeeds page k Refined.MAX_RETRIES 0 w Hk);
    [intros n Hn; apply Hfail; lia | exact Hc | exact Ha].
Qed.

Lemma activation_stops_at_first_success_witness :
  Refined.activate Runs.activates_at_second Refined.MAX_RETRIES 0 (@empty_world unit)
  = (Normal true,
     mkWorld (w_log (@empty_world unit) ++ flat_map failed_attempt_lines (seq 0 1)
              ++ successful_attempt_lines 1)
             (w_files (@empty_world unit))).
Proof.
  apply (activation_stops_at_first_success Runs.activates_at_second 1 empty_world).
  - unfold Refined.MAX_RETRIES. lia.
  - intros n Hn. assert (n = 0)%nat by lia. subst n. split; reflexivity.
  - reflexivity.
  - reflexivity.
Defined.

(** X15.  On a recognised text the Refined [extractDateFromImage] logs
    nothing and returns a part of that text, which is empty exactly when
    the text is made of white space only: any other text, a date or not,
    is recorded as a date.  On a failure of the OCR worker it logs
    "OCR error: <message>" and returns null. *)
Theorem refined_date_text :
  (forall (text : string) (w : World Refined.Doc),
      exists d,
        Refined.extractDateFromImage (Normal text) w = (Normal (Some d), w)
        /\ occurs_in d text
        /\ (d = "" <-> forall_in is_space text = true))
  /\ (forall (e : string) (w : World Refined.Doc),
      Refined.extractDateFromImage (Throw e) w
      = (Normal None, mkWorld (w_log w ++ [Line ("OCR error: " ++ e)]) (w_files w))).
Proof.
  split.
  - intros text w. exists (Refined.firstMatch Refined.datePatterns text).
    rewrite refined_extract_run. cbn [RefinedScan.ocr_lines extracted].
    rewrite app_nil_r, world_eta. split; [reflexivity|]. apply firstMatch_spec.
  - intros e w. reflexivity.
Qed.

Lemma refined_date_text_witness :
  exists d,
    Refined.extractDateFromImage (Normal "  ") (@empty_world Refined.Doc)
    = (Normal (Some d), empty_world)
    /\ occurs_in d "  "
    /\ (d = "" <-> forall_in is_space "  " = true).
Proof. apply (proj1 refined_date_text "  " empty_world). Defined.

(** ** The Simplified scan *)

Lemma NoDup_map_injective {A B} (f : A -> B) (l : list A) :
  (forall a b, f a = f b -> a = b) -> NoDup l -> NoDup (map f l).
Proof.
  intros Hinj. induction 1 as [|a l Hnotin Hnd IH]; cbn [map]; constructor; [|exact IH].
  intro Hin. apply in_map_iff in Hin. destruct Hin as [b [E Hb]].
  apply Hinj in E. subst b. contradiction.
Qed.

(** X16.  After a Simplified scan whose probes all resolve, the unique
    frames are copied under the names unique_date_1.png, unique_date_2.png
    and so on, in scan order and without a gap: the names are distinct,
    so no copy replaces another, each copy holds the frame of its
    position, and the cards of the report are numbered from 1 in the
    same order, positions strictly increasing. *)
Theorem simplified_unique_names (page : Simplified.Page) (b0 : Buffer)
        (w : World Simplified.Doc) :
  (forall i, (i < Simplified.numPoints)%nat ->
             exists b, Simplified.probe page i = Normal b) ->
  exists st w',
    Simplified.scan page b0 w = (Normal st, w')
    /\ map Simplified.uniquePath (Simplified.captured st)
       = map SimplifiedScan.unique_name (seq 0 (List.length (Simplified.captured st)))
    /\ NoDup (map Simplified.uniquePath (Simplified.captured st))
    /\ StronglySorted lt (map Simplified.position (Simplified.captured st))
    /\ w_files w'
       = (w_files w
          ++ map (fun img => (Simplified.uniquePath img,
                              Simplified.Png
                                (SimplifiedSpec.frame page (Simplified.position img - 1))))
                 (Simplified.captured st))%list
    /\ map Simplified.card_number (Simplified.cards (Simplified.captured st) 0)
       = seq 1 (List.length (Simplified.captured st)).
Proof.
  intro Hok. unfold Simplified.scan.
  destruct (simplified_scan_run page b0 Simplified.numPoints w Hok) as [w' [E Hf]].
  rewrite E. eexists. exists w'. split; [reflexivity|].
  cbn [Simplified.captured].
  set (uniq := SimplifiedScan.unique_upto page b0 Simplified.numPoints) in *.
  destruct (samples_paths 0 uniq) as [Hp Hpos].
  rewrite samples_length.
  split; [exact Hp|]. split.
  - rewrite Hp. apply NoDup_map_injective; [exact simplified_names_distinct | apply seq_NoDup].
  - split.
    + rewrite Hpos. apply (StronglySorted_map lt lt S); [intros; lia|].
      apply unique_indices_sorted.
    + split.
      * rewrite Hf. f_equal. clear.
        assert (H : forall k,
                   SimplifiedScan.copies page k uniq
                   = map (fun img => (Simplified.uniquePath img,
                                      Simplified.Png
                                        (SimplifiedSpec.frame page
                                           (Nat.pred (Simplified.position img)))))
                         (SimplifiedScan.samples k uniq)).
        { induction uniq as [|i l IH]; intro k; [reflexivity|].
          cbn [SimplifiedScan.samples SimplifiedScan.copies map]. rewrite IH.
          cbn [SimplifiedScan.sample Simplified.uniquePath Simplified.position].
          replace (Nat.pred (i + 1)) with i by lia. reflexivity. }
        rewrite H. apply map_ext. intro img. now rewrite Nat.sub_1_r.
      * rewrite (proj1 (cards_numbers _ 0)), samples_length. reflexivity.
Qed.

Lemma simplified_unique_names_witness :
  exists st w',
    Simplified.scan Runs.simplified_example (frame_of_size 100) empty_world = (Normal st, w')
    /\ map Simplified.uniquePath (Simplified.captured st)
       = map SimplifiedScan.unique_name (seq 0 (List.length (Simplified.captured st)))
    /\ NoDup (map Simplified.uniquePath (Simplified.captured st))
    /\ StronglySorted lt (map Simplified.position (Simplified.captured st))
    /\ w_files w'
       = (w_files (@empty_world Simplified.Doc)
          ++ map (fun img => (Simplified.uniquePath img,
                              Simplified.Png
                                (SimplifiedSpec.frame Runs.simplified_example
                                   (Simplified.position img - 1))))
                 (Simplified.captured st))%list
    /\ map Simplified.card_number (Simplified.cards (Simplified.captured st) 0)
       = seq 1 (List.length (Simplified.captured st)).
Proof.
  apply (simplified_unique_names Runs.simplified_example (frame_of_size 100) empty_world).
  intros i Hi. eexists. reflexivity.
Defined.

(** ** The change detectors *)

(** X17.  The detectors compare lengths only, so two buffers of the
    same length are never reported as changed, whatever their bytes: a
    frame that differs from the baseline in content but not in size is
    not captured.  And whatever [hasSignificantChanges] reports as a
    change, [compareScreenshots] reports as well. *)
Theorem detector_blind_to_content :
  (forall a b : Buffer,
      List.length a = List.length b ->
      ChangeSpec.isSignificantChange a b = false
      /\ ChangeSpec.isSignificantChange_revised a b = false)
  /\ (forall a b : Buffer,
      ChangeSpec.isSignificantChange_revised a b = true ->
      ChangeSpec.isSignificantChange a b = true).
Proof. split; [exact equal_length_not_flagged | exact revised_implies_enhanced]. Qed.

Lemma detector_blind_to_content_witness :
  ChangeSpec.isSignificantChange [x00; x01] [x02; x03] = false
  /\ ChangeSpec.isSignificantChange_revised [x00; x01] [x02; x03] = false.
Proof.
  apply (proj1 detector_blind_to_content [x00; x01] [x02; x03]). reflexivity.
Defined.

(** ** The investigation script and the Revised session *)



(** X19.  The systematic search for the history icon tries the columns
    400, 460, 520 and 580 from left to right and ends at the first
    column whose click changes the screenshot size by more than one
    percent: the columns before it are logged as tried, the columns after
    it are neither clicked nor logged.  When no click changes the screen
    all four columns are tried and the search ends without a hit. *)
Theorem icon_search_stops_at_first_change (page : RevisedSession.Page) (w : World unit)
        (before : list Z) :
  (forall x, In x before ->
             (exists shots, RevisedSession.iconTry page x = Normal shots)
             /\ RevisedSpec.activates page x = false) ->
  RevisedSession.possibleIconPositions = [400; 460; 520; 580]%Z
  /\ (forall x after shots,
        RevisedSession.possibleIconPositions = (before ++ x :: after)%list ->
        RevisedSession.iconTry page x = Normal shots ->
        RevisedSpec.activates page x = true ->
        RevisedSession.find_icon page RevisedSession.possibleIconPositions w
        = (Normal true,
           mkWorld (w_log w ++ flat_map (RevisedSpec.miss_lines page) before
                    ++ RevisedSpec.hit_lines page x) (w_files w)))
  /\ (RevisedSession.possibleIconPositions = before ->
      RevisedSession.find_icon page RevisedSession.possibleIconPositions w
      = (Normal false,
         mkWorld (w_log w ++ flat_map (RevisedSpec.miss_lines page) before) (w_files w))).
Proof.
  intro Hmiss. split; [exact stepped_positions|].
  destruct (find_icon_run page before w Hmiss) as [Hhit Hnone]. split.
  - intros x after shots -> Hs Ha. exact (Hhit x after shots Hs Ha).
  - intros ->. exact Hnone.
Qed.

Lemma icon_search_stops_at_first_change_witness :
  RevisedSession.find_icon RevisedSpec.icon_at_460 RevisedSession.possibleIconPositions
    empty_world
  = (Normal true,
     mkWorld (w_log (@empty_world unit)
              ++ flat_map (RevisedSpec.miss_lines RevisedSpec.icon_at_460) [400%Z]
              ++ RevisedSpec.hit_lines RevisedSpec.icon_at_460 460)
             (w_files (@empty_world unit))).
Proof.
  refine (proj1 (proj2 (icon_search_stops_at_first_change RevisedSpec.icon_at_460
                          empty_world [400%Z] _))
            460%Z [520; 580]%Z (repeat x00 1000, repeat x00 1200) eq_refl eq_refl eq_refl).
  intros x [<-|[]]. split; [eexists; reflexivity | reflexivity].
Defined.


